(** * Burp project time analyzer: session clustering, duration floor,
      daily aggregation and duration formatting

    A shallow embedding of [burp_time_analyzer.py].  Python integers are
    unbounded, so timestamps, counters and durations are [Z].  The session
    dictionaries [{'start', 'end', 'requests'}] are records; the
    [defaultdict] of per-day counters is a [gmap] keyed by the date string,
    read with the factory's default.  Console output and the exceptions the
    arithmetic and the date conversion can raise are threaded through a
    small writer/error monad. *)

From Stdlib Require Import ZArith List Lia Sorted QArith Qround.
From Stdlib Require Import Ascii String DecimalString.
From Stdlib Require Import PrimFloat FloatOps SpecFloat Uint63.
From Stdlib Require DecimalZ DecimalPos.
From stdpp Require Import gmap strings list fin_maps sorting.

Local Open Scope Z_scope.

(** ** Sessions *)

(** [len(l)] as a Python [int]. *)
Definition len {A : Type} (l : list A) : Z := Z.of_nat (length l).

(** A session dictionary: [{'start': _, 'end': _, 'requests': _}]. *)
Record session : Type := mk_session {
  start : Z;
  end_ : Z;
  requests : Z
}.

Global Instance session_eq_dec : EqDecision session.
Proof. solve_decision. Defined.

(** The dictionary literal of lines 70-74 and 79-83. *)
Definition new_session (ts : Z) : session :=
  {| start := ts; end_ := ts; requests := 1 |}.

(** The [else] branch of the loop (lines 85-86): ['end'] is overwritten and
    ['requests'] incremented in place. *)
Definition extend_session (current_session : session) (ts : Z) : session :=
  {| start := start current_session;
     end_ := ts;
     requests := requests current_session + 1 |}.

(** One iteration of the [for ts in timestamps[1:]] loop (lines 76-86) on
    the pair of the result list and the session being built.  The dictionary
    bound to [current_session] is appended only when a fresh dictionary
    replaces it, so an appended session is never mutated afterwards. *)
Definition loop_body (gap_ms : Z) (st : list session * session) (ts : Z)
  : list session * session :=
  let '(sessions, current_session) := st in
  if ts - end_ current_session >? gap_ms
  then (sessions ++ [current_session], new_session ts)
  else (sessions, extend_session current_session ts).

(** [analyze_sessions(timestamps, session_gap_minutes)], lines 62-89. *)
Definition analyze_sessions (timestamps : list Z) (session_gap_minutes : Z)
  : list session :=
  match timestamps with
  | [] => []
  | ts0 :: rest =>
      let gap_ms := session_gap_minutes * 60 * 1000 in
      let '(sessions, current_session) :=
        fold_left (loop_body gap_ms) rest ([], new_session ts0) in
      sessions ++ [current_session]
  end.

(** Sum of the ['requests'] fields of a session list. *)
Definition total_requests (sessions : list session) : Z :=
  foldr (fun s acc => requests s + acc) 0 sessions.

(** The sessions still to be emitted once [current_session] is open and
    [rest] remains to be read: the loop seen from its input. *)
Fixpoint clusters (gap_ms : Z) (current_session : session) (rest : list Z)
  : list session :=
  match rest with
  | [] => [current_session]
  | ts :: rest' =>
      if ts - end_ current_session >? gap_ms
      then current_session :: clusters gap_ms (new_session ts) rest'
      else clusters gap_ms (extend_session current_session ts) rest'
  end.

(** What the loop guarantees of two adjacent sessions. *)
Definition split_after (gap_ms : Z) (a b : session) : Prop :=
  gap_ms < start b - end_ a.

(** The timestamps read while each session was current.  The program keeps
    only the count; this instrumented loop records, next to every session,
    the timestamps that were folded into it. *)
Definition loop_body_members (gap_ms : Z)
    (st : list (session * list Z) * (session * list Z)) (ts : Z)
  : list (session * list Z) * (session * list Z) :=
  let '(sessions, (current_session, members)) := st in
  if ts - end_ current_session >? gap_ms
  then (sessions ++ [(current_session, members)], (new_session ts, [ts]))
  else (sessions, (extend_session current_session ts, members ++ [ts])).

Definition analyze_sessions_members (timestamps : list Z)
    (session_gap_minutes : Z) : list (session * list Z) :=
  match timestamps with
  | [] => []
  | ts0 :: rest =>
      let gap_ms := session_gap_minutes * 60 * 1000 in
      let '(sessions, current) :=
        fold_left (loop_body_members gap_ms) rest ([], (new_session ts0, [ts0])) in
      sessions ++ [current]
  end.

(** A session together with the timestamps it stands for: the first is its
    start, the last its end, and their number its request count. *)
Definition holds_members (p : session * list Z) : Prop :=
  head p.2 = Some (start p.1)
  /\ last p.2 = Some (end_ p.1)
  /\ requests p.1 = len p.2.

(** [min(T)] and [max(T)], defined on a non-empty list. *)
Definition list_min (T : list Z) : option Z :=
  match T with
  | [] => None
  | x :: l => Some (foldr Z.min x l)
  end.

Definition list_max (T : list Z) : option Z :=
  match T with
  | [] => None
  | x :: l => Some (foldr Z.max x l)
  end.

(** Consecutive timestamps in order and at most [gap_ms] apart, and more
    than [gap_ms] apart. *)
Definition chained (gap_ms : Z) (a b : Z) : Prop := a <= b /\ b - a <= gap_ms.
Definition scattered (gap_ms : Z) (a b : Z) : Prop := b - a > gap_ms.

(** ** Exceptions and results *)

Inductive exn : Type :=
| OverflowError   (* a float result outside the binary64 range *)
| DateError.      (* [datetime.fromtimestamp] rejected its argument *)

Inductive result (A : Type) : Type :=
| Ok (a : A)
| Raise (e : exn).
Arguments Ok {A} a.
Arguments Raise {A} e.

Global Instance result_ret : MRet result := fun A a => Ok a.
Global Instance result_bind : MBind result := fun A B f m =>
  match m with
  | Ok a => f a
  | Raise e => Raise e
  end.

(** ** Python floats

    A finite binary64 value is represented by the rational it denotes.
    [round_binary64] is round-to-nearest, ties-to-even, onto the binary64
    grid (53-bit significand, exponents from -1074 to 971 for the unit in
    the last place); a result of magnitude 2^1024 or more is an overflow. *)

(** Nearest integer to [a / b] for [0 <= a] and [0 < b], ties to even. *)
Definition round_half_even (a b : Z) : Z :=
  let q := a / b in
  let r := a mod b in
  if 2 * r <? b then q
  else if b <? 2 * r then q + 1
  else if Z.even q then q else q + 1.

(** [2^e] for [0 <= e], and 1 below: the integer part of a scaling by a
    power of two, the rest of which goes to the other side of a quotient. *)
Definition pow2 (e : Z) : Z := 2 ^ Z.max 0 e.

(** Exponent [e] of the unit in the last place of [n / d] (for [0 < n],
    [0 < d]): the one with [2^52 <= n / (d * 2^e) < 2^53], or -1074 in the
    subnormal range. *)
Definition binary64_exponent (n d : Z) : Z :=
  let e0 := Z.log2 n - Z.log2 d - 52 in
  let q0 := (n * pow2 (- e0)) / (d * pow2 e0) in
  let e := if q0 <? 2 ^ 52 then e0 - 1 else e0 in
  Z.max e (-1074).

(** The rational [m * 2^e]. *)
Definition dyadic (m e : Z) : Q :=
  Qmake (m * pow2 e) (Z.to_pos (pow2 (- e))).

Definition round_binary64 (x : Q) : option Q :=
  let x := Qred x in
  let n := Z.abs (Qnum x) in
  let d := Z.pos (Qden x) in
  if n =? 0 then Some 0%Q
  else
    let e := binary64_exponent n d in
    let m := round_half_even (n * pow2 (- e)) (d * pow2 e) in
    if 2 ^ 1024 <=? m * pow2 e then None
    else Some (Qred (dyadic (Z.sgn (Qnum x) * m) e)).

(** The kernel's binary64 division, read back as a rational, on two
    integers that are floats themselves (below [2^53]): a reference to
    compare [round_binary64] with. *)
Definition spec_float_value (f : spec_float) : option Q :=
  match f with
  | S754_zero _ => Some 0%Q
  | S754_finite s m e =>
      Some (Qred (dyadic (if s then Z.neg m else Z.pos m) e))
  | _ => None
  end.

Definition kernel_div (a b : Z) : option Q :=
  spec_float_value
    (Prim2SF (PrimFloat.div (PrimFloat.of_uint63 (Uint63.of_Z a))
                            (PrimFloat.of_uint63 (Uint63.of_Z b)))).

(** A float operation whose exact result is [x]. *)
Definition fl (x : Q) : result Q :=
  match round_binary64 x with
  | Some y => Ok y
  | None => Raise OverflowError
  end.

(** [a / b] on two [int]s: the correctly rounded quotient, or
    [OverflowError] when it is too large for a float. *)
Definition int_true_div (a b : Z) : result Q :=
  fl (inject_Z a / inject_Z b)%Q.

(** Truncation towards zero, [int(x)] on a float. *)
Definition Qtrunc (x : Q) : Z := Z.quot (Qnum x) (Z.pos (Qden x)).

(** C's [fmod]: exact, with the sign of [x]. *)
Definition fmod (x w : Q) : Q :=
  (x - w * inject_Z (Qtrunc (x / w)))%Q.

Definition Qis_zero (x : Q) : bool := Qnum x =? 0.
Definition Qis_neg (x : Q) : bool := Qnum x <? 0.
Definition Qlt_bool (x y : Q) : bool := negb (Qle_bool y x).

(** [x % w] on floats ([float_rem]): [fmod] moved to the sign of [w]. *)
Definition float_mod (vx wx : Q) : result Q :=
  let mod_ := fmod vx wx in
  if Qis_zero mod_ then Ok 0%Q
  else if xorb (Qis_neg wx) (Qis_neg mod_) then fl (mod_ + wx)%Q
  else Ok mod_.

(** [x // w] on floats ([float_floor_div]): the quotient of [x - fmod x w]
    by [w], corrected for sign and snapped to the nearest whole number. *)
Definition float_floordiv (vx wx : Q) : result Q :=
  let mod_ := fmod vx wx in
  t ← fl (vx - mod_)%Q;
  div ← fl (t / wx)%Q;
  div ← (if negb (Qis_zero mod_) && xorb (Qis_neg wx) (Qis_neg mod_)
         then fl (div - 1)%Q else Ok div);
  if Qis_zero div then Ok 0%Q
  else
    let floordiv := inject_Z (Qfloor div) in
    frac ← fl (div - floordiv)%Q;
    if Qlt_bool (1 # 2) frac then fl (floordiv + 1)%Q else Ok floordiv.

(** ** Strings *)

(** [str(n)] for an [int]. *)
Definition str (n : Z) : string := NilZero.string_of_int (Z.to_int n).

Fixpoint spaces (n : nat) : string :=
  match n with
  | O => ""
  | S n' => String " "%char (spaces n')
  end.

(** The format specification [{s:<width}]. *)
Definition ljust (s : string) (width : nat) : string :=
  s +:+ spaces (width - String.length s).

(** ** format_duration, lines 91-105 *)

Definition format_duration (ms : Z) : result string :=
  if ms <? 0 then Ok "0s"%string
  else
    seconds ← int_true_div ms 1000;
    h ← float_floordiv seconds 3600;
    let hours := Qtrunc h in
    r ← float_mod seconds 3600;
    m ← float_floordiv r 60;
    let minutes := Qtrunc m in
    s ← float_mod seconds 60;
    let secs := Qtrunc s in
    if hours >? 0 then Ok (str hours +:+ "h " +:+ str minutes +:+ "m")
    else if minutes >? 0 then Ok (str minutes +:+ "m " +:+ str secs +:+ "s")
    else Ok (str secs +:+ "s").

(** The formatter as the specification words it, to compare
    [format_duration] with: three forms by whole-number arithmetic on the
    milliseconds, hours and minutes from one hour up, minutes and seconds
    from one minute up, seconds below, every component truncated. *)
Definition format_truncated (ms : Z) : string :=
  let hours := ms / 3600000 in
  let minutes := ms mod 3600000 / 60000 in
  let secs := ms mod 60000 / 1000 in
  if hours >? 0 then str hours +:+ "h " +:+ str minutes +:+ "m"
  else if minutes >? 0 then str minutes +:+ "m " +:+ str secs +:+ "s"
  else str secs +:+ "s".

(** ** Console output

    [io A] is a run of a piece of the program: the lines it passed to
    [print], in order, and either its value or the exception that ended
    it. *)

Definition io (A : Type) : Type := (list string * result A)%type.

Global Instance io_ret : MRet io := fun A a => ([], Ok a).
Global Instance io_bind : MBind io := fun A B f m =>
  match m with
  | (out, Ok a) => let '(out', r) := f a in (out ++ out', r)
  | (out, Raise e) => (out, Raise e)
  end.

Definition print (line : string) : io unit := ([line], Ok tt).
Definition lift {A} (r : result A) : io A := ([], r).

Fixpoint for_each {A S : Type} (body : A -> S -> io S) (l : list A) (st : S)
  : io S :=
  match l with
  | [] => mret st
  | x :: l' => st' ← body x st; for_each body l' st'
  end.

(** [enumerate(l, start)]. *)
Fixpoint enumerate {A : Type} (l : list A) (start : Z) : list (Z * A) :=
  match l with
  | [] => []
  | x :: l' => (start, x) :: enumerate l' (start + 1)
  end.

Definition nl : string := String (ascii_of_nat 10) "".

(** [c * n] for a one-character string [c]. *)
Fixpoint rule (n : nat) (c : ascii) : string :=
  match n with
  | O => ""
  | S n' => String c (rule n' c)
  end.

(** [path.split('/')[-1]]: what follows the last slash. *)
Fixpoint last_component (path acc : string) : string :=
  match path with
  | EmptyString => acc
  | String c path' =>
      if Ascii.eqb c "/" then last_component path' ""
      else last_component path' (acc +:+ String c "")
  end.

(** The format specification [{x:.1f}] on a finite float: the exact value
    rounded to one decimal, ties to even. *)
Definition format_1f (x : Q) : string :=
  let t := round_half_even (10 * Z.abs (Qnum x)) (Z.pos (Qden x)) in
  (if Qis_neg x then "-" else "") +:+ str (t / 10) +:+ "." +:+ str (t mod 10).

(** ** Per-day counters and the returned summary *)

(** The value dictionaries of [daily_work]:
    [{'time': _, 'sessions': _, 'requests': _}]. *)
Module Day.
Record t : Type := mk { time : Z; sessions : Z; requests : Z }.
(** The [defaultdict] factory, line 143. *)
Definition fresh : t := {| time := 0; sessions := 0; requests := 0 |}.
End Day.

(** The dictionary returned on lines 197-202. *)
Module Summary.
Record t : Type := mk {
  total_hours : Q;
  total_days : Z;
  sessions : Z;
  requests : Z
}.
End Summary.

(** [daily_work[key]]: the stored counters, or the factory's default (which
    the [defaultdict] stores on first access). *)
Definition getitem (daily_work : gmap string Day.t) (key : string) : Day.t :=
  default Day.fresh (daily_work !! key).

(** [daily_work[key]['time'] += v] and its two siblings, lines 159-161. *)
Definition add_time (key : string) (v : Z) (daily_work : gmap string Day.t)
  : gmap string Day.t :=
  let d := getitem daily_work key in
  <[key := {| Day.time := Day.time d + v;
              Day.sessions := Day.sessions d;
              Day.requests := Day.requests d |}]> daily_work.

Definition add_sessions (key : string) (v : Z) (daily_work : gmap string Day.t)
  : gmap string Day.t :=
  let d := getitem daily_work key in
  <[key := {| Day.time := Day.time d;
              Day.sessions := Day.sessions d + v;
              Day.requests := Day.requests d |}]> daily_work.

Definition add_requests (key : string) (v : Z) (daily_work : gmap string Day.t)
  : gmap string Day.t :=
  let d := getitem daily_work key in
  <[key := {| Day.time := Day.time d;
              Day.sessions := Day.sessions d;
              Day.requests := Day.requests d + v |}]> daily_work.

(** The three updates of one iteration, in the order of lines 159-161. *)
Definition add_session (key : string) (duration reqs : Z)
    (daily_work : gmap string Day.t) : gmap string Day.t :=
  add_requests key reqs (add_sessions key 1 (add_time key duration daily_work)).

(** [sorted(daily_work.keys())]. *)
Definition sorted_keys (daily_work : gmap string Day.t) : list string :=
  merge_sort (fun a b => Is_true (String.leb a b)) (map fst (map_to_list daily_work)).

(** Sums over all day buckets. *)
Definition sum_days (f : Day.t -> Z) (daily_work : gmap string Day.t) : Z :=
  map_fold (fun _ d acc => f d + acc) 0 daily_work.

(** ** The duration floor, lines 151-155 *)

Definition effective_duration (s : session) : Z :=
  let duration := end_ s - start s in
  if duration <? 300000 then 300000 else duration.

Definition total_effective (sessions : list session) : Z :=
  foldr (fun s acc => effective_duration s + acc) 0 sessions.

(** ** analyze_burp_project, lines 107-202

    The standard library's [datetime] and the extraction step (a shell
    pipeline over the capture file) are collaborators of the analysis:
    [fromtimestamp] is [datetime.fromtimestamp] on a float of seconds, in
    the time zone of the process, [None] when it rejects its argument;
    [strftime] renders a [datetime] with a format string;
    [extract_timestamps] is a run of the extraction, with the lines it
    printed and the sorted list it returned. *)

Section Analysis.

Variable datetime : Type.
Variable fromtimestamp : Q -> option datetime.
Variable strftime : datetime -> string -> string.
Variable extract_timestamps : string -> io (list Z).

(** Lines 107-109. *)
Definition ms_to_datetime (ms : Z) : result datetime :=
  seconds ← int_true_div ms 1000;
  match fromtimestamp seconds with
  | Some dt => Ok dt
  | None => Raise DateError
  end.

(** The key of the day bucket a session is added to: the date of its
    start. *)
Definition session_day (s : session) : option string :=
  match ms_to_datetime (start s) with
  | Ok dt => Some (strftime dt "%Y-%m-%d")
  | Raise _ => None
  end.

(** The sessions that fall on [day]. *)
Definition day_sessions (day : string) (sessions : list session)
  : list session :=
  filter (fun s => session_day s = Some day) sessions.

(** A session the loop can go through: both of its ends convert to a
    [datetime], and its duration is in the range where
    [format_duration] is known to return. *)
Definition displayable (s : session) : Prop :=
  (exists dt, ms_to_datetime (start s) = Ok dt)
  /\ (exists dt, ms_to_datetime (end_ s) = Ok dt)
  /\ effective_duration s < 2 ^ 44 * 1000.

(** The row of the session table, lines 165-167. *)
Definition session_line (i : Z) (start_dt end_dt : datetime)
    (duration_text : string) (reqs : Z) : string :=
  "    " +:+ ljust (str i) 4 +:+ " "
  +:+ ljust (strftime start_dt "%Y-%m-%d") 12 +:+ " "
  +:+ ljust (strftime start_dt "%H:%M") 8 +:+ " "
  +:+ ljust (strftime end_dt "%H:%M") 8 +:+ " "
  +:+ ljust duration_text 10 +:+ " "
  +:+ ljust (str reqs) 6.

(** The body of the loop over [enumerate(sessions, 1)], lines 148-169, on
    the pair of [total_work_time] and [daily_work]. *)
Definition session_body (n_sessions : Z) (item : Z * session)
    (st : Z * gmap string Day.t) : io (Z * gmap string Day.t) :=
  let '(i, session) := item in
  let '(total_work_time, daily_work) := st in
  start_dt ← lift (ms_to_datetime (start session));
  end_dt ← lift (ms_to_datetime (end_ session));
  let duration := effective_duration session in
  let total_work_time := total_work_time + duration in
  let day_key := strftime start_dt "%Y-%m-%d" in
  let daily_work := add_time day_key duration daily_work in
  let daily_work := add_sessions day_key 1 daily_work in
  let daily_work := add_requests day_key (requests session) daily_work in
  _ ← (if i <=? 30 then
         text ← lift (format_duration duration);
         print (session_line i start_dt end_dt text (requests session))
       else if i =? 31 then
         print ("    ... (" +:+ str (n_sessions - 30) +:+ " more sessions)")
       else mret tt);
  mret (total_work_time, daily_work).

Definition session_loop (sessions : list session)
  : io (Z * gmap string Day.t) :=
  for_each (session_body (len sessions)) (enumerate sessions 1) (0, ∅).

(** What the two accumulators hold once the sessions of [items] have been
    gone through. *)
Definition loop_invariant (items : list (Z * session))
    (st : Z * gmap string Day.t) : Prop :=
  st.1 = total_effective (map snd items)
  /\ sum_days Day.time st.2 = st.1
  /\ sum_days Day.sessions st.2 = len (map snd items)
  /\ sum_days Day.requests st.2 = total_requests (map snd items)
  /\ forall day,
       getitem st.2 day
       = {| Day.time :=
              total_effective
                (day_sessions day (map snd items));
            Day.sessions :=
              len (day_sessions day (map snd items));
            Day.requests :=
              total_requests
                (day_sessions day (map snd items)) |}.

(** The body of the loop over the sorted days, lines 185-187. *)
Definition day_body (daily_work : gmap string Day.t) (day : string)
    (_ : unit) : io unit :=
  let d := getitem daily_work day in
  text ← lift (format_duration (Day.time d));
  print ("    " +:+ ljust day 12 +:+ " " +:+ ljust text 12 +:+ " "
         +:+ ljust (str (Day.sessions d)) 8 +:+ " "
         +:+ ljust (str (Day.requests d)) 10).

Definition analyze_burp_project (burp_file : string) (session_gap : Z)
  : io (option Summary.t) :=
  _ ← print (nl +:+ rule 60 "=");
  _ ← print "  TIME ANALYSIS - BURP PROJECT";
  _ ← print ("  " +:+ last_component burp_file "");
  _ ← print (rule 60 "=" +:+ nl);
  _ ← print "[*] Extracting timestamps...";
  timestamps ← extract_timestamps burp_file;
  match timestamps with
  | [] =>
      _ ← print "[!] No timestamps found in file.";
      mret None
  | first_ts :: _ =>
      _ ← print (nl +:+ "[+] Found " +:+ str (len timestamps)
                 +:+ " unique timestamps" +:+ nl);
      let last_ts := List.last timestamps first_ts in
      _ ← print "[*] TIME RANGE:";
      first_dt ← lift (ms_to_datetime first_ts);
      _ ← print ("    First request: "
                 +:+ strftime first_dt "%Y-%m-%d %H:%M:%S");
      last_dt ← lift (ms_to_datetime last_ts);
      _ ← print ("    Last request:  "
                 +:+ strftime last_dt "%Y-%m-%d %H:%M:%S");
      range ← lift (format_duration (last_ts - first_ts));
      _ ← print ("    Total range:   " +:+ range +:+ nl);
      let sessions := analyze_sessions timestamps session_gap in
      _ ← print ("[*] WORK SESSIONS (gap > " +:+ str session_gap
                 +:+ " min = new session):");
      _ ← print ("    Number of sessions: " +:+ str (len sessions) +:+ nl);
      _ ← print ("    " +:+ ljust "No" 4 +:+ " " +:+ ljust "Date" 12 +:+ " "
                 +:+ ljust "Start" 8 +:+ " " +:+ ljust "End" 8 +:+ " "
                 +:+ ljust "Duration" 10 +:+ " " +:+ ljust "Req." 6);
      _ ← print ("    " +:+ rule 54 "-");
      '(total_work_time, daily_work) ← session_loop sessions;
      _ ← print (nl +:+ rule 60 "=");
      _ ← print "  SUMMARY";
      _ ← print (rule 60 "=");
      total_text ← lift (format_duration total_work_time);
      _ ← print (nl +:+ "    Total work time:       " +:+ total_text);
      _ ← print ("    Number of sessions:    " +:+ str (len sessions));
      average_text ←
        lift (format_duration (total_work_time / Z.max 1 (len sessions)));
      _ ← print ("    Average session time:  " +:+ average_text);
      _ ← print ("    Total requests:        " +:+ str (len timestamps));
      _ ← print (nl +:+ "[*] WORK TIME PER DAY:");
      _ ← print ("    " +:+ ljust "Date" 12 +:+ " " +:+ ljust "Time" 12
                 +:+ " " +:+ ljust "Sessions" 8 +:+ " "
                 +:+ ljust "Requests" 10);
      _ ← print ("    " +:+ rule 42 "-");
      _ ← for_each (day_body daily_work) (sorted_keys daily_work) tt;
      total_hours ← lift (int_true_div total_work_time (1000 * 3600));
      let total_days := Z.of_nat (size daily_work) in
      total_text ← lift (format_duration total_work_time);
      _ ← print (nl +:+ "    " +:+ ljust "TOTAL" 12 +:+ " "
                 +:+ ljust total_text 12 +:+ " "
                 +:+ ljust (str (len sessions)) 8 +:+ " "
                 +:+ ljust (str (len timestamps)) 10);
      _ ← print (nl +:+ "    === ESTIMATED TIME: ~" +:+ format_1f total_hours
                 +:+ " hours (" +:+ str total_days +:+ " working days) ===");
      _ ← print (nl +:+ rule 60 "=" +:+ nl);
      mret (Some {| Summary.total_hours := total_hours;
                    Summary.total_days := total_days;
                    Summary.sessions := len sessions;
                    Summary.requests := len timestamps |})
  end.

End Analysis.

Arguments ms_to_datetime {datetime} fromtimestamp ms.
Arguments session_day {datetime} fromtimestamp strftime s.
Arguments day_sessions {datetime} fromtimestamp strftime day sessions.
Arguments displayable {datetime} fromtimestamp s.
Arguments session_line {datetime} strftime i start_dt end_dt duration_text reqs.
Arguments session_body {datetime} fromtimestamp strftime n_sessions item st.
Arguments session_loop {datetime} fromtimestamp strftime sessions.
Arguments loop_invariant {datetime} fromtimestamp strftime items st.
Arguments analyze_burp_project {datetime} fromtimestamp strftime
  extract_timestamps burp_file session_gap.

(** ** A concrete collaborator: UTC

    One instance of the [datetime] collaborator, for running the analysis
    on examples: the process runs in UTC and a [datetime] is a count of
    microseconds since the epoch, within years 1 to 9999. *)

Module UTC.

Definition datetime : Type := Z.

Definition fromtimestamp (x : Q) : option datetime :=
  let us := Z.sgn (Qnum x)
            * round_half_even (1000000 * Z.abs (Qnum x)) (Z.pos (Qden x)) in
  if (-62135596800000000 <=? us) && (us <? 253402300800000000)
  then Some us else None.

(** Year, month and day of a day number counted from 1970-01-01. *)
Definition civil (days : Z) : Z * Z * Z :=
  let z := days + 719468 in
  let era := z / 146097 in
  let doe := z - era * 146097 in
  let yoe := (doe - doe / 1460 + doe / 36524 - doe / 146096) / 365 in
  let doy := doe - (365 * yoe + yoe / 4 - yoe / 100) in
  let mp := (5 * doy + 2) / 153 in
  let d := doy - (153 * mp + 2) / 5 + 1 in
  let m := if mp <? 10 then mp + 3 else mp - 9 in
  let y := yoe + era * 400 + (if m <=? 2 then 1 else 0) in
  (y, m, d).

Definition pad2 (n : Z) : string :=
  if n <? 10 then "0" +:+ str n else str n.

Definition pad4 (n : Z) : string :=
  if n <? 10 then "000" +:+ str n
  else if n <? 100 then "00" +:+ str n
  else if n <? 1000 then "0" +:+ str n
  else str n.

Definition strftime (dt : datetime) (fmt : string) : string :=
  let secs := dt / 1000000 in
  let '(y, m, d) := civil (secs / 86400) in
  let sod := secs mod 86400 in
  let date := pad4 y +:+ "-" +:+ pad2 m +:+ "-" +:+ pad2 d in
  let hm := pad2 (sod / 3600) +:+ ":" +:+ pad2 (sod mod 3600 / 60) in
  if String.eqb fmt "%Y-%m-%d" then date
  else if String.eqb fmt "%H:%M" then hm
  else if String.eqb fmt "%Y-%m-%d %H:%M:%S"
       then date +:+ " " +:+ hm +:+ ":" +:+ pad2 (sod mod 60)
  else fmt.

(** An extraction that printed nothing and found [timestamps]. *)
Definition found (timestamps : list Z) (_ : string) : io (list Z) :=
  ([], Ok timestamps).

Definition analyze (timestamps : list Z) (session_gap : Z)
  : io (option Summary.t) :=
  analyze_burp_project fromtimestamp strftime (found timestamps)
    "/tmp/project.burp" session_gap.

End UTC.

(** ** Further notions on sessions *)

(** The number of places where a timestamp is more than [gap_ms] after the
    one read before it, [prev] being the one read before [rest]. *)
Fixpoint count_splits (gap_ms prev : Z) (rest : list Z) : Z :=
  match rest with
  | [] => 0
  | ts :: rest' =>
      (if ts - prev >? gap_ms then 1 else 0) + count_splits gap_ms ts rest'
  end.

(** A session moved by [c] milliseconds. *)
Definition shift_session (c : Z) (s : session) : session :=
  {| start := start s + c; end_ := end_ s + c; requests := requests s |}.

(** Sum of the raw durations [end - start] of a session list. *)
Definition total_raw (sessions : list session) : Z :=
  foldr (fun s acc => (end_ s - start s) + acc) 0 sessions.

(** Consecutive members at most [gap_ms] apart. *)
Definition within_gap (gap_ms : Z) (a b : Z) : Prop := b - a <= gap_ms.

(** Two adjacent sessions with their members: the first member of the
    later one is more than [gap_ms] after the last member of the earlier. *)
Definition members_split (gap_ms : Z) (p q : session * list Z) : Prop :=
  exists a b, last p.2 = Some a /\ head q.2 = Some b /\ gap_ms < b - a.

(** The instrumented loop seen from its input, as [clusters] is for the
    plain one. *)
Fixpoint clusters_members (gap_ms : Z) (current_session : session)
    (members rest : list Z) : list (session * list Z) :=
  match rest with
  | [] => [(current_session, members)]
  | ts :: rest' =>
      if ts - end_ current_session >? gap_ms
      then (current_session, members)
           :: clusters_members gap_ms (new_session ts) [ts] rest'
      else clusters_members gap_ms (extend_session current_session ts)
             (members ++ [ts]) rest'
  end.

(** ** Further notions on the report *)

(** The elision line of the session table, line 169. *)
Definition elision_line (n_sessions : Z) : string :=
  "    ... (" +:+ str (n_sessions - 30) +:+ " more sessions)".

(** The row of the per-day table, line 187. *)
Definition day_line (day text : string) (d : Day.t) : string :=
  "    " +:+ ljust day 12 +:+ " " +:+ ljust text 12 +:+ " "
  +:+ ljust (str (Day.sessions d)) 8 +:+ " "
  +:+ ljust (str (Day.requests d)) 10.

Section ReportNotions.

Variable datetime : Type.
Variable fromtimestamp : Q -> option datetime.
Variable strftime : datetime -> string -> string.

(** The buckets that exist are the days on which a session starts. *)
Definition days_invariant (items : list (Z * session))
    (st : Z * gmap string Day.t) : Prop :=
  forall day,
    is_Some (st.2 !! day)
    <-> exists s, s ∈ map snd items
          /\ session_day fromtimestamp strftime s = Some day.

End ReportNotions.

Arguments days_invariant {datetime} fromtimestamp strftime items st.

(** ** extract_timestamps, lines 13-60

    The file system and the shell are collaborators: [getsize] is
    [os.path.getsize] on a file that exists, and [run_shell] is
    [subprocess.run] with its 120 second timeout, returning the decoded
    standard output of the command or [None] when the timeout expired.
    The pipeline ends in [strings] and [grep], whose output is ASCII; the
    character tests below are Python's on ASCII characters. *)

(** [c.isspace()]. *)
Definition is_space (c : ascii) : bool :=
  let n := nat_of_ascii c in
  ((9 <=? n) && (n <=? 13) || (28 <=? n) && (n <=? 32))%nat.

(** [c.isdigit()]. *)
Definition is_digit (c : ascii) : bool :=
  let n := nat_of_ascii c in ((48 <=? n) && (n <=? 57))%nat.

Fixpoint lstrip (s : string) : string :=
  match s with
  | EmptyString => EmptyString
  | String c s' => if is_space c then lstrip s' else s
  end.

Fixpoint rstrip (s : string) : string :=
  match s with
  | EmptyString => EmptyString
  | String c s' =>
      match rstrip s' with
      | EmptyString => if is_space c then EmptyString else String c EmptyString
      | r => String c r
      end
  end.

(** [s.strip()]. *)
Definition strip (s : string) : string := rstrip (lstrip s).

(** [s.split('\n')]: never empty, one more piece than there are newlines. *)
Fixpoint split_lines (s : string) : list string :=
  match s with
  | EmptyString => [EmptyString]
  | String c s' =>
      if Ascii.eqb c (ascii_of_nat 10) then EmptyString :: split_lines s'
      else match split_lines s' with
           | [] => [String c EmptyString]
           | line :: lines => String c line :: lines
           end
  end.

Fixpoint all_digits (s : string) : bool :=
  match s with
  | EmptyString => true
  | String c s' => is_digit c && all_digits s'
  end.

(** [s.isdigit()]: false on the empty string. *)
Definition isdigit (s : string) : bool :=
  match s with
  | EmptyString => false
  | _ => all_digits s
  end.

(** [int(s)] on a string of decimal digits, most significant first. *)
Fixpoint int_of_digits (acc : Z) (s : string) : Z :=
  match s with
  | EmptyString => acc
  | String c s' => int_of_digits (10 * acc + (Z.of_nat (nat_of_ascii c) - 48)) s'
  end.

(** The test of line 53 and the conversion of line 54 on one line of
    output: the timestamp it contributes, if any. *)
Definition parse_line (line : string) : option Z :=
  if negb (String.eqb line "") && isdigit line
     && (String.length line =? 13)%nat
  then Some (int_of_digits 0 line)
  else None.

(** The inner loop, lines 52-54, on the set of timestamps. *)
Definition add_lines (stdout : string) (timestamps : gset Z) : gset Z :=
  fold_left
    (fun acc line =>
       match parse_line line with
       | Some t => {[t]} ∪ acc
       | None => acc
       end)
    (split_lines (strip stdout)) timestamps.

Definition chunk_size : Z := 100 * 1024 * 1024.
Definition stride : Z := 500 * 1024 * 1024.

(** The [while] loop of lines 29-31, with [limit] for
    [file_size - chunk_size]; [None] when [fuel] iterations did not reach
    its exit. *)
Fixpoint sample_loop (fuel : nat) (limit pos : Z) (positions : list Z)
  : option (list Z) :=
  match fuel with
  | O => None
  | S fuel' =>
      if pos <? limit
      then sample_loop fuel' limit (pos + stride) (positions ++ [pos])
      else Some positions
  end.

(** [sorted(set(l))] on integers. *)
Definition sorted_set (l : list Z) : list Z :=
  merge_sort Z.le (elements (list_to_set l : gset Z)).

(** The positions of the sections to read, lines 24-35. *)
Definition sample_positions (fuel : nat) (file_size : Z) : option (list Z) :=
  if file_size >? 500 * 1024 * 1024
  then
    positions ← sample_loop fuel (file_size - chunk_size) stride [0];
    Some (sorted_set (positions ++ [Z.max 0 (file_size - chunk_size)]))
  else Some [0].

(** The format specification [{x:.2f}] on a finite float. *)
Definition format_2f (x : Q) : string :=
  let t := round_half_even (100 * Z.abs (Qnum x)) (Z.pos (Qden x)) in
  let cents := t mod 100 in
  (if Qis_neg x then "-" else "") +:+ str (t / 100) +:+ "."
  +:+ (if cents <? 10 then "0" else "") +:+ str cents.

(** The shell command of line 41. *)
Definition dd_command (burp_file : string) (pos : Z) : string :=
  "dd if='" +:+ burp_file +:+ "' bs=1M skip=" +:+ str (pos / (1024 * 1024))
  +:+ " count=" +:+ str (chunk_size / (1024 * 1024))
  +:+ " 2>/dev/null | strings | grep -oE '177[0-9]{10}'".

(** The bytes [dd] reads for the section at [pos]: [count] blocks of 1 MiB
    after skipping [skip] of them. *)
Definition section_start (pos : Z) : Z := pos / (1024 * 1024) * (1024 * 1024).
Definition section_end (pos : Z) : Z :=
  section_start pos + chunk_size / (1024 * 1024) * (1024 * 1024).

Section Extraction.

Variable getsize : string -> Z.
Variable run_shell : string -> option string.

(** The body of the loop over the positions, lines 39-58. *)
Definition section_body (burp_file : string) (pos : Z) (timestamps : gset Z)
  : io (gset Z) :=
  match run_shell (dd_command burp_file pos) with
  | Some stdout => mret (add_lines stdout timestamps)
  | None =>
      gb ← lift (int_true_div pos (1024 ^ 3));
      _ ← print ("    [!] Timeout at position " +:+ format_2f gb +:+ "GB");
      mret timestamps
  end.

(** The function, from the positions on: lines 37-60. *)
Definition scan_sections (burp_file : string) (positions : list Z)
  : io (list Z) :=
  _ ← print ("    Analyzing " +:+ str (len positions) +:+ " file sections...");
  timestamps ← for_each (section_body burp_file) positions ∅;
  mret (sorted_set (elements timestamps)).

(** [extract_timestamps(burp_file)]; [None] when [fuel] is too small for
    the sampling loop. *)
Definition extract_timestamps (fuel : nat) (burp_file : string)
  : option (io (list Z)) :=
  let file_size := getsize burp_file in
  match sample_positions fuel file_size with
  | Some positions =>
      Some (gb ← lift (int_true_div file_size (1024 ^ 3));
            _ ← print ("    File size: " +:+ format_2f gb +:+ " GB");
            scan_sections burp_file positions)
  | None => None
  end.

(** What the scan has collected after the sections at [done]. *)
Definition scan_invariant (burp_file : string) (done : list Z)
    (timestamps : gset Z) : Prop :=
  forall t,
    t ∈ timestamps
    <-> exists pos stdout line,
          pos ∈ done
          /\ run_shell (dd_command burp_file pos) = Some stdout
          /\ line ∈ split_lines (strip stdout)
          /\ parse_line line = Some t.

End Extraction.

(** [n] positions from [pos] on, [stride] apart. *)
Fixpoint progression (pos : Z) (n : nat) : list Z :=
  match n with
  | O => []
  | S n' => pos :: progression (pos + stride) n'
  end.

(** ** The script, lines 204-218

    [int] is Python's [int] on a string, [None] for the [ValueError] of a
    string that is not an integer literal. *)

(** How a run of the script ends. *)
Inductive termination : Type :=
| Finished                 (* the end of the script is reached *)
| SysExit (status : Z)     (* [sys.exit(status)] *)
| ValueError               (* [int] rejected the second argument *)
| Uncaught (e : exn).      (* an exception of the analysis *)

(** The seven [print] calls of lines 206-212. *)
Definition usage : list string :=
  [ "Usage: python3 burp_time_analyzer.py <file.burp> [gap_minutes]";
    "  gap_minutes - minutes of inactivity for new session (default 30)";
    "               use a large value (e.g. 99999) to disable session splits";
    nl +:+ "Examples:";
    "  python3 burp_time_analyzer.py 2026-02-01-dell.burp";
    "  python3 burp_time_analyzer.py 2026-02-01-dell.burp 20";
    "  python3 burp_time_analyzer.py 2026-02-01-dell.burp 99999  # no breaks" ].

Section Script.

Variable datetime : Type.
Variable fromtimestamp : Q -> option datetime.
Variable strftime : datetime -> string -> string.
Variable extract_timestamps : string -> io (list Z).
Variable int : string -> option Z.

Definition main (argv : list string) : list string * termination :=
  if (length argv <? 2)%nat then (usage, SysExit 1)
  else
    let burp_file := nth 1 argv "" in
    match (if (2 <? length argv)%nat then int (nth 2 argv "") else Some 30) with
    | None => ([], ValueError)
    | Some session_gap =>
        let '(out, r) :=
          analyze_burp_project fromtimestamp strftime extract_timestamps
            burp_file session_gap in
        (out, match r with Ok _ => Finished | Raise e => Uncaught e end)
    end.

End Script.

Arguments main {datetime} fromtimestamp strftime extract_timestamps int argv.

(** * Properties *)

(** ** The clustering loop *)

Lemma fold_loop_body_clusters gap_ms rest sessions current_session :
  let '(sessions', current') :=
    fold_left (loop_body gap_ms) rest (sessions, current_session) in
  sessions' ++ [current'] = sessions ++ clusters gap_ms current_session rest.
Proof.
  revert sessions current_session.
  induction rest as [|ts rest IH]; intros sessions cur; simpl; [reflexivity|].
  destruct (ts - end_ cur >? gap_ms).
  - specialize (IH (sessions ++ [cur]) (new_session ts)).
    destruct (fold_left _ rest _) as [s' c'].
    rewrite IH, <- app_assoc. reflexivity.
  - apply IH.
Qed.

Lemma analyze_sessions_clusters ts0 rest G :
  analyze_sessions (ts0 :: rest) G
  = clusters (G * 60 * 1000) (new_session ts0) rest.
Proof.
  unfold analyze_sessions.
  pose proof (fold_loop_body_clusters (G * 60 * 1000) rest [] (new_session ts0)) as H.
  destruct (fold_left _ rest _) as [s' c']. exact H.
Qed.

Lemma clusters_total_requests gap_ms rest : forall cur,
  total_requests (clusters gap_ms cur rest) = requests cur + len rest.
Proof.
  unfold len.
  induction rest as [|ts rest IH]; intros cur; simpl.
  - lia.
  - destruct (ts - end_ cur >? gap_ms); simpl; rewrite IH; simpl; lia.
Qed.

Lemma analyze_sessions_total_requests T G :
  total_requests (analyze_sessions T G) = len T.
Proof.
  destruct T as [|ts0 rest]; [reflexivity|].
  rewrite analyze_sessions_clusters, clusters_total_requests.
  unfold len. simpl. lia.
Qed.

(** The first session to come out starts where the open one started, and, on
    a non-decreasing input, does not end before it. *)
Lemma clusters_head gap_ms rest : forall cur,
  Sorted Z.le (end_ cur :: rest) ->
  exists h tl, clusters gap_ms cur rest = h :: tl
    /\ start h = start cur /\ end_ cur <= end_ h.
Proof.
  induction rest as [|ts rest IH]; intros cur Hs; simpl.
  - exists cur, []. repeat split; lia.
  - apply Sorted_inv in Hs as [Hs Hhd]. apply HdRel_inv in Hhd.
    destruct (ts - end_ cur >? gap_ms).
    + eexists _, _. repeat split; lia.
    + destruct (IH (extend_session cur ts) Hs) as (h & tl & -> & Hst & Hen).
      exists h, tl. simpl in *. repeat split; lia.
Qed.

Lemma clusters_split_after gap_ms rest : forall cur,
  Sorted Z.le (end_ cur :: rest) ->
  Sorted (split_after gap_ms) (clusters gap_ms cur rest).
Proof.
  induction rest as [|ts rest IH]; intros cur Hs; simpl.
  - repeat constructor.
  - apply Sorted_inv in Hs as [Hs Hhd]. apply HdRel_inv in Hhd.
    destruct (ts - end_ cur >? gap_ms) eqn:Hgap.
    + constructor; [apply IH; exact Hs|].
      destruct (clusters_head gap_ms rest (new_session ts) Hs)
        as (h & tl & -> & Hst & _).
      constructor. unfold split_after. simpl in Hst. lia.
    + apply IH. exact Hs.
Qed.

Lemma clusters_well_formed gap_ms rest : forall cur,
  Sorted Z.le (end_ cur :: rest) -> start cur <= end_ cur ->
  Forall (fun s => start s <= end_ s) (clusters gap_ms cur rest).
Proof.
  induction rest as [|ts rest IH]; intros cur Hs Hwf; simpl.
  - repeat constructor. exact Hwf.
  - apply Sorted_inv in Hs as [Hs Hhd]. apply HdRel_inv in Hhd.
    destruct (ts - end_ cur >? gap_ms).
    + constructor; [exact Hwf|]. apply IH; [exact Hs | simpl; lia].
    + apply IH; [exact Hs | simpl; lia].
Qed.

Lemma Sorted_lookup_adjacent {A} (R : A -> A -> Prop) (l : list A) :
  Sorted R l ->
  forall (i : nat) a b, l !! i = Some a -> l !! S i = Some b -> R a b.
Proof.
  induction 1 as [|x l Hs IH Hhd]; intros i a b Ha Hb; [discriminate|].
  destruct i as [|i]; simpl in *.
  - destruct l as [|y l]; [discriminate|].
    apply HdRel_inv in Hhd. simpl in Hb. congruence.
  - eapply IH; eassumption.
Qed.

(** Adjacent gaps over a non-negative threshold, between well-formed
    sessions, put every earlier session wholly before every later one. *)
Lemma split_after_disjoint gap_ms (l : list session) :
  0 <= gap_ms ->
  Sorted (split_after gap_ms) l ->
  Forall (fun s => start s <= end_ s) l ->
  StronglySorted (fun a b => end_ a < start b) l.
Proof.
  intros Hg Hs. induction Hs as [|x l Hs IH Hhd]; intros Hwf; [constructor|].
  apply Forall_cons_iff in Hwf as [Hx Hl].
  specialize (IH Hl). constructor; [exact IH|].
  destruct l as [|y l]; [constructor|].
  apply HdRel_inv in Hhd. unfold split_after in Hhd.
  apply StronglySorted_inv in IH as [_ Hy].
  apply Forall_cons_iff in Hl as [Hywf Hl].
  constructor; [lia|].
  eapply Forall_impl; [exact Hy|]. simpl. intros z Hz. lia.
Qed.

Lemma StronglySorted_starts (l : list session) :
  StronglySorted (fun a b => end_ a < start b) l ->
  Forall (fun s => start s <= end_ s) l ->
  StronglySorted (fun a b => start a < start b) l.
Proof.
  induction 1 as [|x l Hs IH Hall]; intros Hwf; [constructor|].
  apply Forall_cons_iff in Hwf as [Hx Hl].
  constructor; [apply IH; exact Hl|].
  eapply Forall_impl; [exact Hall|]. simpl. intros z Hz. lia.
Qed.

(** C1: for a non-decreasing list of timestamps and a positive gap, the
    sessions returned by [analyze_sessions] are pairwise disjoint in time
    (every earlier session ends before every later one starts, and no
    session ends before it starts), are ordered by start, have request
    counts that add up to the number of timestamps, and each session
    starts more than the gap (in milliseconds) after the end of the one
    before it. *)
Theorem analyze_sessions_disjoint_ordered (T : list Z) (G : Z) :
  Sorted Z.le T -> 0 < G ->
  Forall (fun s => start s <= end_ s) (analyze_sessions T G)
  /\ StronglySorted (fun a b => end_ a < start b) (analyze_sessions T G)
  /\ StronglySorted (fun a b => start a < start b) (analyze_sessions T G)
  /\ total_requests (analyze_sessions T G) = len T
  /\ (forall (i : nat) a b,
        analyze_sessions T G !! i = Some a ->
        analyze_sessions T G !! S i = Some b ->
        start b - end_ a > G * 60 * 1000).
Proof.
  intros Hs HG.
  assert (Hreq := analyze_sessions_total_requests T G).
  destruct T as [|ts0 rest].
  - simpl. repeat split; try constructor. intros i a b Ha. discriminate.
  - rewrite analyze_sessions_clusters in *.
    assert (Hwf : Forall (fun s => start s <= end_ s)
                    (clusters (G * 60 * 1000) (new_session ts0) rest))
      by (apply clusters_well_formed; [exact Hs | simpl; lia]).
    assert (Hadj := clusters_split_after (G * 60 * 1000) rest (new_session ts0) Hs).
    assert (Hpos : 0 <= G * 60 * 1000) by lia.
    assert (Hdis := split_after_disjoint _ _ Hpos Hadj Hwf).
    repeat split; try assumption.
    + apply StronglySorted_starts; assumption.
    + intros i a b Ha Hb.
      pose proof (Sorted_lookup_adjacent _ _ Hadj i a b Ha Hb) as H.
      unfold split_after in H. lia.
Qed.

Lemma analyze_sessions_disjoint_ordered_witness :
  analyze_sessions [1770000000000; 1770000060000; 1770003600000] 30
  = [ {| start := 1770000000000; end_ := 1770000060000; requests := 2 |};
      {| start := 1770003600000; end_ := 1770003600000; requests := 1 |} ]
  /\ StronglySorted (fun a b => end_ a < start b)
       (analyze_sessions [1770000000000; 1770000060000; 1770003600000] 30).
Proof.
  split; [reflexivity|].
  apply (analyze_sessions_disjoint_ordered
           [1770000000000; 1770000060000; 1770003600000] 30).
  - repeat constructor; lia.
  - lia.
Defined.

Lemma analyze_sessions_snoc T t G done cur :
  analyze_sessions T G = done ++ [cur] ->
  analyze_sessions (T ++ [t]) G
  = (let '(s, c) := loop_body (G * 60 * 1000) (done, cur) t in s ++ [c]).
Proof.
  destruct T as [|ts0 rest]; simpl.
  - intros H. destruct done; discriminate.
  - rewrite fold_left_app. simpl.
    destruct (fold_left _ rest _) as [s c]. intros H.
    apply app_inj_tail in H as [-> ->]. reflexivity.
Qed.

Lemma clusters_last gap_ms rest : forall cur,
  exists s, last (clusters gap_ms cur rest) = Some s
    /\ last (end_ cur :: rest) = Some (end_ s).
Proof.
  induction rest as [|ts rest IH]; intros cur.
  - exists cur. split; reflexivity.
  - simpl clusters. destruct (ts - end_ cur >? gap_ms).
    + destruct (IH (new_session ts)) as (s & Hl & He).
      exists s. split; [|exact He].
      destruct (clusters gap_ms (new_session ts) rest); [discriminate|exact Hl].
    + destruct (IH (extend_session cur ts)) as (s & Hl & He).
      exists s. split; [exact Hl | exact He].
Qed.

Lemma analyze_sessions_last_end T G done cur :
  analyze_sessions T G = done ++ [cur] -> last T = Some (end_ cur).
Proof.
  destruct T as [|ts0 rest].
  - simpl. intros H. destruct done; discriminate.
  - rewrite analyze_sessions_clusters. intros H.
    destruct (clusters_last (G * 60 * 1000) rest (new_session ts0))
      as (s & Hl & He).
    rewrite H, last_snoc in Hl. injection Hl as <-. exact He.
Qed.

(** C2: the split test is a strict comparison.  When the timestamps read
    so far have produced the finished sessions [done] and the open session
    [cur] (whose end is the last timestamp read), a next timestamp exactly
    the gap (in milliseconds) after that end is absorbed into [cur]; so is
    any nearer one; a new session is started when, and only when, the
    distance is greater than the gap. *)
Theorem split_test_is_strict (T : list Z) (t G : Z) (done : list session)
    (cur : session) :
  analyze_sessions T G = done ++ [cur] ->
  last T = Some (end_ cur)
  /\ (t - end_ cur = G * 60 * 1000 ->
      analyze_sessions (T ++ [t]) G = done ++ [extend_session cur t])
  /\ (t - end_ cur <= G * 60 * 1000 ->
      analyze_sessions (T ++ [t]) G = done ++ [extend_session cur t])
  /\ (t - end_ cur > G * 60 * 1000 <->
      analyze_sessions (T ++ [t]) G = done ++ [cur; new_session t]).
Proof.
  intros H. split; [eapply analyze_sessions_last_end; exact H|].
  rewrite (analyze_sessions_snoc T t G done cur H). simpl.
  destruct (t - end_ cur >? G * 60 * 1000) eqn:Hgap.
  - apply Z.gtb_lt in Hgap. repeat split; try lia.
    intros _. rewrite <- app_assoc. reflexivity.
  - assert (t - end_ cur <= G * 60 * 1000) by (rewrite Z.gtb_ltb in Hgap; apply Z.ltb_ge in Hgap; lia).
    repeat split; try reflexivity; try lia.
    intros Heq. apply (f_equal length) in Heq.
    rewrite !length_app in Heq. simpl in Heq. lia.
Qed.

Lemma split_test_is_strict_witness :
  analyze_sessions ([0; 1000] ++ [61000]) 1
  = [] ++ [extend_session {| start := 0; end_ := 1000; requests := 2 |} 61000].
Proof.
  exact (proj1 (proj2 (split_test_is_strict [0; 1000] 61000 1 []
                         {| start := 0; end_ := 1000; requests := 2 |}
                         eq_refl)) eq_refl).
Defined.

(** ** Members and idempotence *)

Lemma fold_loop_body_members gap_ms rest : forall sessions cur mem,
  Forall holds_members sessions -> holds_members (cur, mem) ->
  let '(sessions', (cur', mem')) :=
    fold_left (loop_body_members gap_ms) rest (sessions, (cur, mem)) in
  (map fst sessions', cur')
    = fold_left (loop_body gap_ms) rest (map fst sessions, cur)
  /\ concat (map snd sessions') ++ mem'
     = concat (map snd sessions) ++ mem ++ rest
  /\ Forall holds_members sessions' /\ holds_members (cur', mem').
Proof.
  induction rest as [|ts rest IH]; intros sessions cur mem Hall Hcur; simpl.
  - rewrite app_nil_r. auto.
  - destruct (ts - end_ cur >? gap_ms).
    + specialize (IH (sessions ++ [(cur, mem)]) (new_session ts) [ts]).
      destruct (fold_left _ rest _) as [s' [c' m']].
      rewrite !map_app, concat_app in IH. simpl in IH.
      rewrite app_nil_r, <- !app_assoc in IH. apply IH.
      * apply Forall_app. split; [exact Hall | constructor; [exact Hcur | constructor]].
      * repeat split.
    + specialize (IH sessions (extend_session cur ts) (mem ++ [ts])).
      destruct (fold_left _ rest _) as [s' [c' m']].
      rewrite <- !app_assoc in IH. apply IH; [exact Hall|].
      destruct Hcur as (Hh & Hl & Hr). unfold holds_members, len in *.
      simpl in *. rewrite last_snoc, length_app. simpl.
      repeat split; [|lia].
      destruct mem; [discriminate | exact Hh].
Qed.

(** C4: clustering is idempotent.  The instrumented loop returns the
    sessions of [analyze_sessions] together with the timestamps folded into
    each (first member the start, last member the end, as many members as
    requests); these member lists, concatenated in session order, are the
    input again, so clustering them with the same gap gives the same
    sessions. *)
Theorem clustering_idempotent (T : list Z) (G : Z) :
  map fst (analyze_sessions_members T G) = analyze_sessions T G
  /\ Forall holds_members (analyze_sessions_members T G)
  /\ concat (map snd (analyze_sessions_members T G)) = T
  /\ analyze_sessions (concat (map snd (analyze_sessions_members T G))) G
     = analyze_sessions T G.
Proof.
  assert (H : map fst (analyze_sessions_members T G) = analyze_sessions T G
              /\ Forall holds_members (analyze_sessions_members T G)
              /\ concat (map snd (analyze_sessions_members T G)) = T).
  { destruct T as [|ts0 rest]; [repeat split; constructor|].
    unfold analyze_sessions_members, analyze_sessions.
    pose proof (fold_loop_body_members (G * 60 * 1000) rest []
                  (new_session ts0) [ts0] (Forall_nil_2 _)) as H.
    destruct (fold_left (loop_body_members _) rest _) as [s' [c' m']].
    destruct H as (Hf & Hc & Hall & Hcur); [repeat split|].
    simpl in Hf. rewrite <- Hf.
    rewrite !map_app, concat_app. simpl. rewrite app_nil_r.
    repeat split; [|exact Hc].
    apply Forall_app. split; [exact Hall | constructor; [exact Hcur | constructor]]. }
  destruct H as (H1 & H2 & H3). repeat split; try assumption.
  rewrite H3. reflexivity.
Qed.

(** ** Chained and scattered inputs *)

Lemma foldr_max_raise (a b : Z) (l : list Z) :
  a <= b -> foldr Z.max b l = Z.max b (foldr Z.max a l).
Proof. intros Hab. induction l as [|y l IH]; simpl; lia. Qed.

Lemma foldr_min_head (x : Z) (l : list Z) :
  Forall (Z.le x) l -> foldr Z.min x l = x.
Proof. induction 1 as [|y l Hy _ IH]; simpl; lia. Qed.

Lemma Sorted_weaken {A} (R R' : A -> A -> Prop) (l : list A) :
  (forall a b, R a b -> R' a b) -> Sorted R l -> Sorted R' l.
Proof.
  intros HR. induction 1 as [|x l Hs IH Hhd]; constructor; [exact IH|].
  destruct Hhd; constructor. auto.
Qed.

Lemma clusters_chained gap_ms rest : forall cur,
  Sorted (chained gap_ms) (end_ cur :: rest) ->
  clusters gap_ms cur rest
  = [ {| start := start cur;
         end_ := foldr Z.max (end_ cur) rest;
         requests := requests cur + len rest |} ].
Proof.
  unfold len.
  induction rest as [|ts rest IH]; intros cur Hs; simpl.
  - destruct cur. simpl. do 2 f_equal. lia.
  - apply Sorted_inv in Hs as [Hs Hhd]. apply HdRel_inv in Hhd as [Hle Hgap].
    replace (ts - end_ cur >? gap_ms) with false
      by (symmetry; rewrite Z.gtb_ltb; apply Z.ltb_ge; lia).
    rewrite (IH (extend_session cur ts) Hs). simpl.
    rewrite (foldr_max_raise (end_ cur) ts rest Hle).
    do 2 f_equal; lia.
Qed.

Lemma clusters_scattered gap_ms rest : forall cur,
  Sorted (scattered gap_ms) (end_ cur :: rest) ->
  clusters gap_ms cur rest = cur :: map new_session rest.
Proof.
  induction rest as [|ts rest IH]; intros cur Hs; simpl; [reflexivity|].
  apply Sorted_inv in Hs as [Hs Hhd]. apply HdRel_inv in Hhd.
  unfold scattered in Hhd.
  replace (ts - end_ cur >? gap_ms) with true
    by (symmetry; apply Z.gtb_lt; lia).
  rewrite (IH (new_session ts) Hs). reflexivity.
Qed.

(** C6: when every timestamp of a non-empty non-decreasing list is within
    the gap of the one before it, [analyze_sessions] returns exactly one
    session, from the minimum to the maximum of the list, counting all of
    its timestamps; when every timestamp is more than the gap after the one
    before it, every timestamp becomes a session of its own with request
    count 1, so there are as many sessions as timestamps. *)
Theorem chained_one_session_scattered_singletons (T : list Z) (G : Z) :
  (T <> [] -> Sorted (chained (G * 60 * 1000)) T ->
   exists lo hi, list_min T = Some lo /\ list_max T = Some hi
     /\ analyze_sessions T G
        = [ {| start := lo; end_ := hi; requests := len T |} ])
  /\ (Sorted (scattered (G * 60 * 1000)) T ->
      analyze_sessions T G = map new_session T
      /\ len (analyze_sessions T G) = len T
      /\ Forall (fun s => requests s = 1) (analyze_sessions T G)).
Proof.
  split.
  - intros Hne Hs. destruct T as [|ts0 rest]; [congruence|].
    exists (foldr Z.min ts0 rest), (foldr Z.max ts0 rest).
    repeat split.
    rewrite analyze_sessions_clusters, clusters_chained by exact Hs.
    simpl. f_equal. f_equal; [|unfold len; simpl; lia].
    symmetry. apply foldr_min_head.
    assert (Hle : Sorted Z.le (ts0 :: rest))
      by (eapply Sorted_weaken; [|exact Hs]; intros a b [H _]; exact H).
    apply Sorted_StronglySorted in Hle; [|intros a b c; apply Z.le_trans].
    apply StronglySorted_inv in Hle as [_ Hle]. exact Hle.
  - intros Hs.
    assert (Heq : analyze_sessions T G = map new_session T).
    { destruct T as [|ts0 rest]; [reflexivity|].
      rewrite analyze_sessions_clusters, clusters_scattered by exact Hs.
      reflexivity. }
    rewrite Heq. repeat split.
    + unfold len. rewrite length_map. reflexivity.
    + apply Forall_map. apply Forall_forall. intros; reflexivity.
Qed.

Lemma chained_one_session_scattered_singletons_witness :
  (exists lo hi, list_min [1000; 2000; 3000] = Some lo
     /\ list_max [1000; 2000; 3000] = Some hi
     /\ analyze_sessions [1000; 2000; 3000] 99999
        = [ {| start := lo; end_ := hi; requests := len [1000; 2000; 3000] |} ])
  /\ analyze_sessions [0; 60001; 120002] 1 = map new_session [0; 60001; 120002].
Proof.
  split.
  - apply (proj1 (chained_one_session_scattered_singletons [1000; 2000; 3000] 99999)).
    + discriminate.
    + repeat constructor; lia.
  - apply (proj2 (chained_one_session_scattered_singletons [0; 60001; 120002] 1)).
    repeat constructor; unfold scattered; lia.
Defined.

(** ** Totality and count conservation *)

Lemma clusters_requests_pos gap_ms rest : forall cur,
  1 <= requests cur ->
  Forall (fun s => 1 <= requests s) (clusters gap_ms cur rest).
Proof.
  induction rest as [|ts rest IH]; intros cur Hc; simpl.
  - repeat constructor. exact Hc.
  - destruct (ts - end_ cur >? gap_ms).
    + constructor; [exact Hc|]. apply IH. simpl. lia.
    + apply IH. simpl. lia.
Qed.

(** C9: [analyze_sessions] is defined on every list of integers, sorted or
    not, and every integer gap, zero and negative ones included; its
    result is empty only for the empty list, every session counts at least
    one request, and the request counts add up to the number of
    timestamps. *)
Theorem analyze_sessions_total_count (T : list Z) (G : Z) :
  (exists sessions, analyze_sessions T G = sessions
     /\ total_requests sessions = len T
     /\ (sessions = [] <-> T = [])
     /\ Forall (fun s => 1 <= requests s) sessions).
Proof.
  eexists. split; [reflexivity|].
  split; [apply analyze_sessions_total_requests|].
  destruct T as [|ts0 rest].
  - repeat split; constructor.
  - rewrite analyze_sessions_clusters. repeat split.
    + intros H. pose proof (clusters_total_requests (G * 60 * 1000) rest
                              (new_session ts0)) as Hr.
      rewrite H in Hr. unfold len in Hr. simpl in Hr. lia.
    + discriminate.
    + apply clusters_requests_pos. simpl. lia.
Qed.

(** * Python floats and format_duration *)

(** ** Rounding to the nearest integer *)

Lemma round_half_even_range (a b : Z) :
  0 < b -> a / b <= round_half_even a b <= a / b + 1.
Proof.
  intros Hb. unfold round_half_even.
  repeat match goal with |- context [if ?c then _ else _] => destruct c end; lia.
Qed.

Lemma round_half_even_lower (a b A : Z) :
  0 < b -> A * b <= a -> A <= round_half_even a b.
Proof.
  intros Hb Ha. pose proof (round_half_even_range a b Hb).
  assert (A <= a / b) by (apply Z.div_le_lower_bound; lia). lia.
Qed.

Lemma round_half_even_upper (a b B : Z) :
  0 < b -> 2 * a < (2 * B - 1) * b -> round_half_even a b < B.
Proof.
  intros Hb Ha. unfold round_half_even.
  pose proof (Z.div_mod a b ltac:(lia)) as Hdm.
  pose proof (Z.mod_pos_bound a b Hb) as Hr.
  assert (Hq : a / b < B) by (apply Z.div_lt_upper_bound; nia).
  destruct (2 * (a mod b) <? b) eqn:H1; [lia|].
  apply Z.ltb_ge in H1.
  assert (a / b + 1 < B) by nia.
  repeat match goal with |- context [if ?c then _ else _] => destruct c end; lia.
Qed.

Lemma round_half_even_exact (k b : Z) :
  0 < b -> round_half_even (k * b) b = k.
Proof.
  intros Hb. unfold round_half_even.
  rewrite Z.div_mul, Z.mod_mul by lia.
  replace (2 * 0 <? b) with true by (symmetry; apply Z.ltb_lt; lia).
  reflexivity.
Qed.

(** ** Powers of two *)

Lemma pow2_pos e : 0 < pow2 e.
Proof. unfold pow2. apply Z.pow_pos_nonneg; lia. Qed.

Lemma pow2_nonneg e : 0 <= e -> pow2 e = 2 ^ e.
Proof. intros H. unfold pow2. rewrite Z.max_r by lia. reflexivity. Qed.

Lemma pow2_nonpos e : e <= 0 -> pow2 e = 1.
Proof. intros H. unfold pow2. rewrite Z.max_l by lia. reflexivity. Qed.

(** Moving the exponent up by [t] divides the scaled value by [2^t]. *)
Lemma pow2_shift (e t : Z) :
  0 <= t -> pow2 (- e) * pow2 (e + t) = 2 ^ t * pow2 (- (e + t)) * pow2 e.
Proof.
  intros Ht.
  destruct (Z_le_gt_dec 0 e) as [He|He].
  - rewrite (pow2_nonpos (- e)), (pow2_nonpos (- (e + t))) by lia.
    rewrite !pow2_nonneg by lia. rewrite Z.pow_add_r by lia. lia.
  - destruct (Z_le_gt_dec (e + t) 0) as [Het|Het].
    + rewrite (pow2_nonpos (e + t)), (pow2_nonpos e) by lia.
      rewrite !pow2_nonneg by lia.
      replace (2 ^ (- e)) with (2 ^ (t + - (e + t))) by (f_equal; lia).
      rewrite Z.pow_add_r by lia. lia.
    + rewrite (pow2_nonpos (- (e + t))), (pow2_nonpos e) by lia.
      rewrite !pow2_nonneg by lia.
      rewrite <- Z.pow_add_r by lia. rewrite !Z.mul_1_r. f_equal; lia.
Qed.

Lemma pow2_balance (a b e : Z) :
  0 <= a -> 0 <= b -> a - e = b -> 2 ^ a * pow2 (- e) = 2 ^ b * pow2 e.
Proof.
  intros Ha Hb Hab.
  destruct (Z_le_gt_dec 0 e) as [He|He].
  - rewrite (pow2_nonpos (- e)), pow2_nonneg by lia.
    rewrite <- Z.pow_add_r by lia. rewrite Z.mul_1_r. f_equal. lia.
  - rewrite (pow2_nonpos e), pow2_nonneg by lia.
    rewrite <- Z.pow_add_r by lia. rewrite Z.mul_1_r. f_equal. lia.
Qed.

Lemma scaled_shift (n d e t : Z) :
  0 <= t ->
  (n * pow2 (- e)) * (d * pow2 (e + t))
  = 2 ^ t * (n * pow2 (- (e + t))) * (d * pow2 e).
Proof.
  intros Ht.
  transitivity (n * d * (pow2 (- e) * pow2 (e + t))); [ring|].
  rewrite pow2_shift by exact Ht. ring.
Qed.

(** A larger exponent gives a smaller scaled value. *)
Lemma scaled_lt_mono (n d e e' c : Z) :
  0 < n -> 0 < d -> e <= e' ->
  n * pow2 (- e) < c * (d * pow2 e) ->
  n * pow2 (- e') < c * (d * pow2 e').
Proof.
  intros Hn Hd Hee H.
  pose proof (scaled_shift n d e (e' - e) ltac:(lia)) as Hs.
  replace (e + (e' - e)) with e' in Hs by lia.
  pose proof (pow2_pos e). pose proof (pow2_pos e').
  pose proof (pow2_pos (- e)). pose proof (pow2_pos (- e')).
  assert (1 <= 2 ^ (e' - e)) by (apply (Z.pow_le_mono_r 2 0); lia).
  set (N := n * pow2 (- e)) in *. set (N' := n * pow2 (- e')) in *.
  set (D := d * pow2 e) in *. set (D' := d * pow2 e') in *.
  assert (0 < N) by (unfold N; nia). assert (0 < N') by (unfold N'; nia).
  assert (0 < D) by (unfold D; nia). assert (0 < D') by (unfold D'; nia).
  assert (N * D' < c * D * D') by nia.
  assert (N' * D <= 2 ^ (e' - e) * N' * D) by nia.
  apply (Z.mul_lt_mono_pos_r D); [assumption|]. nia.
Qed.

Lemma binary64_exponent_spec (n d : Z) :
  0 < n -> 0 < d ->
  -1074 <= binary64_exponent n d
  /\ n * pow2 (- binary64_exponent n d)
     < 2 ^ 53 * (d * pow2 (binary64_exponent n d))
  /\ (binary64_exponent n d = -1074
      \/ 2 ^ 52 * (d * pow2 (binary64_exponent n d))
         <= n * pow2 (- binary64_exponent n d)).
Proof.
  intros Hn Hd. unfold binary64_exponent.
  pose proof (Z.log2_spec n Hn) as HX. pose proof (Z.log2_spec d Hd) as HY.
  pose proof (Z.log2_nonneg n) as Hln. pose proof (Z.log2_nonneg d) as Hld.
  rewrite !Z.pow_succ_r in HX, HY by assumption.
  set (e0 := Z.log2 n - Z.log2 d - 52).
  pose proof (pow2_balance (Z.log2 n) (Z.log2 d + 52) e0 Hln ltac:(lia)
                ltac:(unfold e0; lia)) as Hbal.
  rewrite Z.pow_add_r in Hbal by lia.
  set (X := 2 ^ Z.log2 n) in *. set (Y := 2 ^ Z.log2 d) in *.
  pose proof (pow2_pos e0) as HQ. pose proof (pow2_pos (- e0)) as HP.
  assert (HA : n * pow2 (- e0) < 2 ^ 53 * (d * pow2 e0)).
  { assert (n * pow2 (- e0) < 2 * X * pow2 (- e0)) by nia.
    assert (Y * pow2 e0 <= d * pow2 e0) by nia.
    change (2 ^ 53) with (2 * 2 ^ 52). nia. }
  assert (HC : 2 ^ 51 * (d * pow2 e0) < n * pow2 (- e0)).
  { assert (X * pow2 (- e0) <= n * pow2 (- e0)) by nia.
    assert (d * pow2 e0 < 2 * Y * pow2 e0) by nia.
    change (2 ^ 52) with (2 * 2 ^ 51) in Hbal. nia. }
  assert (HD0 : 0 < d * pow2 e0) by nia.
  set (e := if n * pow2 (- e0) / (d * pow2 e0) <? 2 ^ 52 then e0 - 1 else e0).
  assert (He : n * pow2 (- e) < 2 ^ 53 * (d * pow2 e)
               /\ 2 ^ 52 * (d * pow2 e) <= n * pow2 (- e)).
  { unfold e. destruct (_ <? 2 ^ 52) eqn:Hq.
    - apply Z.ltb_lt in Hq.
      pose proof (Z.mul_succ_div_gt (n * pow2 (- e0)) (d * pow2 e0) HD0) as Hlt.
      assert (Hlt' : n * pow2 (- e0) < 2 ^ 52 * (d * pow2 e0)) by nia.
      pose proof (scaled_shift n d (e0 - 1) 1 ltac:(lia)) as Hs.
      replace (e0 - 1 + 1) with e0 in Hs by lia.
      pose proof (pow2_pos (e0 - 1)). pose proof (pow2_pos (- (e0 - 1))).
      change (2 ^ 1) with 2 in Hs.
      set (N := n * pow2 (- e0)) in *. set (D := d * pow2 e0) in *.
      set (N' := n * pow2 (- (e0 - 1))) in *. set (D' := d * pow2 (e0 - 1)) in *.
      assert (0 < D') by (unfold D'; nia).
      change (2 ^ 53) with (2 * 2 ^ 52). change (2 ^ 52) with (2 * 2 ^ 51) at 2.
      split.
      + apply (Z.mul_lt_mono_pos_r D); [assumption|]. nia.
      + apply (Z.mul_le_mono_pos_r _ _ D); [assumption|]. nia.
    - apply Z.ltb_ge in Hq. split; [exact HA|].
      pose proof (Z.mul_div_le (n * pow2 (- e0)) (d * pow2 e0) HD0). nia. }
  destruct He as [He1 He2].
  destruct (Z_le_gt_dec (-1074) e) as [Hc|Hc].
  - rewrite Z.max_l by lia. repeat split; [lia | exact He1 | right; exact He2].
  - rewrite Z.max_r by lia. repeat split; [lia | | left; reflexivity].
    apply (scaled_lt_mono n d e); [lia | lia | lia | exact He1].
Qed.

Lemma binary64_exponent_upper (n d j : Z) :
  0 < n -> 0 < d -> 0 <= j <= 53 -> n < 2 ^ j * d ->
  binary64_exponent n d <= j - 53.
Proof.
  intros Hn Hd Hj Hlt.
  destruct (binary64_exponent_spec n d Hn Hd) as (Hlo & _ & [He|He]); [lia|].
  destruct (Z_le_gt_dec (binary64_exponent n d) (j - 53)) as [|Hgt]; [assumption|].
  exfalso.
  assert (Hbase : n * pow2 (- (j - 52)) < 2 ^ 52 * (d * pow2 (j - 52))).
  { destruct (Z.eq_dec j 53) as [->|Hne].
    - change (pow2 (- (53 - 52))) with 1. change (pow2 (53 - 52)) with 2.
      change (2 ^ 53) with (2 ^ 52 * 2) in Hlt. lia.
    - rewrite (pow2_nonpos (j - 52)), pow2_nonneg by lia.
      assert (H52 : 2 ^ 52 = 2 ^ j * 2 ^ (- (j - 52)))
        by (rewrite <- Z.pow_add_r by lia; f_equal; lia).
      rewrite H52.
      assert (0 < 2 ^ (- (j - 52))) by (apply Z.pow_pos_nonneg; lia).
      nia. }
  pose proof (scaled_lt_mono n d (j - 52) (binary64_exponent n d) (2 ^ 52)
                Hn Hd ltac:(lia) Hbase).
  lia.
Qed.

Lemma Qred_inject_Z (k : Z) : Qred (inject_Z k) = inject_Z k.
Proof.
  unfold Qred, inject_Z.
  pose proof (Z.ggcd_gcd k 1) as Hg.
  pose proof (Z.ggcd_correct_divisors k 1) as Hc.
  destruct (Z.ggcd k 1) as [g [aa bb]]. simpl in *.
  rewrite Z.gcd_1_r in Hg. subst g. destruct Hc as [-> Hb].
  replace bb with 1 by lia. replace (1 * aa) with aa by lia. reflexivity.
Qed.

Lemma dyadic_eq (m e : Z) :
  (dyadic m e * inject_Z (pow2 (- e)) == inject_Z (m * pow2 e))%Q.
Proof.
  unfold dyadic, Qeq, Qmult, inject_Z. simpl.
  rewrite Pos.mul_1_r, Z2Pos.id by apply pow2_pos. ring.
Qed.

(** A whole number below [2^53] is a binary64 value. *)
Lemma round_binary64_int (x : Q) (k : Z) :
  (x == inject_Z k)%Q -> 0 <= k < 2 ^ 53 ->
  round_binary64 x = Some (inject_Z k).
Proof.
  intros Hx Hk. unfold round_binary64. cbv zeta.
  rewrite (Qred_complete _ _ Hx), Qred_inject_Z. simpl Qnum. simpl Qden.
  rewrite Z.abs_eq by lia.
  destruct (k =? 0) eqn:Hk0.
  - apply Z.eqb_eq in Hk0. subst k. reflexivity.
  - apply Z.eqb_neq in Hk0.
    assert (Hkpos : 0 < k) by lia.
    pose proof (binary64_exponent_upper k 1 53 Hkpos ltac:(lia) ltac:(lia)
                  ltac:(lia)) as Hup.
    destruct (binary64_exponent_spec k 1 Hkpos ltac:(lia)) as (_ & H1 & _).
    set (e := binary64_exponent k 1) in *.
    rewrite (pow2_nonpos e) in * by lia.
    change (1 * 1) with 1 in *.
    pose proof (round_half_even_exact (k * pow2 (- e)) 1 ltac:(lia)) as Hr.
    rewrite Z.mul_1_r in Hr. rewrite Hr.
    replace (2 ^ 1024 <=? k * pow2 (- e) * 1) with false.
    2:{ symmetry. apply Z.leb_gt.
        assert (2 ^ 53 < 2 ^ 1024) by (apply Z.pow_lt_mono_r; lia). lia. }
    f_equal. rewrite <- (Qred_inject_Z k). apply Qred_complete.
    replace (Z.sgn k) with 1 by lia.
    unfold dyadic, Qeq, inject_Z. simpl.
    rewrite (pow2_nonpos e) by lia.
    rewrite Z2Pos.id by apply pow2_pos. ring.
Qed.

(** Below [2^44] seconds the grid of binary64 is finer than half a
    millisecond on each side: the rounded quotient stays within the whole
    second of the exact one. *)
Lemma int_true_div_1000 (ms : Z) :
  0 <= ms < 2 ^ 44 * 1000 ->
  exists seconds, int_true_div ms 1000 = Ok seconds
    /\ (inject_Z (ms / 1000) <= seconds)%Q
    /\ (seconds < inject_Z (ms / 1000 + 1))%Q.
Proof.
  intros Hms. unfold int_true_div, fl, round_binary64. cbv zeta.
  pose proof (Qred_correct (inject_Z ms / inject_Z 1000)) as Hred.
  destruct (Qred (inject_Z ms / inject_Z 1000)) as [n d].
  unfold Qeq, Qdiv, Qmult, Qinv, inject_Z in Hred. simpl in Hred.
  simpl Qnum. simpl Qden.
  assert (Hn : 0 <= n) by nia.
  rewrite Z.abs_eq by exact Hn.
  pose proof (Z.div_mod ms 1000 ltac:(lia)) as Hdm.
  pose proof (Z.mod_pos_bound ms 1000 ltac:(lia)) as Hr.
  set (k := ms / 1000) in *.
  destruct (n =? 0) eqn:Hn0.
  - apply Z.eqb_eq in Hn0. subst n.
    exists 0%Q. split; [reflexivity|].
    unfold Qle, Qlt, inject_Z. simpl. lia.
  - apply Z.eqb_neq in Hn0.
    assert (Hnpos : 0 < n) by lia.
    assert (Hd : 0 < Z.pos d) by lia.
    assert (Hlt : n < 2 ^ 44 * Z.pos d) by nia.
    pose proof (binary64_exponent_upper n (Z.pos d) 44 Hnpos Hd ltac:(lia) Hlt)
      as Hup.
    destruct (binary64_exponent_spec n (Z.pos d) Hnpos Hd) as (_ & H1 & _).
    set (e := binary64_exponent n (Z.pos d)) in *.
    rewrite (pow2_nonpos e) in * by lia.
    rewrite !Z.mul_1_r. rewrite Z.mul_1_r in H1.
    assert (HP : 2 ^ 9 <= pow2 (- e)).
    { rewrite pow2_nonneg by lia. apply Z.pow_le_mono_r; lia. }
    set (P := pow2 (- e)) in *.
    pose proof (round_half_even_range (n * P) (Z.pos d) Hd) as Hrange.
    assert (Hkd : k * Z.pos d <= n) by nia.
    assert (Hkd' : 1000 * n <= (1000 * k + 999) * Z.pos d) by nia.
    assert (Hlow : k * P <= round_half_even (n * P) (Z.pos d)).
    { apply round_half_even_lower; [exact Hd|].
      replace (k * P * Z.pos d) with (k * Z.pos d * P) by ring.
      apply Z.mul_le_mono_nonneg_r; lia. }
    assert (Hupp : round_half_even (n * P) (Z.pos d) < (k + 1) * P).
    { apply round_half_even_upper; [exact Hd|].
      assert (HnP : 1000 * n * P <= (1000 * k + 999) * Z.pos d * P)
        by (apply Z.mul_le_mono_nonneg_r; lia).
      assert (HPd : 512 * Z.pos d <= P * Z.pos d)
        by (apply Z.mul_le_mono_nonneg_r; lia).
      replace ((1000 * k + 999) * Z.pos d * P)
        with (1000 * (k * (P * Z.pos d)) + 999 * (P * Z.pos d)) in HnP by ring.
      replace ((2 * ((k + 1) * P) - 1) * Z.pos d)
        with (2 * (k * (P * Z.pos d)) + 2 * (P * Z.pos d) - Z.pos d) by ring.
      replace (1000 * n * P) with (1000 * (n * P)) in HnP by ring.
      lia. }
    assert (Hq : n * P / Z.pos d < 2 ^ 53)
      by (apply Z.div_lt_upper_bound; lia).
    set (m := round_half_even (n * P) (Z.pos d)) in *.
    replace (2 ^ 1024 <=? m) with false.
    2:{ symmetry. apply Z.leb_gt.
        assert (2 ^ 54 < 2 ^ 1024) by (apply Z.pow_lt_mono_r; lia). lia. }
    eexists. split; [reflexivity|].
    replace (Z.sgn n) with 1 by lia. rewrite Z.mul_1_l.
    assert (Hdy : (dyadic m e == Qmake m (Z.to_pos P))%Q).
    { unfold dyadic. fold P. rewrite (pow2_nonpos e) by lia.
      rewrite Z.mul_1_r. reflexivity. }
    rewrite (Qred_correct (dyadic m e)), Hdy.
    unfold Qle, Qlt, inject_Z. simpl.
    rewrite Z2Pos.id by (unfold P; apply pow2_pos). lia.
Qed.

(** The rounding model and the kernel's binary64 division agree where
    both operands are floats. *)
Example round_binary64_agrees_with_kernel :
  Forall (fun '(a, b) => round_binary64 (a # b) = kernel_div a (Z.pos b))
    [(1, 1000%positive); (999, 1000%positive); (59999, 1000%positive);
     (3661000, 1000%positive); (1770003600000, 1000%positive);
     (9007199254740991, 1000%positive); (600000, 3600000%positive);
     (7, 3%positive); (1, 3%positive); (2 ^ 52 + 1, 7%positive)].
Proof. repeat constructor. Qed.

(** ** Floors, truncation and [fmod] on rationals *)

Lemma Qfloor_unique (x : Q) (k : Z) :
  (inject_Z k <= x)%Q -> (x < inject_Z (k + 1))%Q -> Qfloor x = k.
Proof.
  intros Hlo Hhi.
  pose proof (Qfloor_resp_le _ _ Hlo) as H1. rewrite Qfloor_Z in H1.
  pose proof (Qle_lt_trans _ _ _ (Qfloor_le x) Hhi) as H2.
  rewrite <- Zlt_Qlt in H2. lia.
Qed.

Lemma Qnum_nonneg (x : Q) : (0 <= x)%Q -> 0 <= Qnum x.
Proof. unfold Qle. simpl. lia. Qed.

Lemma Qtrunc_Qfloor (x : Q) : 0 <= Qnum x -> Qtrunc x = Qfloor x.
Proof.
  intros H. unfold Qtrunc, Qfloor. destruct x as [n d]. simpl in *.
  apply Z.quot_div_nonneg; lia.
Qed.

Lemma Qtrunc_inject_Z (z : Z) : Qtrunc (inject_Z z) = z.
Proof. unfold Qtrunc. simpl. apply Z.quot_1_r. Qed.

Lemma Qfloor_div_pos (x : Q) (w : positive) :
  Qfloor (x / (Z.pos w # 1)) = Qfloor x / Z.pos w.
Proof.
  destruct x as [n d]. unfold Qfloor, Qdiv, Qmult, Qinv. simpl.
  rewrite Z.mul_1_r, Pos2Z.inj_mul, Z.div_div by lia. reflexivity.
Qed.

Lemma Qnum_div_pos (x : Q) (w : positive) :
  0 <= Qnum x -> 0 <= Qnum (x / (Z.pos w # 1)).
Proof. destruct x as [n d]. unfold Qdiv, Qmult, Qinv. simpl. lia. Qed.

(** [fmod] of a non-negative float by a positive whole number. *)
Lemma fmod_nonneg (x : Q) (w : positive) :
  0 <= Qnum x ->
  fmod x (Z.pos w # 1)
  = (x - (Z.pos w # 1) * inject_Z (Qfloor x / Z.pos w))%Q.
Proof.
  intros Hx. unfold fmod.
  rewrite Qtrunc_Qfloor by (apply Qnum_div_pos; exact Hx).
  rewrite Qfloor_div_pos. reflexivity.
Qed.

Lemma fmod_nonneg_floor (x : Q) (w : positive) :
  0 <= Qnum x ->
  0 <= Qnum (fmod x (Z.pos w # 1))
  /\ Qfloor (fmod x (Z.pos w # 1)) = Qfloor x mod Z.pos w
  /\ (x - fmod x (Z.pos w # 1)
      == inject_Z (Z.pos w * (Qfloor x / Z.pos w)))%Q.
Proof.
  intros Hx. rewrite fmod_nonneg by exact Hx.
  split; [|split].
  - destruct x as [n d]. unfold Qfloor. simpl in *.
    pose proof (Z.mul_div_le n (Z.pos d) ltac:(lia)) as H1.
    pose proof (Z.mul_div_le (n / Z.pos d) (Z.pos w) ltac:(lia)) as H2.
    set (h := n / Z.pos d / Z.pos w) in *.
    rewrite !Z.mul_1_r.
    assert (Z.pos w * h * Z.pos d <= n) by nia. lia.
  - destruct x as [n d]. unfold Qfloor, Qminus, Qplus, Qopp, Qmult, inject_Z.
    simpl. set (h := n / Z.pos d / Z.pos w).
    rewrite !Z.mul_1_r, Pos.mul_1_r.
    replace (n + - (Z.pos w * h) * Z.pos d)
      with (n + (- (Z.pos w * h)) * Z.pos d) by ring.
    rewrite Z.div_add by lia. unfold h. rewrite Z.mod_eq by lia. lia.
  - unfold inject_Z. destruct x as [n d].
    unfold Qeq, Qminus, Qplus, Qopp, Qmult, Qfloor. simpl.
    rewrite !Pos.mul_1_r, !Pos2Z.inj_mul. ring.
Qed.

(** ** Float operations below [2^53] *)

Lemma result_bind_Ok {A B} (a : A) (f : A -> result B) : (Ok a ≫= f) = f a.
Proof. reflexivity. Qed.

Lemma fl_int (x : Q) (k : Z) :
  (x == inject_Z k)%Q -> 0 <= k < 2 ^ 53 -> fl x = Ok (inject_Z k).
Proof. intros Hx Hk. unfold fl. rewrite (round_binary64_int x k Hx Hk). reflexivity. Qed.

(** On a non-negative float below [2^53], [%] by a positive whole number is
    exact. *)
Lemma float_mod_small (x : Q) (w : positive) :
  0 <= Qnum x ->
  exists r, float_mod x (Z.pos w # 1) = Ok r
    /\ 0 <= Qnum r /\ Qfloor r = Qfloor x mod Z.pos w.
Proof.
  intros Hx. unfold float_mod.
  destruct (fmod_nonneg_floor x w Hx) as (Hn & Hf & _).
  destruct (Qis_zero (fmod x (Z.pos w # 1))) eqn:Hz.
  - exists 0%Q. repeat split; [simpl; lia|].
    rewrite <- Hf. unfold Qis_zero in Hz. apply Z.eqb_eq in Hz.
    destruct (fmod x (Z.pos w # 1)) as [a b]. simpl in *. subst a. reflexivity.
  - replace (Qis_neg (fmod x (Z.pos w # 1))) with false
      by (symmetry; apply Z.ltb_ge; exact Hn).
    simpl. eexists. repeat split; assumption.
Qed.

(** On a non-negative float below [2^53], [//] by a positive whole number
    is the floor of the quotient. *)
Lemma float_floordiv_small (x : Q) (w : positive) :
  0 <= Qnum x -> Qfloor x < 2 ^ 53 ->
  float_floordiv x (Z.pos w # 1) = Ok (inject_Z (Qfloor x / Z.pos w)).
Proof.
  intros Hx Hlt. unfold float_floordiv.
  destruct (fmod_nonneg_floor x w Hx) as (Hn & _ & Ht).
  assert (Hfx : 0 <= Qfloor x).
  { destruct x as [n d]. unfold Qfloor. simpl in *. apply Z.div_pos; lia. }
  pose proof (Z.mul_div_le (Qfloor x) (Z.pos w) ltac:(lia)) as Hmul.
  assert (Hh : 0 <= Qfloor x / Z.pos w) by (apply Z.div_pos; lia).
  set (h := Qfloor x / Z.pos w) in *.
  assert (Hh53 : h < 2 ^ 53) by nia.
  rewrite (fl_int _ _ Ht) by nia. rewrite result_bind_Ok.
  assert (Hdiv : (inject_Z (Z.pos w * h) / (Z.pos w # 1) == inject_Z h)%Q).
  { unfold Qeq, Qdiv, Qmult, Qinv, inject_Z. simpl. rewrite Pos.mul_1_l. ring. }
  rewrite (fl_int _ _ Hdiv) by lia. rewrite result_bind_Ok.
  replace (Qis_neg (fmod x (Z.pos w # 1))) with false
    by (symmetry; apply Z.ltb_ge; exact Hn).
  rewrite andb_false_r, result_bind_Ok.
  unfold Qis_zero. simpl Qnum.
  destruct (h =? 0) eqn:Hh0.
  - apply Z.eqb_eq in Hh0. rewrite Hh0. reflexivity.
  - rewrite Qfloor_Z.
    assert (Hfrac : (inject_Z h - inject_Z h == inject_Z 0)%Q)
      by (unfold Qeq, Qminus, Qplus, Qopp, inject_Z; simpl; ring).
    rewrite (fl_int _ _ Hfrac) by lia. rewrite result_bind_Ok. reflexivity.
Qed.

(** ** format_duration *)

Lemma whole_seconds_split (ms : Z) :
  ms / 1000 / 3600 = ms / 3600000
  /\ (ms / 1000) mod 3600 / 60 = ms mod 3600000 / 60000
  /\ (ms / 1000) mod 60 = ms mod 60000 / 1000.
Proof. repeat split; Z.to_euclidean_division_equations; lia. Qed.

Lemma format_duration_small (ms : Z) :
  0 <= ms < 2 ^ 44 * 1000 ->
  format_duration ms = Ok (format_truncated ms).
Proof.
  intros Hms. unfold format_duration.
  replace (ms <? 0) with false by (symmetry; apply Z.ltb_ge; lia).
  destruct (int_true_div_1000 ms Hms) as (s & -> & Hlo & Hhi).
  rewrite result_bind_Ok.
  pose proof (Qfloor_unique s _ Hlo Hhi) as Hfl.
  assert (Hk : 0 <= ms / 1000 < 2 ^ 44).
  { split; [apply Z.div_pos; lia|]. apply Z.div_lt_upper_bound; lia. }
  assert (Hs : 0 <= Qnum s).
  { apply Qnum_nonneg. eapply Qle_trans; [|exact Hlo].
    change 0%Q with (inject_Z 0). rewrite <- Zle_Qle. lia. }
  change 3600%Q with (Z.pos 3600 # 1). change 60%Q with (Z.pos 60 # 1).
  rewrite float_floordiv_small by (rewrite ?Hfl; lia).
  rewrite result_bind_Ok.
  destruct (float_mod_small s 3600 Hs) as (r & -> & Hr & Hrf).
  rewrite result_bind_Ok.
  pose proof (Z.mod_pos_bound (Qfloor s) 3600 ltac:(lia)) as Hrb.
  rewrite float_floordiv_small by (rewrite ?Hrf; lia).
  rewrite result_bind_Ok.
  destruct (float_mod_small s 60 Hs) as (r' & -> & Hr' & Hrf').
  rewrite result_bind_Ok.
  rewrite !Qtrunc_inject_Z, (Qtrunc_Qfloor r') by exact Hr'.
  rewrite Hrf, Hrf', Hfl.
  destruct (whole_seconds_split ms) as (-> & -> & ->).
  unfold format_truncated.
  repeat match goal with |- context [if ?c then _ else _] => destruct c end;
    reflexivity.
Qed.

(** C8, as amended: [format_duration] maps every negative input to "0s",
    and every duration from 0 up to (not including) 2^44 seconds, that is
    17,592,186,044,416,000 ms, to one of three forms with every component
    truncated: hours and minutes from one hour up (minutes shown even when
    zero), minutes and seconds from one minute up to one hour, seconds
    alone below one minute; 3,661,000 ms gives "1h 1m", 61,000 ms gives
    "1m 1s", 5,000 ms gives "5s" and -100 ms gives "0s". *)
Theorem format_duration_forms (ms : Z) :
  (ms < 0 -> format_duration ms = Ok "0s"%string)
  /\ (0 <= ms < 2 ^ 44 * 1000 ->
      (3600000 <= ms ->
       format_duration ms
       = Ok (str (ms / 3600000) +:+ "h "
             +:+ str (ms mod 3600000 / 60000) +:+ "m"))
      /\ (60000 <= ms < 3600000 ->
          format_duration ms
          = Ok (str (ms / 60000) +:+ "m "
                +:+ str (ms mod 60000 / 1000) +:+ "s"))
      /\ (ms < 60000 -> format_duration ms = Ok (str (ms / 1000) +:+ "s")))
  /\ format_duration 3661000 = Ok "1h 1m"%string
  /\ format_duration 61000 = Ok "1m 1s"%string
  /\ format_duration 5000 = Ok "5s"%string
  /\ format_duration (-100) = Ok "0s"%string.
Proof.
  split; [|split; [|repeat split; vm_compute; reflexivity]].
  - intros Hneg. unfold format_duration.
    replace (ms <? 0) with true by (symmetry; apply Z.ltb_lt; exact Hneg).
    reflexivity.
  - intros Hms. rewrite (format_duration_small ms Hms).
    unfold format_truncated. repeat split.
    + intros Hh.
      replace (ms / 3600000 >? 0) with true; [reflexivity|].
      symmetry. apply Z.gtb_lt. apply Z.div_str_pos. lia.
    + intros Hm.
      replace (ms / 3600000 >? 0) with false
        by (symmetry; rewrite Z.div_small by lia; reflexivity).
      rewrite (Z.mod_small ms 3600000) by lia.
      replace (ms / 60000 >? 0) with true; [reflexivity|].
      symmetry. apply Z.gtb_lt. apply Z.div_str_pos. lia.
    + intros Hs.
      replace (ms / 3600000 >? 0) with false
        by (symmetry; rewrite Z.div_small by lia; reflexivity).
      rewrite (Z.mod_small ms 3600000), (Z.mod_small ms 60000) by lia.
      replace (ms / 60000 >? 0) with false
        by (symmetry; rewrite Z.div_small by lia; reflexivity).
      reflexivity.
Qed.

Lemma format_duration_forms_witness :
  format_duration 7325999
  = Ok (str (7325999 / 3600000) +:+ "h "
        +:+ str (7325999 mod 3600000 / 60000) +:+ "m").
Proof.
  apply (proj1 (proj2 (format_duration_forms 7325999))).
  - split; [lia | reflexivity].
  - lia.
Defined.

(** C8 as stated fails on large durations: the quotient [ms / 1000] is a
    float.  At 17,592,186,044,459,999 ms it is rounded up to the next whole
    second, which shows one minute more than truncation gives; at 10^400
    ms it is not a float at all. *)
Lemma format_duration_rounds_large :
  0 <= 17592186044459999
  /\ format_duration 17592186044459999 = Ok "4886718345h 41m"%string
  /\ format_truncated 17592186044459999 = "4886718345h 40m"%string
  /\ format_duration (10 ^ 400) = Raise OverflowError.
Proof. repeat split; vm_compute; try reflexivity. discriminate. Qed.

(** * The report *)

(** ** Sums over the day buckets *)

Lemma sum_days_empty (f : Day.t -> Z) : sum_days f ∅ = 0.
Proof. apply map_fold_empty. Qed.

Lemma sum_days_insert_fresh (f : Day.t -> Z) (k : string) (v : Day.t)
    (m : gmap string Day.t) :
  m !! k = None -> sum_days f (<[k:=v]> m) = f v + sum_days f m.
Proof.
  intros Hk. unfold sum_days.
  rewrite map_fold_insert_L; [reflexivity | intros; lia | exact Hk].
Qed.

Lemma sum_days_insert (f : Day.t -> Z) (k : string) (v : Day.t)
    (m : gmap string Day.t) :
  f Day.fresh = 0 ->
  sum_days f (<[k:=v]> m) = sum_days f m - f (getitem m k) + f v.
Proof.
  intros Hf. unfold getitem. destruct (m !! k) as [old|] eqn:Hk; simpl.
  - rewrite <- (insert_delete_eq m).
    rewrite sum_days_insert_fresh by apply lookup_delete_eq.
    rewrite <- (insert_delete_id m k old Hk) at 2.
    rewrite sum_days_insert_fresh by apply lookup_delete_eq. lia.
  - rewrite sum_days_insert_fresh by exact Hk. lia.
Qed.

Lemma getitem_insert (m : gmap string Day.t) (k k' : string) (v : Day.t) :
  getitem (<[k:=v]> m) k' = if decide (k = k') then v else getitem m k'.
Proof.
  unfold getitem. rewrite lookup_insert. destruct (decide (k = k')); reflexivity.
Qed.

Lemma getitem_add_session key duration reqs m k' :
  getitem (add_session key duration reqs m) k'
  = if decide (key = k')
    then {| Day.time := Day.time (getitem m key) + duration;
            Day.sessions := Day.sessions (getitem m key) + 1;
            Day.requests := Day.requests (getitem m key) + reqs |}
    else getitem m k'.
Proof.
  unfold add_session, add_requests, add_sessions, add_time.
  rewrite !getitem_insert.
  destruct (decide (key = k')) as [->|Hne].
  - rewrite !decide_True by reflexivity. reflexivity.
  - reflexivity.
Qed.

Lemma sum_days_add_session key duration reqs m :
  sum_days Day.time (add_session key duration reqs m)
  = sum_days Day.time m + duration
  /\ sum_days Day.sessions (add_session key duration reqs m)
     = sum_days Day.sessions m + 1
  /\ sum_days Day.requests (add_session key duration reqs m)
     = sum_days Day.requests m + reqs.
Proof.
  unfold add_session, add_requests, add_sessions, add_time.
  repeat split; rewrite !sum_days_insert by reflexivity;
    rewrite !getitem_insert, !decide_True by reflexivity; simpl; lia.
Qed.

(** ** Runs *)

Lemma io_bind_Ok {A B} (out : list string) (a : A) (f : A -> io B) :
  ((out, Ok a) ≫= f) = (out ++ (f a).1, (f a).2).
Proof. unfold mbind, io_bind. destruct (f a). reflexivity. Qed.

Lemma io_bind_inv {A B} (m : io A) (f : A -> io B) out b :
  (m ≫= f) = (out, Ok b) ->
  exists out1 a out2,
    m = (out1, Ok a) /\ f a = (out2, Ok b) /\ out = out1 ++ out2.
Proof.
  destruct m as [out1 [a|e]]; unfold mbind, io_bind.
  - destruct (f a) as [out2 r] eqn:Hf. intros [= <- ->].
    exists out1, a, out2. auto.
  - intros [= _ H].
Qed.

Lemma print_inv (line : string) out (u : unit) :
  print line = (out, Ok u) -> out = [line].
Proof. intros [= <-]. reflexivity. Qed.

Lemma lift_inv {A} (r : result A) out (a : A) :
  lift r = (out, Ok a) -> r = Ok a /\ out = [].
Proof. intros [= <- ->]. auto. Qed.

Lemma mret_inv {A} (a a' : A) out :
  (mret a : io A) = (out, Ok a') -> a = a' /\ out = [].
Proof. intros [= <- ->]. auto. Qed.

(** A loop that leaves an invariant standing at every completed iteration
    leaves it standing when it completes. *)
Lemma for_each_invariant {A S : Type} (body : A -> S -> io S)
    (I : list A -> S -> Prop) :
  (forall done x st out st',
     I done st -> body x st = (out, Ok st') -> I (done ++ [x]) st') ->
  forall l done st out st',
    I done st -> for_each body l st = (out, Ok st') -> I (done ++ l) st'.
Proof.
  intros Hstep. induction l as [|x l IH]; intros done st out st' HI Hrun.
  - apply mret_inv in Hrun as [<- _]. rewrite app_nil_r. exact HI.
  - simpl in Hrun. apply io_bind_inv in Hrun as (o1 & st1 & o2 & Hb & Hl & _).
    replace (done ++ x :: l) with ((done ++ [x]) ++ l)
      by (rewrite <- app_assoc; reflexivity).
    eapply IH; [|exact Hl]. eapply Hstep; eassumption.
Qed.

Lemma for_each_total {A S : Type} (body : A -> S -> io S) (l : list A) :
  Forall (fun x => forall st, exists out st', body x st = (out, Ok st')) l ->
  forall st, exists out st', for_each body l st = (out, Ok st').
Proof.
  induction 1 as [|x l Hx _ IH]; intros st; simpl.
  - eexists _, _. reflexivity.
  - destruct (Hx st) as (o1 & st1 & ->).
    destruct (IH st1) as (o2 & st2 & Hl).
    rewrite io_bind_Ok, Hl. eexists _, _. reflexivity.
Qed.

Lemma enumerate_snd {A} (l : list A) : forall i, map snd (enumerate l i) = l.
Proof. induction l as [|x l IH]; intros i; simpl; [|rewrite IH]; reflexivity. Qed.

Lemma total_effective_app l1 l2 :
  total_effective (l1 ++ l2) = total_effective l1 + total_effective l2.
Proof. unfold total_effective. induction l1; simpl; lia. Qed.

Lemma total_requests_app l1 l2 :
  total_requests (l1 ++ l2) = total_requests l1 + total_requests l2.
Proof. unfold total_requests. induction l1; simpl; lia. Qed.

Lemma effective_duration_max (s : session) :
  effective_duration s = Z.max (end_ s - start s) 300000.
Proof.
  unfold effective_duration. simpl.
  destruct (end_ s - start s <? 300000) eqn:H.
  - apply Z.ltb_lt in H. lia.
  - apply Z.ltb_ge in H. lia.
Qed.

(** Peel the first step off a completed run. *)
Ltac io_step H :=
  let Hm := fresh "Hm" in
  apply io_bind_inv in H as (? & ? & ? & Hm & H & ?);
  first [ apply print_inv in Hm
        | apply lift_inv in Hm as [Hm ?]
        | idtac ].

Section ReportFacts.

Variable datetime : Type.
Variable fromtimestamp : Q -> option datetime.
Variable strftime : datetime -> string -> string.
Variable extract_timestamps : string -> io (list Z).

(** What a completed iteration of the session loop did. *)
Lemma session_body_inv n i s total daily out st' :
  session_body fromtimestamp strftime n (i, s) (total, daily) = (out, Ok st') ->
  exists start_dt end_dt,
    ms_to_datetime fromtimestamp (start s) = Ok start_dt
    /\ ms_to_datetime fromtimestamp (end_ s) = Ok end_dt
    /\ session_day fromtimestamp strftime s = Some (strftime start_dt "%Y-%m-%d")
    /\ st' = (total + effective_duration s,
              add_session (strftime start_dt "%Y-%m-%d")
                (effective_duration s) (requests s) daily)
    /\ (i <= 30 ->
        exists text, format_duration (effective_duration s) = Ok text
          /\ out = [session_line strftime i start_dt end_dt text (requests s)]).
Proof.
  unfold session_body. intros H.
  apply io_bind_inv in H as (o1 & start_dt & o2 & Hs & H & ->).
  apply lift_inv in Hs as [Hs ->].
  apply io_bind_inv in H as (o1 & end_dt & o3 & He & H & ->).
  apply lift_inv in He as [He ->].
  apply io_bind_inv in H as (o1 & u & o4 & Hp & H & ->).
  apply mret_inv in H as [<- ->].
  exists start_dt, end_dt. repeat split; try assumption.
  - unfold session_day. rewrite Hs. reflexivity.
  - intros Hi.
    replace (i <=? 30) with true in Hp by (symmetry; apply Z.leb_le; exact Hi).
    apply io_bind_inv in Hp as (o5 & text & o6 & Hf & Hp & ->).
    apply lift_inv in Hf as [Hf ->]. apply print_inv in Hp as ->.
    exists text. split; [exact Hf | reflexivity].
Qed.

Lemma session_body_total n i s st :
  displayable fromtimestamp s -> exists out st', session_body fromtimestamp strftime n (i, s) st = (out, Ok st').
Proof.
  intros ((sd & Hs) & (ed & He) & Hlt). destruct st as [total daily].
  unfold session_body. rewrite Hs, He.
  assert (Hf : format_duration (effective_duration s)
               = Ok (format_truncated (effective_duration s))).
  { apply format_duration_small. rewrite effective_duration_max in *. lia. }
  rewrite Hf. unfold lift, print.
  destruct (i <=? 30); [|destruct (i =? 31)];
    eexists _, _; reflexivity.
Qed.

Lemma loop_invariant_step n done i s st out st' :
  loop_invariant fromtimestamp strftime done st ->
  session_body fromtimestamp strftime n (i, s) st = (out, Ok st') ->
  loop_invariant fromtimestamp strftime (done ++ [(i, s)]) st'.
Proof.
  destruct st as [total daily].
  intros (Ht & Hst & Hss & Hsr & Hday) Hrun.
  apply session_body_inv in Hrun as (sd & ed & Hs & He & Hk & -> & _).
  simpl in *. unfold loop_invariant. simpl.
  destruct (sum_days_add_session (strftime sd "%Y-%m-%d")
              (effective_duration s) (requests s) daily) as (H1 & H2 & H3).
  rewrite map_app, total_effective_app, total_requests_app. simpl.
  unfold len in *. rewrite length_app. simpl.
  repeat split; try lia.
  intros day. rewrite getitem_add_session.
  unfold day_sessions. rewrite filter_app, filter_cons, filter_nil.
  rewrite total_effective_app, total_requests_app, length_app.
  fold (day_sessions fromtimestamp strftime day (map snd done)).
  destruct (decide (strftime sd "%Y-%m-%d" = day)) as [<-|Hne].
  - rewrite decide_True by exact Hk.
    rewrite Hday. simpl. f_equal; lia.
  - rewrite decide_False by (rewrite Hk; congruence).
    rewrite Hday. simpl. f_equal; lia.
Qed.

Lemma session_loop_invariant sessions out st :
  session_loop fromtimestamp strftime sessions = (out, Ok st) ->
  st.1 = total_effective sessions
  /\ sum_days Day.time st.2 = st.1
  /\ sum_days Day.sessions st.2 = len sessions
  /\ sum_days Day.requests st.2 = total_requests sessions
  /\ forall day,
       Day.time (getitem st.2 day)
       = total_effective (day_sessions fromtimestamp strftime day sessions)
       /\ Day.sessions (getitem st.2 day)
          = len (day_sessions fromtimestamp strftime day sessions).
Proof.
  unfold session_loop. intros Hrun.
  pose proof (for_each_invariant _ (loop_invariant fromtimestamp strftime)
                (fun done x st0 out0 st0' =>
                   match x with (i, s) =>
                     loop_invariant_step (len sessions) done i s st0 out0 st0'
                   end)
                (enumerate sessions 1) [] (0, ∅) out st) as H.
  rewrite app_nil_l in H. unfold loop_invariant at 2 in H.
  rewrite !enumerate_snd in H.
  destruct H as (H1 & H2 & H3 & H4 & H5); [|exact Hrun|].
  - unfold loop_invariant. simpl. rewrite !sum_days_empty.
    repeat split.
  - repeat split; try assumption; rewrite H5; reflexivity.
Qed.

Lemma session_loop_total sessions :
  Forall (displayable fromtimestamp) sessions ->
  exists out st, session_loop fromtimestamp strftime sessions = (out, Ok st).
Proof.
  intros Hall. unfold session_loop. apply for_each_total.
  generalize 1 at 1. generalize (len sessions).
  induction Hall as [|s l Hs _ IH]; intros n i; simpl; constructor.
  - intros st. apply session_body_total. exact Hs.
  - apply IH.
Qed.

(** C3: the duration of a session that enters the report is
    [max(end - start, 300000)] ms, never less than 300,000 ms, and exactly
    300,000 ms for a session of a single timestamp.  It is the value an
    iteration of the session loop adds to [total_work_time] and to the
    time of the session's day, and the one the printed row formats; the
    total of a completed loop is the sum of these values. *)
Theorem effective_duration_floor (s : session) :
  effective_duration s = Z.max (end_ s - start s) 300000
  /\ 300000 <= effective_duration s
  /\ (forall ts, effective_duration (new_session ts) = 300000)
  /\ (forall n i total daily out total' daily',
        session_body fromtimestamp strftime n (i, s) (total, daily)
        = (out, Ok (total', daily')) ->
        total' = total + Z.max (end_ s - start s) 300000
        /\ (exists day,
              session_day fromtimestamp strftime s = Some day
              /\ Day.time (getitem daily' day)
                 = Day.time (getitem daily day)
                   + Z.max (end_ s - start s) 300000)
        /\ (i <= 30 ->
            exists start_dt end_dt text,
              format_duration (Z.max (end_ s - start s) 300000) = Ok text
              /\ out = [session_line strftime i start_dt end_dt text
                          (requests s)]))
  /\ (forall sessions out total daily,
        session_loop fromtimestamp strftime sessions = (out, Ok (total, daily)) ->
        total
        = foldr (fun s acc => Z.max (end_ s - start s) 300000 + acc) 0 sessions).
Proof.
  pose proof (effective_duration_max s) as Hmax.
  split; [exact Hmax|]. split; [lia|]. split.
  { intros ts. rewrite effective_duration_max. simpl. lia. }
  split.
  - intros n i total daily out total' daily' Hrun.
    apply session_body_inv in Hrun as (sd & ed & Hs & He & Hk & [= -> ->] & Hrow).
    rewrite <- Hmax. repeat split.
    + exists (strftime sd "%Y-%m-%d"). split; [exact Hk|].
      rewrite getitem_add_session, decide_True by reflexivity. reflexivity.
    + intros Hi. destruct (Hrow Hi) as (text & Hf & ->).
      exists sd, ed, text. split; [exact Hf | reflexivity].
  - intros sessions out total daily Hrun.
    apply session_loop_invariant in Hrun as (Ht & _). simpl in Ht.
    subst total. unfold total_effective. clear.
    induction sessions as [|x l IH]; simpl; [reflexivity|].
    rewrite IH, effective_duration_max. reflexivity.
Qed.

(** C5: daily aggregation preserves sums.  The session loop runs to
    completion on sessions it can date and display; and whenever it
    completes, [total_work_time] is the sum of the floor-clamped
    durations, the times of all day buckets add up to it, the session
    counts of all day buckets add up to the number of sessions, and each
    bucket holds the clamped durations and the count of exactly the
    sessions that start on its date. *)
Theorem daily_aggregation_preserves_sums (sessions : list session) :
  (Forall (displayable fromtimestamp) sessions ->
   exists out st, session_loop fromtimestamp strftime sessions = (out, Ok st))
  /\ (forall out total_work_time daily_work,
        session_loop fromtimestamp strftime sessions
        = (out, Ok (total_work_time, daily_work)) ->
        total_work_time = total_effective sessions
        /\ sum_days Day.time daily_work = total_work_time
        /\ sum_days Day.sessions daily_work = len sessions
        /\ sum_days Day.requests daily_work = total_requests sessions
        /\ forall day,
             Day.time (getitem daily_work day)
             = total_effective
                 (day_sessions fromtimestamp strftime day sessions)
             /\ Day.sessions (getitem daily_work day)
                = len (day_sessions fromtimestamp strftime day sessions)).
Proof.
  split.
  - apply session_loop_total.
  - intros out total daily Hrun.
    apply session_loop_invariant in Hrun. exact Hrun.
Qed.

(** C7: on an empty list [analyze_sessions] returns the empty list; and
    when the extraction finds no timestamp, the analysis prints its
    banner, the extraction notice, whatever the extraction printed, and
    the line saying that no timestamps were found, then returns: no
    session table, no summary and no per-day table are printed, and no
    exception is raised. *)
Theorem empty_input_is_no_data (burp_file : string) (session_gap : Z)
    (extraction_output : list string) :
  extract_timestamps burp_file = (extraction_output, Ok []) ->
  analyze_sessions [] session_gap = []
  /\ analyze_burp_project fromtimestamp strftime extract_timestamps
       burp_file session_gap
     = ([nl +:+ rule 60 "=";
         "  TIME ANALYSIS - BURP PROJECT";
         "  " +:+ last_component burp_file "";
         rule 60 "=" +:+ nl;
         "[*] Extracting timestamps..."]
        ++ extraction_output
        ++ ["[!] No timestamps found in file."],
        Ok None).
Proof.
  intros Hx. split; [reflexivity|].
  unfold analyze_burp_project. rewrite Hx.
  unfold print, mbind, io_bind, mret, io_ret. simpl.
  reflexivity.
Qed.

(** C10: the analysis returns [None] when the extraction yields no
    timestamps, and returns the summary dictionary only when it yielded at
    least one; the dictionary then carries the number of sessions and the
    number of timestamps, with the total hours and the number of days the
    loop accumulated. *)
Theorem summary_only_with_timestamps (burp_file : string) (session_gap : Z) :
  (forall extraction_output,
     extract_timestamps burp_file = (extraction_output, Ok []) ->
     (analyze_burp_project fromtimestamp strftime extract_timestamps
        burp_file session_gap).2 = Ok None)
  /\ (forall out r,
        analyze_burp_project fromtimestamp strftime extract_timestamps
          burp_file session_gap = (out, Ok r) ->
        exists extraction_output timestamps,
          extract_timestamps burp_file = (extraction_output, Ok timestamps)
          /\ (r = None <-> timestamps = [])
          /\ forall d, r = Some d ->
               Summary.sessions d = len (analyze_sessions timestamps session_gap)
               /\ Summary.requests d = len timestamps
               /\ exists out' total_work_time daily_work,
                    session_loop fromtimestamp strftime
                      (analyze_sessions timestamps session_gap)
                    = (out', Ok (total_work_time, daily_work))
                    /\ int_true_div total_work_time (1000 * 3600)
                       = Ok (Summary.total_hours d)
                    /\ Summary.total_days d = Z.of_nat (size daily_work)).
Proof.
  split.
  - intros xo Hx. unfold analyze_burp_project. rewrite Hx. reflexivity.
  - intros out r Hrun. unfold analyze_burp_project in Hrun.
    do 5 io_step Hrun.
    apply io_bind_inv in Hrun as (xo & timestamps & o & Hx & Hrun & ?).
    exists xo, timestamps. split; [exact Hx|].
    destruct timestamps as [|first_ts rest].
    + io_step Hrun. apply mret_inv in Hrun as [<- _].
      split; [split; intros _; reflexivity | intros d Hd; discriminate Hd].
    + do 12 io_step Hrun.
      apply io_bind_inv in Hrun as (o' & [total daily] & o'' & Hloop & Hrun & ?).
      do 12 io_step Hrun.
      apply io_bind_inv in Hrun as (? & ? & ? & Hdays & Hrun & ?).
      do 5 io_step Hrun.
      apply mret_inv in Hrun as [<- _].
      split; [split; discriminate|].
      intros d [= <-]. simpl. repeat split.
      exists o', total, daily. repeat split; assumption.
Qed.

End ReportFacts.

(** * Runs on concrete inputs, with the UTC collaborator *)

(** Two timestamps a minute apart and one an hour later, gap of 30
    minutes: two sessions, both clamped to five minutes. *)
Example scenario_two_sessions :
  analyze_sessions [1770000000000; 1770000060000; 1770003600000] 30
  = [ {| start := 1770000000000; end_ := 1770000060000; requests := 2 |};
      {| start := 1770003600000; end_ := 1770003600000; requests := 1 |} ]
  /\ map effective_duration
       (analyze_sessions [1770000000000; 1770000060000; 1770003600000] 30)
     = [300000; 300000].
Proof. split; reflexivity. Qed.

(** A gap large enough to disable splitting. *)
Example scenario_one_session :
  analyze_sessions [1000; 2000; 3000] 99999
  = [ {| start := 1000; end_ := 3000; requests := 3 |} ]
  /\ map effective_duration (analyze_sessions [1000; 2000; 3000] 99999)
     = [300000].
Proof. split; reflexivity. Qed.

(** An unsorted input and a negative gap: every timestamp is more than the
    gap after the one before it. *)
Example scenario_negative_gap :
  analyze_sessions [5; 3; 9] (-1) = [new_session 5; new_session 3; new_session 9].
Proof. reflexivity. Qed.

(** The summary returned for the first scenario. *)
Example scenario_summary :
  (UTC.analyze [1770000000000; 1770000060000; 1770003600000] 30).2
  = Ok (Some {| Summary.total_hours := 6004799503160661 # 36028797018963968;
                Summary.total_days := 1;
                Summary.sessions := 2;
                Summary.requests := 3 |}).
Proof. vm_compute. reflexivity. Qed.

Lemma effective_duration_floor_witness :
  exists out total' daily',
    session_body UTC.fromtimestamp UTC.strftime 1
      (1, new_session 1770000000000) (0, ∅)
    = (out, Ok (total', daily'))
    /\ total' = 0 + Z.max (1770000000000 - 1770000000000) 300000.
Proof.
  destruct (session_body UTC.fromtimestamp UTC.strftime 1
              (1, new_session 1770000000000) (0, ∅))
    as [out [[total' daily']|e]] eqn:Hrun.
  - exists out, total', daily'. split; [reflexivity|].
    exact (proj1 (proj1 (proj2 (proj2 (proj2
             (effective_duration_floor UTC.datetime UTC.fromtimestamp
                UTC.strftime (new_session 1770000000000)))))
             1 1 0 ∅ out total' daily' Hrun)).
  - vm_compute in Hrun. discriminate Hrun.
Defined.

Lemma daily_aggregation_preserves_sums_witness :
  exists out total_work_time daily_work,
    session_loop UTC.fromtimestamp UTC.strftime
      (analyze_sessions [1770000000000; 1770000060000; 1770093600000] 30)
    = (out, Ok (total_work_time, daily_work))
    /\ sum_days Day.time daily_work = total_work_time
    /\ sum_days Day.sessions daily_work = 2
    /\ total_work_time = 600000.
Proof.
  pose proof (daily_aggregation_preserves_sums UTC.datetime UTC.fromtimestamp
                UTC.strftime
                (analyze_sessions
                   [1770000000000; 1770000060000; 1770093600000] 30))
    as [Htotal Hsums].
  destruct Htotal as (out & [total daily] & Hrun).
  { repeat constructor; try (eexists; vm_compute; reflexivity). }
  exists out, total, daily. split; [exact Hrun|].
  destruct (Hsums out total daily Hrun) as (Ht & Hs & Hn & _).
  repeat split; [exact Hs | exact Hn | rewrite Ht; reflexivity].
Defined.

Lemma empty_input_is_no_data_witness :
  analyze_sessions [] 30 = []
  /\ UTC.analyze [] 30
     = ([nl +:+ rule 60 "=";
         "  TIME ANALYSIS - BURP PROJECT";
         "  " +:+ last_component "/tmp/project.burp" "";
         rule 60 "=" +:+ nl;
         "[*] Extracting timestamps..."]
        ++ [] ++ ["[!] No timestamps found in file."],
        Ok None).
Proof.
  exact (empty_input_is_no_data UTC.datetime UTC.fromtimestamp UTC.strftime
           (UTC.found []) "/tmp/project.burp" 30 [] eq_refl).
Defined.

Lemma summary_only_with_timestamps_witness :
  (UTC.analyze [] 30).2 = Ok None
  /\ exists out d,
       UTC.analyze [1770000000000; 1770000060000; 1770003600000] 30
       = (out, Ok (Some d))
       /\ Summary.sessions d = 2 /\ Summary.requests d = 3.
Proof.
  split.
  - exact (proj1 (summary_only_with_timestamps UTC.datetime UTC.fromtimestamp
                    UTC.strftime (UTC.found []) "/tmp/project.burp" 30)
             [] eq_refl).
  - destruct (UTC.analyze [1770000000000; 1770000060000; 1770003600000] 30)
      as [out [[d|]|e]] eqn:Hrun;
      [|vm_compute in Hrun; discriminate Hrun..].
    exists out, d. split; [reflexivity|].
    destruct (proj2 (summary_only_with_timestamps UTC.datetime
                       UTC.fromtimestamp UTC.strftime
                       (UTC.found [1770000000000; 1770000060000; 1770003600000])
                       "/tmp/project.burp" 30) out (Some d) Hrun)
      as (xo & ts & Hx & _ & Hd).
    injection Hx as <- <-.
    destruct (Hd d eq_refl) as (Hs & Hr & _).
    split; [exact Hs | exact Hr].
Defined.

(** * Further properties of the clustering *)

Lemma clusters_length gap_ms rest : forall cur,
  len (clusters gap_ms cur rest) = 1 + count_splits gap_ms (end_ cur) rest.
Proof.
  unfold len.
  induction rest as [|ts rest IH]; intros cur; simpl; [reflexivity|].
  destruct (ts - end_ cur >? gap_ms).
  - simpl. specialize (IH (new_session ts)). simpl in IH. lia.
  - specialize (IH (extend_session cur ts)). simpl in IH. lia.
Qed.

Lemma count_splits_antitone g g' rest : forall prev,
  g <= g' -> count_splits g' prev rest <= count_splits g prev rest.
Proof.
  induction rest as [|ts rest IH]; intros prev Hg; simpl; [lia|].
  specialize (IH ts Hg).
  destruct (ts - prev >? g') eqn:H'; destruct (ts - prev >? g) eqn:H; lia.
Qed.

(** X1: the number of sessions is one more than the number of timestamps
    that come more than the gap after their predecessor in the list, for
    every list, sorted or not. *)
Theorem session_count_is_splits_plus_one (ts0 : Z) (rest : list Z) (G : Z) :
  len (analyze_sessions (ts0 :: rest) G)
  = 1 + count_splits (G * 60 * 1000) ts0 rest.
Proof. rewrite analyze_sessions_clusters. apply clusters_length. Qed.

(** X2: a larger gap never gives more sessions. *)
Theorem larger_gap_fewer_sessions (T : list Z) (G G' : Z) :
  G <= G' -> len (analyze_sessions T G') <= len (analyze_sessions T G).
Proof.
  intros HG. destruct T as [|ts0 rest]; [reflexivity|].
  rewrite !analyze_sessions_clusters, !clusters_length.
  pose proof (count_splits_antitone (G * 60 * 1000) (G' * 60 * 1000) rest ts0).
  simpl. lia.
Qed.

Lemma larger_gap_fewer_sessions_witness :
  len (analyze_sessions [0; 120000; 4000000] 60)
  <= len (analyze_sessions [0; 120000; 4000000] 1).
Proof. apply (larger_gap_fewer_sessions [0; 120000; 4000000] 1 60). lia. Defined.

Lemma clusters_span_bound gap_ms rest : forall cur,
  end_ cur - start cur <= (requests cur - 1) * gap_ms ->
  Forall (fun s => end_ s - start s <= (requests s - 1) * gap_ms)
    (clusters gap_ms cur rest).
Proof.
  induction rest as [|ts rest IH]; intros cur Hc; simpl.
  - repeat constructor. exact Hc.
  - destruct (ts - end_ cur >? gap_ms) eqn:Hgap.
    + constructor; [exact Hc|]. apply IH. simpl. lia.
    + apply IH. simpl. rewrite Z.gtb_ltb in Hgap. apply Z.ltb_ge in Hgap. lia.
Qed.

(** X3: a session of [n] requests spans at most [n - 1] gaps: its end is
    at most [(n - 1) * gap_ms] after its start, for every input. *)
Theorem session_span_bounded_by_gaps (T : list Z) (G : Z) :
  Forall (fun s => end_ s - start s <= (requests s - 1) * (G * 60 * 1000))
    (analyze_sessions T G).
Proof.
  destruct T as [|ts0 rest]; [constructor|].
  rewrite analyze_sessions_clusters. apply clusters_span_bound. simpl. lia.
Qed.

Lemma clusters_app gap_ms r1 t r2 : forall cur e,
  last (end_ cur :: r1) = Some e -> gap_ms < t - e ->
  clusters gap_ms cur (r1 ++ t :: r2)
  = clusters gap_ms cur r1 ++ clusters gap_ms (new_session t) r2.
Proof.
  induction r1 as [|x r1 IH]; intros cur e Hl Hgap.
  - injection Hl as <-. simpl.
    replace (t - end_ cur >? gap_ms) with true
      by (symmetry; apply Z.gtb_lt; lia).
    reflexivity.
  - rewrite last_cons_cons in Hl. simpl.
    destruct (x - end_ cur >? gap_ms).
    + simpl. f_equal. apply (IH (new_session x) e); assumption.
    + apply (IH (extend_session cur x) e); assumption.
Qed.

(** X4: clustering splits over a gap.  When the first timestamp of [T2]
    is more than the gap after the last timestamp of [T1], the sessions of
    the concatenation are those of [T1] followed by those of [T2]. *)
Theorem analyze_sessions_app_split (T1 T2 : list Z) (e t G : Z) :
  last T1 = Some e -> head T2 = Some t -> G * 60 * 1000 < t - e ->
  analyze_sessions (T1 ++ T2) G
  = analyze_sessions T1 G ++ analyze_sessions T2 G.
Proof.
  intros Hl Hh Hgap.
  destruct T1 as [|ts0 r1]; [discriminate|].
  destruct T2 as [|t' r2]; [discriminate|]. injection Hh as ->.
  rewrite <- app_comm_cons, !analyze_sessions_clusters.
  apply (clusters_app _ r1 t r2 (new_session ts0) e); assumption.
Qed.

Lemma analyze_sessions_app_split_witness :
  analyze_sessions ([0; 1000] ++ [4000000; 4001000]) 30
  = analyze_sessions [0; 1000] 30 ++ analyze_sessions [4000000; 4001000] 30.
Proof.
  apply (analyze_sessions_app_split [0; 1000] [4000000; 4001000] 1000 4000000 30);
    [reflexivity | reflexivity | lia].
Defined.

Lemma clusters_shift gap_ms c rest : forall cur,
  clusters gap_ms (shift_session c cur) (map (Z.add c) rest)
  = map (shift_session c) (clusters gap_ms cur rest).
Proof.
  induction rest as [|ts rest IH]; intros cur; simpl; [reflexivity|].
  replace (c + ts - (end_ cur + c)) with (ts - end_ cur) by lia.
  destruct (ts - end_ cur >? gap_ms); simpl.
  - f_equal. rewrite <- IH. f_equal. unfold shift_session, new_session. simpl.
    f_equal; lia.
  - rewrite <- IH. f_equal. unfold shift_session, extend_session. simpl.
    f_equal; lia.
Qed.

(** X5: clustering commutes with a shift of the time axis: adding [c] to
    every timestamp adds [c] to every start and end and changes nothing
    else. *)
Theorem analyze_sessions_shift (T : list Z) (c G : Z) :
  analyze_sessions (map (Z.add c) T) G
  = map (shift_session c) (analyze_sessions T G).
Proof.
  destruct T as [|ts0 rest]; [reflexivity|].
  simpl map at 1. rewrite !analyze_sessions_clusters, <- clusters_shift.
  f_equal. unfold shift_session, new_session. simpl. f_equal; lia.
Qed.

Lemma fold_members_clusters gap_ms rest : forall sessions cur mem,
  let '(sessions', current') :=
    fold_left (loop_body_members gap_ms) rest (sessions, (cur, mem)) in
  sessions' ++ [current']
  = sessions ++ clusters_members gap_ms cur mem rest.
Proof.
  induction rest as [|ts rest IH]; intros sessions cur mem; simpl;
    [reflexivity|].
  destruct (ts - end_ cur >? gap_ms).
  - specialize (IH (sessions ++ [(cur, mem)]) (new_session ts) [ts]).
    destruct (fold_left _ rest _) as [s' c'].
    rewrite IH, <- app_assoc. reflexivity.
  - apply IH.
Qed.

Lemma analyze_sessions_members_clusters ts0 rest G :
  analyze_sessions_members (ts0 :: rest) G
  = clusters_members (G * 60 * 1000) (new_session ts0) [ts0] rest.
Proof.
  unfold analyze_sessions_members.
  pose proof (fold_members_clusters (G * 60 * 1000) rest []
                (new_session ts0) [ts0]) as H.
  destruct (fold_left _ rest _) as [s' c']. exact H.
Qed.

Lemma Sorted_snoc {A} (R : A -> A -> Prop) (l : list A) (a x : A) :
  Sorted R l -> last l = Some a -> R a x -> Sorted R (l ++ [x]).
Proof.
  intros Hs. revert a. induction Hs as [|y l Hs IH Hhd]; intros a Hl HR.
  - discriminate.
  - simpl. destruct l as [|z l].
    + injection Hl as ->. repeat constructor. exact HR.
    + rewrite last_cons_cons in Hl.
      constructor; [eapply IH; eassumption|].
      apply HdRel_inv in Hhd. constructor. exact Hhd.
Qed.

Lemma clusters_members_within gap_ms rest : forall cur mem,
  Sorted (within_gap gap_ms) mem -> last mem = Some (end_ cur) ->
  Forall (fun p => Sorted (within_gap gap_ms) p.2)
    (clusters_members gap_ms cur mem rest).
Proof.
  induction rest as [|ts rest IH]; intros cur mem Hs Hl; simpl.
  - repeat constructor. exact Hs.
  - destruct (ts - end_ cur >? gap_ms) eqn:Hgap.
    + constructor; [exact Hs|]. apply IH; [repeat constructor | reflexivity].
    + apply IH; [|apply last_snoc].
      eapply Sorted_snoc; [exact Hs | exact Hl |].
      unfold within_gap. rewrite Z.gtb_ltb in Hgap. apply Z.ltb_ge in Hgap. lia.
Qed.

Lemma clusters_members_head gap_ms rest : forall cur mem x,
  head mem = Some x ->
  exists c' m' tl,
    clusters_members gap_ms cur mem rest = (c', m') :: tl
    /\ head m' = Some x.
Proof.
  induction rest as [|ts rest IH]; intros cur mem x Hh; simpl.
  - eexists _, _, _. split; [reflexivity | exact Hh].
  - destruct (ts - end_ cur >? gap_ms).
    + eexists _, _, _. split; [reflexivity | exact Hh].
    + apply IH. destruct mem; [discriminate | exact Hh].
Qed.

Lemma clusters_members_split gap_ms rest : forall cur mem,
  last mem = Some (end_ cur) ->
  Sorted (members_split gap_ms) (clusters_members gap_ms cur mem rest).
Proof.
  induction rest as [|ts rest IH]; intros cur mem Hl; simpl.
  - repeat constructor.
  - destruct (ts - end_ cur >? gap_ms) eqn:Hgap.
    + constructor; [apply IH; reflexivity|].
      destruct (clusters_members_head gap_ms rest (new_session ts) [ts] ts
                  eq_refl) as (c' & m' & tl & -> & Hh).
      constructor. exists (end_ cur), ts. simpl.
      apply Z.gtb_lt in Hgap. repeat split; [exact Hl | exact Hh | lia].
    + apply IH. apply last_snoc.
Qed.

(** X6: sessions are the maximal runs of the input, sorted or not: inside
    a session every timestamp is at most the gap after the one before it,
    and the first timestamp of a session is more than the gap after the
    last timestamp of the session before it. *)
Theorem sessions_are_maximal_runs (T : list Z) (G : Z) :
  map fst (analyze_sessions_members T G) = analyze_sessions T G
  /\ Forall (fun p => Sorted (within_gap (G * 60 * 1000)) p.2)
       (analyze_sessions_members T G)
  /\ Sorted (members_split (G * 60 * 1000)) (analyze_sessions_members T G).
Proof.
  destruct T as [|ts0 rest]; [repeat split; constructor|].
  split; [|rewrite analyze_sessions_members_clusters; split].
  - unfold analyze_sessions_members, analyze_sessions.
    pose proof (fold_loop_body_members (G * 60 * 1000) rest []
                  (new_session ts0) [ts0] (Forall_nil_2 _)) as H.
    destruct (fold_left (loop_body_members _) rest _) as [s' [c' m']].
    destruct H as (Hf & _); [repeat split|].
    simpl in Hf. rewrite <- Hf, map_app. reflexivity.
  - apply clusters_members_within; [repeat constructor | reflexivity].
  - apply clusters_members_split. reflexivity.
Qed.

Lemma clusters_total_raw gap_ms rest : forall cur,
  Sorted Z.le (end_ cur :: rest) -> start cur <= end_ cur ->
  exists e, last (end_ cur :: rest) = Some e
    /\ total_raw (clusters gap_ms cur rest) <= e - start cur.
Proof.
  induction rest as [|ts rest IH]; intros cur Hs Hwf.
  - exists (end_ cur). simpl. split; [reflexivity | lia].
  - apply Sorted_inv in Hs as [Hs Hhd]. apply HdRel_inv in Hhd.
    rewrite last_cons_cons. simpl clusters.
    destruct (ts - end_ cur >? gap_ms).
    + destruct (IH (new_session ts) Hs ltac:(simpl; lia)) as (e & He & Hr).
      exists e. split; [exact He|]. simpl in *. lia.
    + destruct (IH (extend_session cur ts) Hs ltac:(simpl; lia))
        as (e & He & Hr).
      exists e. split; [exact He|]. simpl in *. lia.
Qed.

Lemma total_effective_bracket (l : list session) :
  Forall (fun s => start s <= end_ s) l ->
  300000 * len l <= total_effective l
  /\ total_effective l <= total_raw l + 300000 * len l.
Proof.
  unfold len, total_effective, total_raw.
  induction 1 as [|s l Hs _ IH]; simpl; [lia|].
  pose proof (effective_duration_max s). lia.
Qed.

(** X7: the estimate is bracketed.  On a non-decreasing input the total
    work time is at least five minutes per session and at most the time
    from the first to the last timestamp plus five minutes per session;
    so the average session time is never below five minutes. *)
Theorem total_work_time_bracket (T : list Z) (G first_ts last_ts : Z) :
  Sorted Z.le T -> head T = Some first_ts -> last T = Some last_ts ->
  300000 * len (analyze_sessions T G) <= total_effective (analyze_sessions T G)
  /\ total_effective (analyze_sessions T G)
     <= (last_ts - first_ts) + 300000 * len (analyze_sessions T G)
  /\ 300000 <= total_effective (analyze_sessions T G)
               / Z.max 1 (len (analyze_sessions T G)).
Proof.
  intros Hs Hh Hl. destruct T as [|ts0 rest]; [discriminate|].
  injection Hh as ->.
  rewrite analyze_sessions_clusters.
  assert (Hwf : Forall (fun s => start s <= end_ s)
                  (clusters (G * 60 * 1000) (new_session first_ts) rest))
    by (apply clusters_well_formed; [exact Hs | simpl; lia]).
  destruct (total_effective_bracket _ Hwf) as [Hlo Hhi].
  destruct (clusters_total_raw (G * 60 * 1000) rest (new_session first_ts) Hs
              ltac:(simpl; lia)) as (e & He & Hr).
  simpl in He. rewrite Hl in He. injection He as <-. simpl in Hr.
  pose proof (clusters_length (G * 60 * 1000) rest (new_session first_ts)) as Hn.
  assert (Hcs : 0 <= count_splits (G * 60 * 1000) first_ts rest).
  { clear. generalize first_ts. induction rest as [|x l IH]; intros p; simpl; [lia|].
    specialize (IH x). destruct (x - p >? G * 60 * 1000); lia. }
  simpl in Hn.
  repeat split; [exact Hlo | lia |].
  apply Z.div_le_lower_bound; lia.
Qed.

Lemma total_work_time_bracket_witness :
  300000 * len (analyze_sessions [1000; 2000; 4000000] 30)
  <= total_effective (analyze_sessions [1000; 2000; 4000000] 30)
  /\ total_effective (analyze_sessions [1000; 2000; 4000000] 30)
     <= (4000000 - 1000) + 300000 * len (analyze_sessions [1000; 2000; 4000000] 30)
  /\ 300000 <= total_effective (analyze_sessions [1000; 2000; 4000000] 30)
               / Z.max 1 (len (analyze_sessions [1000; 2000; 4000000] 30)).
Proof.
  apply (total_work_time_bracket [1000; 2000; 4000000] 30 1000 4000000);
    [repeat constructor; lia | reflexivity | reflexivity].
Defined.

(** * Further properties of format_duration *)

Lemma str_inj (a b : Z) : str a = str b -> a = b.
Proof.
  unfold str. intros H. apply DecimalZ.to_int_inj.
  assert (Hnn : forall z, Z.to_int z <> Decimal.Pos Decimal.Nil
                          /\ Z.to_int z <> Decimal.Neg Decimal.Nil).
  { intros [|p|p]; simpl; split; try discriminate;
      intros [= Hp]; exact (DecimalPos.Unsigned.to_uint_nonnil p Hp). }
  destruct (Hnn a) as [Ha1 Ha2]. destruct (Hnn b) as [Hb1 Hb2].
  pose proof (NilZero.isi _ Ha1 Ha2) as Ia.
  pose proof (NilZero.isi _ Hb1 Hb2) as Ib.
  rewrite H in Ia. congruence.
Qed.

Lemma string_length_app (a b : string) :
  String.length (a +:+ b) = (String.length a + String.length b)%nat.
Proof. induction a as [|c a IH]; simpl; [|rewrite IH]; reflexivity. Qed.

Lemma append_inj_suffix (c : ascii) (s1 s2 : string) :
  s1 +:+ String c "" = s2 +:+ String c "" -> s1 = s2.
Proof.
  revert s2. induction s1 as [|a s1 IH]; intros [|b s2]; simpl; intros H.
  - reflexivity.
  - injection H as _ H. destruct s2; discriminate.
  - injection H as _ H. destruct s1; discriminate.
  - injection H as -> H. f_equal. apply IH. exact H.
Qed.

(** X12: the label "0s" stands for exactly the durations below one second,
    the negative ones included (below 2^44 seconds, where the float
    arithmetic is exact). *)
Theorem zero_label_below_one_second (ms : Z) :
  ms < 2 ^ 44 * 1000 ->
  (format_duration ms = Ok "0s"%string <-> ms < 1000).
Proof.
  intros Hb. destruct (Z_lt_ge_dec ms 0) as [Hneg|Hpos].
  - unfold format_duration.
    replace (ms <? 0) with true by (symmetry; apply Z.ltb_lt; exact Hneg).
    split; [lia | reflexivity].
  - rewrite format_duration_small by lia. unfold format_truncated.
    destruct (ms / 3600000 >? 0) eqn:Hh.
    { split; [|apply Z.gtb_lt in Hh; Z.to_euclidean_division_equations; lia].
      intros [= H]. apply (f_equal String.length) in H.
      rewrite !string_length_app in H. simpl in H. lia. }
    destruct (ms mod 3600000 / 60000 >? 0) eqn:Hm.
    { split; [|apply Z.gtb_lt in Hm; Z.to_euclidean_division_equations; lia].
      intros [= H]. apply (f_equal String.length) in H.
      rewrite !string_length_app in H. simpl in H. lia. }
    rewrite Z.gtb_ltb in Hh, Hm. apply Z.ltb_ge in Hh, Hm.
    split.
    + intros [= H]. apply (append_inj_suffix "s" _ "0") in H.
      apply (str_inj _ 0) in H.
      Z.to_euclidean_division_equations; lia.
    + intros Hlt. replace (ms mod 60000 / 1000) with 0
        by (Z.to_euclidean_division_equations; lia).
      reflexivity.
Qed.

Lemma zero_label_below_one_second_witness :
  format_duration 999 = Ok "0s"%string <-> 999 < 1000.
Proof. apply (zero_label_below_one_second 999). reflexivity. Defined.

(** X13: no session row shows less than five minutes.  The duration
    printed for a session shorter than 2^44 seconds is either minutes and
    seconds, with at least 5 and at most 59 minutes and at most 59
    seconds, or hours and minutes, with at least one hour and at most 59
    minutes. *)
Theorem session_duration_text (s : session) :
  end_ s - start s < 2 ^ 44 * 1000 ->
  (exists m sec,
     5 <= m < 60 /\ 0 <= sec < 60
     /\ format_duration (effective_duration s)
        = Ok (str m +:+ "m " +:+ str sec +:+ "s"))
  \/ (exists h m,
        1 <= h /\ 0 <= m < 60
        /\ format_duration (effective_duration s)
           = Ok (str h +:+ "h " +:+ str m +:+ "m")).
Proof.
  intros Hb. pose proof (effective_duration_max s) as Hmax.
  rewrite format_duration_small by lia. unfold format_truncated.
  set (ms := effective_duration s) in *.
  destruct (ms / 3600000 >? 0) eqn:Hh.
  - right. exists (ms / 3600000), (ms mod 3600000 / 60000).
    apply Z.gtb_lt in Hh. repeat split; try reflexivity;
      Z.to_euclidean_division_equations; lia.
  - left. rewrite Z.gtb_ltb in Hh. apply Z.ltb_ge in Hh.
    replace (ms mod 3600000 / 60000 >? 0) with true
      by (symmetry; apply Z.gtb_lt; Z.to_euclidean_division_equations; lia).
    exists (ms mod 3600000 / 60000), (ms mod 60000 / 1000).
    repeat split; try reflexivity; Z.to_euclidean_division_equations; lia.
Qed.

Lemma session_duration_text_witness :
  (exists m sec,
     5 <= m < 60 /\ 0 <= sec < 60
     /\ format_duration (effective_duration (new_session 1770000000000))
        = Ok (str m +:+ "m " +:+ str sec +:+ "s"))
  \/ (exists h m,
        1 <= h /\ 0 <= m < 60
        /\ format_duration (effective_duration (new_session 1770000000000))
           = Ok (str h +:+ "h " +:+ str m +:+ "m")).
Proof. apply (session_duration_text (new_session 1770000000000)). reflexivity. Defined.

(** * Further properties of the report *)

Section ReportRows.

Variable datetime : Type.
Variable fromtimestamp : Q -> option datetime.
Variable strftime : datetime -> string -> string.

(** What a completed iteration of the session loop printed. *)
Lemma session_body_output n i s st out st' :
  session_body fromtimestamp strftime n (i, s) st = (out, Ok st') ->
  (i <= 30 ->
   exists start_dt end_dt text,
     ms_to_datetime fromtimestamp (start s) = Ok start_dt
     /\ ms_to_datetime fromtimestamp (end_ s) = Ok end_dt
     /\ format_duration (effective_duration s) = Ok text
     /\ out = [session_line strftime i start_dt end_dt text (requests s)])
  /\ (i = 31 -> out = [elision_line n])
  /\ (31 < i -> out = []).
Proof.
  destruct st as [total daily]. unfold session_body. intros H.
  apply io_bind_inv in H as (o1 & start_dt & o2 & Hs & H & ->).
  apply lift_inv in Hs as [Hs ->].
  apply io_bind_inv in H as (o1 & end_dt & o3 & He & H & ->).
  apply lift_inv in He as [He ->].
  apply io_bind_inv in H as (o1 & u & o4 & Hp & H & ->).
  apply mret_inv in H as [_ ->]. simpl. rewrite app_nil_r.
  repeat split.
  - intros Hi.
    replace (i <=? 30) with true in Hp by (symmetry; apply Z.leb_le; exact Hi).
    apply io_bind_inv in Hp as (o5 & text & o6 & Hf & Hp & ->).
    apply lift_inv in Hf as [Hf ->]. apply print_inv in Hp as ->.
    exists start_dt, end_dt, text. repeat split; assumption.
  - intros ->. simpl in Hp. apply print_inv in Hp. exact Hp.
  - intros Hi.
    replace (i <=? 30) with false in Hp by (symmetry; apply Z.leb_gt; lia).
    replace (i =? 31) with false in Hp by (symmetry; apply Z.eqb_neq; lia).
    apply mret_inv in Hp as [_ ->]. reflexivity.
Qed.

(** The lines of a completed run of the loop from index [i] on. *)
Lemma session_rows n : forall l i st out st',
  1 <= i ->
  for_each (session_body fromtimestamp strftime n) (enumerate l i) st
  = (out, Ok st') ->
  len out = Z.max 0 (Z.min (i + len l) 32 - Z.min i 32)
  /\ (forall (k : nat) s,
        l !! k = Some s -> i + Z.of_nat k <= 30 ->
        exists start_dt end_dt text,
          ms_to_datetime fromtimestamp (start s) = Ok start_dt
          /\ ms_to_datetime fromtimestamp (end_ s) = Ok end_dt
          /\ format_duration (effective_duration s) = Ok text
          /\ out !! k
             = Some (session_line strftime (i + Z.of_nat k) start_dt end_dt
                       text (requests s)))
  /\ (i <= 31 < i + len l ->
      out !! Z.to_nat (31 - i) = Some (elision_line n)).
Proof.
  unfold len.
  induction l as [|s l IH]; intros i st out st' Hi Hrun.
  - apply mret_inv in Hrun as [_ ->]. simpl. split; [|split].
    + lia.
    + intros k s Hk. discriminate.
    + lia.
  - simpl in Hrun.
    apply io_bind_inv in Hrun as (o1 & st1 & o2 & Hb & Hl & ->).
    destruct (session_body_output _ _ _ _ _ _ Hb) as (Hrow & Hel & Hno).
    destruct (IH (i + 1) st1 o2 st' ltac:(lia) Hl) as (Hlen & Hrows & Helide).
    rewrite length_app. simpl length.
    destruct (Z_le_gt_dec i 30) as [Hi30|Hi30].
    + destruct (Hrow Hi30) as (sd & ed & text & Hs & He & Hf & ->).
      simpl length. split; [|split].
      * lia.
      * intros k s' Hk Hk30. destruct k as [|k]; simpl in *.
        -- injection Hk as <-. exists sd, ed, text.
           rewrite Z.add_0_r. repeat split; assumption.
        -- destruct (Hrows k s' Hk ltac:(lia)) as (sd' & ed' & t' & ? & ? & ? & Ho).
           exists sd', ed', t'. repeat split; try assumption.
           rewrite Ho. do 2 f_equal. lia.
      * intros H31. replace (Z.to_nat (31 - i)) with (S (Z.to_nat (31 - (i + 1)))) by lia.
        simpl. apply Helide. lia.
    + destruct (Z.eq_dec i 31) as [->|Hne].
      * rewrite (Hel eq_refl). simpl length. split; [|split].
        -- lia.
        -- intros k s' Hk Hk30. lia.
        -- intros _. reflexivity.
      * rewrite (Hno ltac:(lia)). simpl length. split; [|split].
        -- lia.
        -- intros k s' Hk Hk30. lia.
        -- intros H31. lia.
Qed.

(** X8: the session table is capped.  A completed run of the loop over
    [n] sessions prints a row for each of the first 30 sessions, numbered
    from 1 and showing the clamped duration, then, when there are more
    than 30, one line saying how many were left out, and nothing else:
    [min n 31] lines in all. *)
Theorem session_table_capped (sessions : list session) out st :
  session_loop fromtimestamp strftime sessions = (out, Ok st) ->
  len out = Z.min (len sessions) 31
  /\ (forall (k : nat) s,
        sessions !! k = Some s -> (k < 30)%nat ->
        exists start_dt end_dt text,
          ms_to_datetime fromtimestamp (start s) = Ok start_dt
          /\ ms_to_datetime fromtimestamp (end_ s) = Ok end_dt
          /\ format_duration (Z.max (end_ s - start s) 300000) = Ok text
          /\ out !! k
             = Some (session_line strftime (Z.of_nat k + 1) start_dt end_dt
                       text (requests s)))
  /\ (30 < len sessions ->
      out !! 30%nat = Some (elision_line (len sessions))).
Proof.
  unfold session_loop. intros Hrun.
  destruct (session_rows _ _ 1 _ _ _ ltac:(lia) Hrun) as (Hlen & Hrows & Hel).
  assert (0 <= len sessions) by (unfold len; lia).
  split; [|split].
  - lia.
  - intros k s Hk Hk30.
    destruct (Hrows k s Hk ltac:(lia)) as (sd & ed & text & ? & ? & Hf & Ho).
    exists sd, ed, text. rewrite <- effective_duration_max.
    repeat split; try assumption.
    rewrite Ho. do 2 f_equal. lia.
  - intros Hn. apply (Hel ltac:(lia)).
Qed.

End ReportRows.

Lemma size_le_sum_days (f : Day.t -> Z) (m : gmap string Day.t) :
  (forall k d, m !! k = Some d -> 1 <= f d) ->
  Z.of_nat (size m) <= sum_days f m.
Proof.
  induction m as [|k v m Hk IH] using map_ind; intros Hall.
  - rewrite map_size_empty, sum_days_empty. lia.
  - rewrite map_size_insert_None, sum_days_insert_fresh by exact Hk.
    assert (1 <= f v) by (apply (Hall k); apply lookup_insert_eq).
    assert (Z.of_nat (size m) <= sum_days f m).
    { apply IH. intros k' d Hd. apply (Hall k').
      rewrite lookup_insert_ne; [exact Hd|]. intros ->. congruence. }
    lia.
Qed.

Lemma clusters_length_le gap_ms rest : forall cur,
  1 <= len (clusters gap_ms cur rest) <= 1 + len rest.
Proof.
  unfold len.
  induction rest as [|ts rest IH]; intros cur; simpl; [lia|].
  destruct (ts - end_ cur >? gap_ms); simpl.
  - specialize (IH (new_session ts)). lia.
  - specialize (IH (extend_session cur ts)). lia.
Qed.

Lemma for_each_cons {A S : Type} (body : A -> S -> io S) x l st :
  for_each body (x :: l) st = (body x st ≫= for_each body l).
Proof. reflexivity. Qed.

Section ReportSummary.

Variable datetime : Type.
Variable fromtimestamp : Q -> option datetime.
Variable strftime : datetime -> string -> string.
Variable extract_timestamps : string -> io (list Z).

Lemma days_invariant_step n done i s st out st' :
  days_invariant fromtimestamp strftime done st ->
  session_body fromtimestamp strftime n (i, s) st = (out, Ok st') ->
  days_invariant fromtimestamp strftime (done ++ [(i, s)]) st'.
Proof.
  destruct st as [total daily]. intros Hinv Hrun day.
  apply session_body_inv in Hrun as (sd & ed & Hs & He & Hk & -> & _).
  simpl. rewrite map_app. simpl.
  unfold add_session, add_requests, add_sessions, add_time.
  rewrite !lookup_insert_is_Some'.
  specialize (Hinv day). simpl in Hinv. split.
  - intros [<-|[<-|[<-|H]]];
      try (exists s; split; [apply elem_of_app; right; apply list_elem_of_singleton; reflexivity | exact Hk]).
    apply Hinv in H as (s' & Hin & Hd). exists s'.
    split; [apply elem_of_app; left; exact Hin | exact Hd].
  - intros (s' & Hin & Hd). apply elem_of_app in Hin as [Hin|Hin].
    + right. right. right. apply Hinv. exists s'. auto.
    + apply list_elem_of_singleton in Hin. subst s'. left. congruence.
Qed.

Lemma session_loop_days sessions out st :
  session_loop fromtimestamp strftime sessions = (out, Ok st) ->
  forall day,
    is_Some (st.2 !! day)
    <-> exists s, s ∈ sessions
          /\ session_day fromtimestamp strftime s = Some day.
Proof.
  unfold session_loop. intros Hrun.
  pose proof (for_each_invariant _ (days_invariant fromtimestamp strftime)
                (fun done x st0 out0 st0' =>
                   match x with (i, s) =>
                     days_invariant_step (len sessions) done i s st0 out0 st0'
                   end)
                (enumerate sessions 1) [] (0, ∅) out st) as H.
  rewrite app_nil_l in H. unfold days_invariant at 2 in H.
  rewrite enumerate_snd in H. apply H; [|exact Hrun].
  intros day. simpl. rewrite lookup_empty. split.
  - intros [? [=]].
  - intros (s & Hin & _). apply elem_of_nil in Hin. contradiction.
Qed.

(** Every bucket of a completed loop counts at least one session. *)
Lemma session_loop_buckets_nonempty sessions out st :
  session_loop fromtimestamp strftime sessions = (out, Ok st) ->
  forall day d, st.2 !! day = Some d -> 1 <= Day.sessions d.
Proof.
  intros Hrun day d Hd.
  pose proof (session_loop_invariant _ _ _ _ _ _ Hrun)
    as (_ & _ & _ & _ & Hday).
  destruct (Hday day) as [_ Hn].
  destruct (proj1 (session_loop_days _ _ _ Hrun day) (mk_is_Some _ _ Hd))
    as (s & Hin & Hs).
  unfold getitem in Hn. rewrite Hd in Hn. simpl in Hn. rewrite Hn.
  unfold day_sessions, len.
  assert (Hin' : s ∈ filter (fun s => session_day fromtimestamp strftime s
                                      = Some day) sessions)
    by (apply list_elem_of_filter; split; assumption).
  destruct (filter _ sessions); [apply elem_of_nil in Hin'; contradiction|].
  simpl. lia.
Qed.

(** What a run that returned went through. *)
Lemma analyze_burp_project_inv burp_file session_gap out r :
  analyze_burp_project fromtimestamp strftime extract_timestamps
    burp_file session_gap = (out, Ok r) ->
  exists extraction_output timestamps,
    extract_timestamps burp_file = (extraction_output, Ok timestamps)
    /\ ((timestamps = [] /\ r = None)
        \/ (exists loop_output total_work_time daily_work total_hours,
              timestamps <> []
              /\ session_loop fromtimestamp strftime
                   (analyze_sessions timestamps session_gap)
                 = (loop_output, Ok (total_work_time, daily_work))
              /\ int_true_div total_work_time (1000 * 3600) = Ok total_hours
              /\ r = Some {| Summary.total_hours := total_hours;
                             Summary.total_days := Z.of_nat (size daily_work);
                             Summary.sessions :=
                               len (analyze_sessions timestamps session_gap);
                             Summary.requests := len timestamps |})).
Proof.
  intros Hrun. unfold analyze_burp_project in Hrun.
  do 5 io_step Hrun.
  apply io_bind_inv in Hrun as (xo & timestamps & o & Hx & Hrun & ?).
  exists xo, timestamps. split; [exact Hx|].
  destruct timestamps as [|first_ts rest].
  - io_step Hrun. apply mret_inv in Hrun as [<- _]. left. auto.
  - do 12 io_step Hrun.
    apply io_bind_inv in Hrun as (o' & [total daily] & o'' & Hloop & Hrun & ?).
    do 12 io_step Hrun.
    apply io_bind_inv in Hrun as (? & ? & ? & Hdays & Hrun & ?).
    do 5 io_step Hrun.
    apply mret_inv in Hrun as [<- _].
    right. eexists o', total, daily, _.
    repeat split; [discriminate | exact Hloop | eassumption].
Qed.

(** X9: in every summary returned, the number of working days is at least
    one and at most the number of sessions, which is at most the number of
    timestamps. *)
Theorem summary_counts_ordered burp_file session_gap out d :
  analyze_burp_project fromtimestamp strftime extract_timestamps
    burp_file session_gap = (out, Ok (Some d)) ->
  1 <= Summary.total_days d
  /\ Summary.total_days d <= Summary.sessions d
  /\ Summary.sessions d <= Summary.requests d.
Proof.
  intros Hrun.
  apply analyze_burp_project_inv in Hrun
    as (xo & T & Hx & [[_ [=]]|(lo & total & daily & hours & HT & Hloop & _ & [= ->])]).
  simpl.
  pose proof (session_loop_invariant _ _ _ _ _ _ Hloop)
    as (_ & _ & Hss & _ & _).
  pose proof (size_le_sum_days Day.sessions daily
                (session_loop_buckets_nonempty _ _ _ Hloop)) as Hsize.
  simpl in *. destruct T as [|ts0 rest]; [congruence|].
  rewrite analyze_sessions_clusters in *.
  pose proof (clusters_length_le (session_gap * 60 * 1000) rest
                (new_session ts0)) as Hlen.
  split; [|split].
  - destruct (clusters (session_gap * 60 * 1000) (new_session ts0) rest)
      as [|s l] eqn:Hc; [unfold len in Hlen; simpl in Hlen; lia|].
    assert (Hne : daily <> ∅).
    { intros ->. pose proof Hloop as Hfirst.
      unfold session_loop in Hfirst. simpl enumerate in Hfirst.
      rewrite for_each_cons in Hfirst.
      apply io_bind_inv in Hfirst as (o1 & [t1 d1] & o2 & Hb & _ & _).
      apply session_body_inv in Hb as (sd & ed & _ & _ & Hk & _).
      assert (Hs : is_Some ((∅ : gmap string Day.t) !! strftime sd "%Y-%m-%d")).
      { apply (session_loop_days _ _ _ Hloop). exists s.
        split; [apply elem_of_cons; left; reflexivity | exact Hk]. }
      rewrite lookup_empty in Hs. destruct Hs as [? [=]]. }
    apply map_size_non_empty_iff in Hne. lia.
  - lia.
  - unfold len in *. simpl in *. lia.
Qed.

(** X10: the TOTAL row is the column-wise sum of the rows of the per-day
    table: in a run that returned a summary, the times of the day buckets
    add up to the total work time, their session counts to the number of
    sessions reported, and their request counts to the number of
    timestamps reported. *)
Theorem total_row_sums_day_rows burp_file session_gap out d :
  analyze_burp_project fromtimestamp strftime extract_timestamps
    burp_file session_gap = (out, Ok (Some d)) ->
  exists loop_output total_work_time daily_work timestamps extraction_output,
    extract_timestamps burp_file = (extraction_output, Ok timestamps)
    /\ session_loop fromtimestamp strftime
         (analyze_sessions timestamps session_gap)
       = (loop_output, Ok (total_work_time, daily_work))
    /\ sum_days Day.time daily_work = total_work_time
    /\ sum_days Day.sessions daily_work = Summary.sessions d
    /\ sum_days Day.requests daily_work = Summary.requests d
    /\ Z.of_nat (size daily_work) = Summary.total_days d.
Proof.
  intros Hrun.
  apply analyze_burp_project_inv in Hrun
    as (xo & T & Hx & [[_ [=]]|(lo & total & daily & hours & HT & Hloop & _ & [= ->])]).
  exists lo, total, daily, T, xo.
  pose proof (session_loop_invariant _ _ _ _ _ _ Hloop)
    as (_ & Ht & Hss & Hsr & _).
  simpl in *. rewrite analyze_sessions_total_requests in Hsr.
  repeat split; assumption.
Qed.

End ReportSummary.

Lemma string_leb_total : Total (fun a b => Is_true (String.leb a b)).
Proof.
  intros a b. destruct (String.leb_total a b) as [H|H]; rewrite H; simpl; auto.
Qed.

Lemma sorted_keys_spec (daily_work : gmap string Day.t) :
  Sorted (fun a b => Is_true (String.leb a b)) (sorted_keys daily_work)
  /\ NoDup (sorted_keys daily_work)
  /\ (forall day, day ∈ sorted_keys daily_work <-> is_Some (daily_work !! day))
  /\ length (sorted_keys daily_work) = size daily_work.
Proof.
  unfold sorted_keys.
  pose proof (merge_sort_Permutation (fun a b => Is_true (String.leb a b))
                (map fst (map_to_list daily_work))) as Hp.
  split; [apply (@Sorted_merge_sort _ _ _ string_leb_total)|].
  split; [rewrite Hp; apply NoDup_fst_map_to_list|].
  split.
  - intros day. rewrite Hp. rewrite list_elem_of_fmap. split.
    + intros ([k v] & -> & Hin). apply elem_of_map_to_list in Hin.
      simpl. eauto.
    + intros [v Hv]. exists (day, v). split; [reflexivity|].
      apply elem_of_map_to_list. exact Hv.
  - rewrite Hp, length_map. apply length_map_to_list.
Qed.

(** The lines of a completed run of the loop over the days. *)
Lemma day_rows (daily_work : gmap string Day.t) : forall keys out u,
  for_each (day_body daily_work) keys tt = (out, Ok u) ->
  length out = length keys
  /\ forall (k : nat) day,
       keys !! k = Some day ->
       exists text,
         format_duration (Day.time (getitem daily_work day)) = Ok text
         /\ out !! k = Some (day_line day text (getitem daily_work day)).
Proof.
  induction keys as [|day keys IH]; intros out u Hrun.
  - apply mret_inv in Hrun as [_ ->]. split; [reflexivity|].
    intros k day Hk. discriminate.
  - rewrite for_each_cons in Hrun.
    apply io_bind_inv in Hrun as (o1 & [] & o2 & Hb & Hl & ->).
    unfold day_body in Hb.
    apply io_bind_inv in Hb as (o3 & text & o4 & Hf & Hp & ->).
    apply lift_inv in Hf as [Hf ->]. apply print_inv in Hp as ->.
    destruct (IH o2 u Hl) as (Hlen & Hrows).
    split; [simpl; rewrite Hlen; reflexivity|].
    intros k day' Hk. destruct k as [|k]; simpl in *.
    + injection Hk as <-. exists text. split; [exact Hf | reflexivity].
    + apply Hrows. exact Hk.
Qed.

(** X11: the per-day table has one row for every day bucket and no other,
    in ascending order of the date string, each showing the bucket's
    formatted time and its session and request counts. *)
Theorem per_day_table_rows (daily_work : gmap string Day.t) out u :
  for_each (day_body daily_work) (sorted_keys daily_work) tt = (out, Ok u) ->
  length out = size daily_work
  /\ Sorted (fun a b => Is_true (String.leb a b)) (sorted_keys daily_work)
  /\ NoDup (sorted_keys daily_work)
  /\ (forall day, day ∈ sorted_keys daily_work <-> is_Some (daily_work !! day))
  /\ forall (k : nat) day,
       sorted_keys daily_work !! k = Some day ->
       exists text d,
         daily_work !! day = Some d
         /\ format_duration (Day.time d) = Ok text
         /\ out !! k = Some (day_line day text d).
Proof.
  intros Hrun.
  destruct (sorted_keys_spec daily_work) as (Hs & Hnd & Hmem & Hlen).
  destruct (day_rows _ _ _ _ Hrun) as (Ho & Hrows).
  split; [lia|]. repeat split; try assumption; try apply Hmem.
  intros k day Hk.
  destruct (Hrows k day Hk) as (text & Hf & Hline).
  assert (Hin : is_Some (daily_work !! day)).
  { apply Hmem. apply list_elem_of_lookup. eauto. }
  destruct Hin as [d Hd]. exists text, d.
  unfold getitem in *. rewrite Hd in *. simpl in *. auto.
Qed.

(** * Properties of the extraction *)

(** ** Sorted sets *)

Lemma StronglySorted_le_lt (l : list Z) :
  StronglySorted Z.le l -> NoDup l -> StronglySorted Z.lt l.
Proof.
  induction 1 as [|x l Hs IH Hall]; intros Hnd; [constructor|].
  apply NoDup_cons in Hnd as [Hx Hnd].
  constructor; [apply IH; exact Hnd|].
  apply Forall_forall. intros y Hy.
  rewrite Forall_forall in Hall. specialize (Hall y Hy).
  assert (x <> y) by (intros ->; contradiction). lia.
Qed.

Lemma sorted_set_spec (l : list Z) :
  StronglySorted Z.lt (sorted_set l)
  /\ forall x, x ∈ sorted_set l <-> x ∈ l.
Proof.
  unfold sorted_set.
  pose proof (merge_sort_Permutation Z.le (elements (list_to_set l : gset Z)))
    as Hp.
  split.
  - apply StronglySorted_le_lt.
    + apply StronglySorted_merge_sort; apply _.
    + rewrite Hp. apply NoDup_elements.
  - intros x. rewrite Hp, elem_of_elements, elem_of_list_to_set. reflexivity.
Qed.

Lemma StronglySorted_lt_le (l : list Z) :
  StronglySorted Z.lt l -> Sorted Z.le l.
Proof.
  intros H. apply StronglySorted_Sorted.
  induction H as [|x l Hs IH Hall]; constructor; [exact IH|].
  eapply Forall_impl; [exact Hall|]. simpl. lia.
Qed.

(** ** Lines *)

Lemma int_of_digits_bounds (s : string) : forall acc,
  all_digits s = true -> 0 <= acc ->
  acc * 10 ^ Z.of_nat (String.length s) <= int_of_digits acc s
  /\ int_of_digits acc s < (acc + 1) * 10 ^ Z.of_nat (String.length s).
Proof.
  induction s as [|c s IH]; intros acc Hd Hacc.
  - simpl. lia.
  - simpl in Hd. apply andb_true_iff in Hd as [Hc Hd].
    unfold is_digit in Hc. apply andb_true_iff in Hc as [H1 H2].
    apply Nat.leb_le in H1, H2.
    cbn [int_of_digits String.length].
    rewrite Nat2Z.inj_succ, Z.pow_succ_r by lia.
    set (d := Z.of_nat (nat_of_ascii c) - 48).
    assert (0 <= d <= 9) by (unfold d; lia).
    destruct (IH (10 * acc + d) Hd ltac:(lia)) as [Hlo Hhi].
    assert (0 < 10 ^ Z.of_nat (String.length s))
      by (apply Z.pow_pos_nonneg; lia).
    split; nia.
Qed.

Lemma parse_line_Some (line : string) (t : Z) :
  parse_line line = Some t ->
  String.length line = 13%nat /\ all_digits line = true
  /\ t = int_of_digits 0 line /\ 0 <= t < 10 ^ 13.
Proof.
  unfold parse_line.
  destruct (negb (String.eqb line "") && isdigit line
            && (String.length line =? 13)%nat) eqn:Hc; [|discriminate].
  intros [= <-].
  apply andb_true_iff in Hc as [Hc Hlen].
  apply andb_true_iff in Hc as [_ Hd].
  apply Nat.eqb_eq in Hlen.
  assert (Hall : all_digits line = true)
    by (destruct line; [discriminate | exact Hd]).
  pose proof (int_of_digits_bounds line 0 Hall ltac:(lia)) as Hb.
  rewrite Hlen in Hb. repeat split; try assumption; simpl in *; lia.
Qed.

Lemma add_lines_elem (stdout : string) (timestamps : gset Z) (t : Z) :
  t ∈ add_lines stdout timestamps
  <-> t ∈ timestamps
      \/ exists line, line ∈ split_lines (strip stdout)
                      /\ parse_line line = Some t.
Proof.
  unfold add_lines. generalize (split_lines (strip stdout)) as lines.
  intros lines. revert timestamps.
  induction lines as [|line lines IH]; intros timestamps; simpl.
  - split; [auto|]. intros [H|(line & Hin & _)]; [exact H|].
    apply elem_of_nil in Hin. contradiction.
  - rewrite IH. split.
    + intros [H|(l & Hin & Hp)].
      * destruct (parse_line line) as [t'|] eqn:Hl; [|auto].
        apply elem_of_union in H as [H|H]; [|auto].
        apply elem_of_singleton in H. subst t'.
        right. exists line. split; [apply elem_of_cons; auto | exact Hl].
      * right. exists l. split; [apply elem_of_cons; auto | exact Hp].
    + intros [H|(l & Hin & Hp)].
      * left. destruct (parse_line line); [apply elem_of_union|]; auto.
      * apply elem_of_cons in Hin as [->|Hin].
        -- left. rewrite Hp. apply elem_of_union. left.
           apply elem_of_singleton. reflexivity.
        -- right. exists l. auto.
Qed.

(** ** Float results in range *)

Lemma int_true_div_returns (a b : Z) :
  0 <= a < 2 ^ 53 -> 0 < b -> exists y, int_true_div a b = Ok y.
Proof.
  intros Ha Hb. unfold int_true_div, fl, round_binary64. cbv zeta.
  pose proof (Qred_correct (inject_Z a / inject_Z b)) as Hred.
  destruct (Qred (inject_Z a / inject_Z b)) as [n d].
  destruct b as [|p|p]; try lia.
  unfold Qeq, Qdiv, Qmult, Qinv, inject_Z in Hred. simpl in Hred.
  simpl Qnum. simpl Qden.
  assert (Hn : 0 <= n) by nia.
  rewrite Z.abs_eq by exact Hn.
  destruct (n =? 0) eqn:Hn0; [eexists; reflexivity|].
  apply Z.eqb_neq in Hn0.
  assert (Hnpos : 0 < n) by lia.
  assert (Hd : 0 < Z.pos d) by lia.
  assert (Hlt : n < 2 ^ 53 * Z.pos d) by nia.
  pose proof (binary64_exponent_upper n (Z.pos d) 53 Hnpos Hd ltac:(lia) Hlt)
    as Hup.
  destruct (binary64_exponent_spec n (Z.pos d) Hnpos Hd) as (_ & H1 & _).
  set (e := binary64_exponent n (Z.pos d)) in *.
  rewrite (pow2_nonpos e) in * by lia.
  rewrite !Z.mul_1_r. rewrite Z.mul_1_r in H1.
  pose proof (round_half_even_range (n * pow2 (- e)) (Z.pos d) Hd) as Hrange.
  assert (Hq : n * pow2 (- e) / Z.pos d < 2 ^ 53)
    by (apply Z.div_lt_upper_bound; lia).
  replace (2 ^ 1024 <=? round_half_even (n * pow2 (- e)) (Z.pos d)) with false.
  2:{ symmetry. apply Z.leb_gt.
      assert (2 ^ 54 < 2 ^ 1024) by (apply Z.pow_lt_mono_r; lia). lia. }
  eexists. reflexivity.
Qed.

(** ** The sampling loop *)

Lemma sample_loop_spec limit : forall (n fuel : nat) pos acc,
  (n < fuel)%nat ->
  limit <= pos + Z.of_nat n * stride ->
  (0 < Z.of_nat n -> pos + (Z.of_nat n - 1) * stride < limit) ->
  sample_loop fuel limit pos acc = Some (acc ++ progression pos n).
Proof.
  assert (Hstride : 0 < stride) by reflexivity.
  induction n as [|n IH]; intros fuel pos acc Hf Hhi Hlo;
    (destruct fuel as [|fuel]; [lia|]); simpl.
  - replace (pos <? limit) with false by (symmetry; apply Z.ltb_ge; lia).
    rewrite app_nil_r. reflexivity.
  - replace (pos <? limit) with true by (symmetry; apply Z.ltb_lt; nia).
    rewrite (IH fuel (pos + stride) (acc ++ [pos])) by lia.
    rewrite <- app_assoc. reflexivity.
Qed.

Lemma progression_spec n : forall pos,
  StronglySorted Z.lt (progression pos n)
  /\ forall x, x ∈ progression pos n
       <-> exists k, 0 <= k < Z.of_nat n /\ x = pos + k * stride.
Proof.
  assert (Hstride : 0 < stride) by reflexivity.
  induction n as [|n IH]; intros pos.
  - split; [constructor|]. intros x. split.
    + intros H. apply elem_of_nil in H. contradiction.
    + intros (k & Hk & _). simpl in Hk. lia.
  - destruct (IH (pos + stride)) as [Hs Hm]. cbn [progression]. split.
    + constructor; [exact Hs|]. apply Forall_forall. intros y Hy.
      apply Hm in Hy as (k & Hk & ->). nia.
    + intros x. rewrite elem_of_cons, Hm. split.
      * intros [->|(k & Hk & ->)]; [exists 0; lia|].
        exists (k + 1). split; lia.
      * intros (k & Hk & ->). destruct (Z.eq_dec k 0) as [->|Hne]; [left; lia|].
        right. exists (k - 1). split; lia.
Qed.

Lemma progression_length n pos : length (progression pos n) = n.
Proof. revert pos. induction n as [|n IH]; intros pos; simpl; [|rewrite IH]; reflexivity. Qed.

Lemma sorted_set_id (l : list Z) : StronglySorted Z.lt l -> sorted_set l = l.
Proof.
  intros Hs. unfold sorted_set.
  assert (Hnd : NoDup l).
  { induction Hs as [|x l Hs IH Hall]; constructor; [|exact IH].
    intros Hin. rewrite Forall_forall in Hall. specialize (Hall x Hin). lia. }
  apply (StronglySorted_unique Z.le).
  - apply StronglySorted_merge_sort; apply _.
  - clear Hnd. induction Hs as [|x l Hs IH Hall]; constructor; [exact IH|].
    eapply Forall_impl; [exact Hall|]. simpl. lia.
  - rewrite merge_sort_Permutation. apply elements_list_to_set. exact Hnd.
Qed.

Lemma StronglySorted_snoc_lt (l : list Z) (x : Z) :
  StronglySorted Z.lt l -> Forall (fun y => y < x) l ->
  StronglySorted Z.lt (l ++ [x]).
Proof.
  induction 1 as [|y l Hs IH Hall]; intros Hlt; simpl.
  - repeat constructor.
  - apply Forall_cons_iff in Hlt as [Hy Hlt].
    constructor; [apply IH; exact Hlt|].
    apply Forall_app. split; [exact Hall | repeat constructor; exact Hy].
Qed.

(** The positions of a file of more than 500 MiB, in the order the loop
    appends them. *)
Lemma sample_positions_large (file_size : Z) (fuel : nat) :
  500 * 1024 * 1024 < file_size ->
  (Z.to_nat (file_size / stride) < fuel)%nat ->
  StronglySorted Z.lt
    (0 :: progression stride (Z.to_nat ((file_size - chunk_size - 1) / stride))
       ++ [file_size - chunk_size])
  /\ sample_positions fuel file_size
     = Some (0 :: progression stride
                    (Z.to_nat ((file_size - chunk_size - 1) / stride))
               ++ [file_size - chunk_size]).
Proof.
  intros Hbig Hfuel.
  assert (Hstride : stride = 524288000) by reflexivity.
  assert (Hchunk : chunk_size = 104857600) by reflexivity.
  set (limit := file_size - chunk_size) in *.
  set (n := Z.to_nat ((limit - 1) / stride)).
  assert (Hn : Z.of_nat n = (limit - 1) / stride)
    by (unfold n; rewrite Z2Nat.id; [reflexivity | apply Z.div_pos; lia]).
  assert (Hsorted : StronglySorted Z.lt (0 :: progression stride n ++ [limit])).
  { destruct (progression_spec n stride) as [Hs Hm].
    constructor.
    - apply StronglySorted_snoc_lt; [exact Hs|].
      apply Forall_forall. intros y Hy. apply Hm in Hy as (k & Hk & ->).
      rewrite Hn in Hk. Z.to_euclidean_division_equations; nia.
    - apply Forall_app. split.
      + apply Forall_forall. intros y Hy. apply Hm in Hy as (k & Hk & ->). nia.
      + repeat constructor. lia. }
  split; [exact Hsorted|].
  unfold sample_positions.
  replace (file_size >? 500 * 1024 * 1024) with true
    by (symmetry; apply Z.gtb_lt; lia).
  fold limit.
  rewrite (sample_loop_spec limit n fuel stride [0]).
  - simpl. rewrite Z.max_r by lia. f_equal.
    apply (sorted_set_id _ Hsorted).
  - assert ((limit - 1) / stride <= file_size / stride)
      by (apply Z.div_le_mono; lia).
    lia.
  - rewrite Hn. Z.to_euclidean_division_equations; nia.
  - rewrite Hn. intros Hpos. Z.to_euclidean_division_equations; nia.
Qed.

Lemma sample_loop_elems limit : forall fuel pos acc l,
  sample_loop fuel limit pos acc = Some l ->
  forall x, x ∈ l -> x ∈ acc \/ pos <= x.
Proof.
  assert (Hstride : 0 < stride) by reflexivity.
  induction fuel as [|fuel IH]; intros pos acc l Hrun x Hx; [discriminate|].
  simpl in Hrun. destruct (pos <? limit).
  - destruct (IH _ _ _ Hrun x Hx) as [Hin|Hle]; [|right; lia].
    apply elem_of_app in Hin as [Hin|Hin]; [left; exact Hin|].
    apply list_elem_of_singleton in Hin. right. lia.
  - injection Hrun as <-. left. exact Hx.
Qed.

(** X14: the sections of a file of more than 500 MiB.  With enough fuel
    the sampling loop returns; the positions are 0, the multiples of 500
    MiB below [file_size - 100 MiB], and [file_size - 100 MiB], already in
    increasing order without repeats (sorting the set changes nothing);
    there are at most [file_size / 500 MiB + 2] of them; every section
    [dd] reads lies inside the file, and the last one ends less than 1 MiB
    before the end of the file. *)
Theorem sampling_positions_large_file (file_size : Z) (fuel : nat) :
  500 * 1024 * 1024 < file_size ->
  (Z.to_nat (file_size / stride) < fuel)%nat ->
  exists positions,
    sample_positions fuel file_size = Some positions
    /\ positions
       = 0 :: progression stride
                (Z.to_nat ((file_size - chunk_size - 1) / stride))
           ++ [file_size - chunk_size]
    /\ StronglySorted Z.lt positions
    /\ (forall p, p ∈ positions <->
          p = file_size - chunk_size
          \/ exists k, 0 <= k /\ p = k * stride /\ p < file_size - chunk_size)
    /\ Forall (fun p => 0 <= section_start p /\ section_end p <= file_size)
         positions
    /\ file_size - 1024 * 1024 < section_end (file_size - chunk_size)
    /\ len positions <= file_size / stride + 2.
Proof.
  intros Hbig Hfuel.
  destruct (sample_positions_large file_size fuel Hbig Hfuel) as [Hs Hrun].
  assert (Hstride : stride = 524288000) by reflexivity.
  assert (Hchunk : chunk_size = 104857600) by reflexivity.
  set (limit := file_size - chunk_size) in *.
  set (n := Z.to_nat ((limit - 1) / stride)) in *.
  assert (Hn : Z.of_nat n = (limit - 1) / stride)
    by (unfold n; rewrite Z2Nat.id; [reflexivity | apply Z.div_pos; lia]).
  destruct (progression_spec n stride) as [_ Hm].
  assert (Hmem : forall p, p ∈ 0 :: progression stride n ++ [limit] <->
            p = limit \/ exists k, 0 <= k /\ p = k * stride /\ p < limit).
  { intros p. rewrite elem_of_cons, elem_of_app, Hm, list_elem_of_singleton.
    split.
    - intros [->|[[k [Hk ->]] | ->]].
      + right. exists 0. lia.
      + right. exists (k + 1). rewrite Hn in Hk.
        split; [lia|]. split; [lia|].
        Z.to_euclidean_division_equations; nia.
      + left. reflexivity.
    - intros [->|[k [Hk [-> Hlt]]]]; [auto|].
      destruct (Z.eq_dec k 0) as [->|Hne]; [left; lia|].
      right. left. exists (k - 1). rewrite Hn.
      split; [|lia]. Z.to_euclidean_division_equations; nia. }
  eexists. split; [exact Hrun|]. split; [reflexivity|].
  split; [exact Hs|]. split; [exact Hmem|]. split; [|split].
  - apply Forall_forall. intros p Hp. apply Hmem in Hp.
    unfold section_start, section_end, section_start. rewrite Hchunk.
    assert (0 <= p <= limit) by (destruct Hp as [->|[k [? [-> ?]]]]; nia).
    unfold limit in *. Z.to_euclidean_division_equations; lia.
  - unfold section_end, section_start. rewrite Hchunk.
    Z.to_euclidean_division_equations; lia.
  - unfold len. cbn [length]. rewrite length_app, progression_length. simpl.
    assert ((limit - 1) / stride <= file_size / stride)
      by (apply Z.div_le_mono; lia).
    lia.
Qed.

Lemma sampling_positions_large_file_witness :
  exists positions,
    sample_positions 10 (1600 * 1024 * 1024 + 5) = Some positions
    /\ positions
       = 0 :: progression stride
                (Z.to_nat ((1600 * 1024 * 1024 + 5 - chunk_size - 1) / stride))
           ++ [1600 * 1024 * 1024 + 5 - chunk_size]
    /\ StronglySorted Z.lt positions
    /\ (forall p, p ∈ positions <->
          p = 1600 * 1024 * 1024 + 5 - chunk_size
          \/ exists k, 0 <= k /\ p = k * stride
                       /\ p < 1600 * 1024 * 1024 + 5 - chunk_size)
    /\ Forall (fun p => 0 <= section_start p
                        /\ section_end p <= 1600 * 1024 * 1024 + 5)
         positions
    /\ 1600 * 1024 * 1024 + 5 - 1024 * 1024
       < section_end (1600 * 1024 * 1024 + 5 - chunk_size)
    /\ len positions <= (1600 * 1024 * 1024 + 5) / stride + 2.
Proof.
  apply (sampling_positions_large_file (1600 * 1024 * 1024 + 5) 10).
  - reflexivity.
  - vm_compute. lia.
Defined.

(** X15: sampling is lossy by construction.  Whatever the size of the
    file, no section that is read contains a byte at an offset from 100
    MiB up to (not including) 400 MiB. *)
Theorem sampling_never_reads_second_chunk (fuel : nat) (file_size : Z)
    (positions : list Z) (p b : Z) :
  sample_positions fuel file_size = Some positions ->
  p ∈ positions ->
  section_start p <= b < section_end p ->
  b < 100 * 1024 * 1024 \/ 400 * 1024 * 1024 <= b.
Proof.
  assert (Hstride : stride = 524288000) by reflexivity.
  assert (Hchunk : chunk_size = 104857600) by reflexivity.
  unfold sample_positions. intros Hrun Hp Hb.
  unfold section_end, section_start in Hb. rewrite Hchunk in Hb.
  destruct (file_size >? 500 * 1024 * 1024) eqn:Hbig.
  - apply Z.gtb_lt in Hbig.
    destruct (sample_loop fuel (file_size - chunk_size) stride [0])
      as [l|] eqn:Hloop; [|discriminate].
    simpl in Hrun. injection Hrun as <-.
    apply (proj1 (proj2 (sorted_set_spec _) p)) in Hp.
    assert (Hcases : p = 0 \/ 400 * 1024 * 1024 <= p).
    { apply elem_of_app in Hp as [Hp|Hp].
      - destruct (sample_loop_elems _ _ _ _ _ Hloop p Hp) as [Hin|Hle].
        + apply list_elem_of_singleton in Hin. left. exact Hin.
        + right. lia.
      - apply list_elem_of_singleton in Hp. right. lia. }
    destruct Hcases as [->|Hge]; Z.to_euclidean_division_equations; lia.
  - injection Hrun as <-. apply list_elem_of_singleton in Hp. subst p.
    Z.to_euclidean_division_equations; lia.
Qed.

Lemma sampling_never_reads_second_chunk_witness :
  50 * 1024 * 1024 < 100 * 1024 * 1024
  \/ 400 * 1024 * 1024 <= 50 * 1024 * 1024.
Proof.
  apply (sampling_never_reads_second_chunk 1 (300 * 1024 * 1024) [0] 0
           (50 * 1024 * 1024)).
  - reflexivity.
  - apply list_elem_of_singleton. reflexivity.
  - split; [apply Z.leb_le; reflexivity | apply Z.ltb_lt; reflexivity].
Defined.

Section ExtractionFacts.

Variable getsize : string -> Z.
Variable run_shell : string -> option string.

Lemma scan_invariant_step burp_file done pos timestamps out timestamps' :
  scan_invariant run_shell burp_file done timestamps ->
  section_body run_shell burp_file pos timestamps = (out, Ok timestamps') ->
  scan_invariant run_shell burp_file (done ++ [pos]) timestamps'.
Proof.
  unfold section_body. intros Hinv Hrun t.
  destruct (run_shell (dd_command burp_file pos)) as [stdout|] eqn:Hsh.
  - apply mret_inv in Hrun as [<- _]. rewrite add_lines_elem, (Hinv t). split.
    + intros [(p & so & l & Hp & ?)|(l & Hl & Hparse)].
      * exists p, so, l. split; [apply elem_of_app; left; exact Hp | assumption].
      * exists pos, stdout, l. split; [|auto].
        apply elem_of_app. right. apply list_elem_of_singleton. reflexivity.
    + intros (p & so & l & Hp & Hso & Hl & Hparse).
      apply elem_of_app in Hp as [Hp|Hp].
      * left. exists p, so, l. auto.
      * apply list_elem_of_singleton in Hp. subst p.
        rewrite Hsh in Hso. injection Hso as <-. right. exists l. auto.
  - apply io_bind_inv in Hrun as (? & gb & ? & _ & Hrun & _).
    apply io_bind_inv in Hrun as (? & ? & ? & _ & Hrun & _).
    apply mret_inv in Hrun as [<- _]. rewrite (Hinv t). split.
    + intros (p & so & l & Hp & ?).
      exists p, so, l. split; [apply elem_of_app; left; exact Hp | assumption].
    + intros (p & so & l & Hp & Hso & ?).
      apply elem_of_app in Hp as [Hp|Hp]; [exists p, so, l; auto|].
      apply list_elem_of_singleton in Hp. subst p. congruence.
Qed.

(** X16: what the extraction returns.  Whenever it returns, the list is
    strictly increasing, hence sorted and free of duplicates as
    [analyze_sessions] expects; every element is below 10^13 and not
    negative; and a value is in the list exactly when some section whose
    command did not time out printed a line of 13 digits with that
    value.  A section that timed out contributes nothing. *)
Theorem extraction_result (fuel : nat) (burp_file : string)
    (out : list string) (timestamps : list Z) :
  extract_timestamps getsize run_shell fuel burp_file
  = Some (out, Ok timestamps) ->
  exists positions,
    sample_positions fuel (getsize burp_file) = Some positions
    /\ StronglySorted Z.lt timestamps
    /\ Sorted Z.le timestamps
    /\ Forall (fun t => 0 <= t < 10 ^ 13) timestamps
    /\ forall t,
         t ∈ timestamps
         <-> exists pos stdout line,
               pos ∈ positions
               /\ run_shell (dd_command burp_file pos) = Some stdout
               /\ line ∈ split_lines (strip stdout)
               /\ parse_line line = Some t.
Proof.
  unfold extract_timestamps. intros Hrun.
  destruct (sample_positions fuel (getsize burp_file)) as [positions|];
    [|discriminate].
  apply (inj Some) in Hrun.
  exists positions. split; [reflexivity|].
  apply io_bind_inv in Hrun as (? & gb & ? & _ & Hrun & _).
  apply io_bind_inv in Hrun as (? & ? & ? & _ & Hrun & _).
  unfold scan_sections in Hrun.
  apply io_bind_inv in Hrun as (? & ? & ? & _ & Hrun & _).
  apply io_bind_inv in Hrun as (scan_out & set & ? & Hscan & Hrun & _).
  apply mret_inv in Hrun as [<- _].
  pose proof (for_each_invariant _ (scan_invariant run_shell burp_file)
                (scan_invariant_step burp_file) positions [] ∅ scan_out set)
    as Hinv.
  rewrite app_nil_l in Hinv.
  assert (Hset : scan_invariant run_shell burp_file positions set).
  { apply Hinv; [|exact Hscan]. intros t. split.
    - intros H. apply elem_of_empty in H. contradiction.
    - intros (p & _ & _ & Hp & _). apply elem_of_nil in Hp. contradiction. }
  destruct (sorted_set_spec (elements set)) as [Hs Hm].
  assert (Hmem : forall t, t ∈ sorted_set (elements set) <-> t ∈ set)
    by (intros t; rewrite Hm, elem_of_elements; reflexivity).
  split; [exact Hs|]. split; [apply StronglySorted_lt_le; exact Hs|].
  split.
  - apply Forall_forall. intros t Ht. apply Hmem, Hset in Ht
      as (p & so & l & _ & _ & _ & Hparse).
    apply parse_line_Some in Hparse. tauto.
  - intros t. rewrite (Hmem t). apply Hset.
Qed.

Lemma section_body_returns burp_file pos timestamps :
  0 <= pos < 2 ^ 53 ->
  exists out timestamps',
    section_body run_shell burp_file pos timestamps = (out, Ok timestamps').
Proof.
  intros Hpos. unfold section_body.
  destruct (run_shell (dd_command burp_file pos)); [eexists _, _; reflexivity|].
  destruct (int_true_div_returns pos (1024 ^ 3) Hpos ltac:(reflexivity))
    as [gb ->].
  eexists _, _. reflexivity.
Qed.

Lemma sample_positions_bounds (fuel : nat) (file_size : Z) positions :
  0 <= file_size ->
  sample_positions fuel file_size = Some positions ->
  Forall (fun p => 0 <= p <= file_size) positions.
Proof.
  assert (Hstride : stride = 524288000) by reflexivity.
  assert (Hchunk : chunk_size = 104857600) by reflexivity.
  intros Hfs. unfold sample_positions.
  destruct (file_size >? 500 * 1024 * 1024) eqn:Hbig.
  - apply Z.gtb_lt in Hbig.
    destruct (sample_loop fuel (file_size - chunk_size) stride [0])
      as [l|] eqn:Hloop; [|discriminate].
    simpl. intros [= <-]. apply Forall_forall. intros p Hp.
    apply (proj1 (proj2 (sorted_set_spec _) p)) in Hp.
    apply elem_of_app in Hp as [Hp|Hp].
    + revert p Hp. clear -Hloop Hbig Hstride Hchunk.
      assert (Hgen : forall fuel pos acc l,
                sample_loop fuel (file_size - chunk_size) pos acc = Some l ->
                0 <= pos ->
                Forall (fun p => 0 <= p <= file_size) acc ->
                Forall (fun p => 0 <= p <= file_size) l).
      { clear Hloop. intros f. induction f as [|f IH]; intros pos acc l' Hrun Hpos Hacc;
          [discriminate|].
        simpl in Hrun. destruct (pos <? file_size - chunk_size) eqn:Hlt.
        - apply Z.ltb_lt in Hlt. apply (IH _ _ _ Hrun); [lia|].
          apply Forall_app. split; [exact Hacc|]. repeat constructor; lia.
        - injection Hrun as <-. exact Hacc. }
      intros p Hp.
      pose proof (Hgen _ _ _ _ Hloop ltac:(lia)
                    ltac:(repeat constructor; lia)) as Hall.
      rewrite Forall_forall in Hall. apply Hall. exact Hp.
    + apply list_elem_of_singleton in Hp. lia.
  - intros [= <-]. repeat constructor; lia.
Qed.


End ExtractionFacts.

(** * The analysis on realistic input *)

Lemma io_returns_bind {A B} (m : io A) (f : A -> io B) (P : B -> Prop) o a :
  m = (o, Ok a) ->
  (exists o' b, f a = (o', Ok b) /\ P b) ->
  exists o' b, (m ≫= f) = (o', Ok b) /\ P b.
Proof.
  intros -> (o' & b & Hf & HP). rewrite io_bind_Ok, Hf. simpl. eauto.
Qed.

Lemma io_returns_print {B} (line : string) (f : unit -> io B) (P : B -> Prop) :
  (exists o' b, f tt = (o', Ok b) /\ P b) ->
  exists o' b, (print line ≫= f) = (o', Ok b) /\ P b.
Proof. intros H. eapply io_returns_bind; [reflexivity | exact H]. Qed.

Lemma io_returns_lift {A B} (r : result A) (f : A -> io B) (P : B -> Prop) a :
  r = Ok a ->
  (exists o' b, f a = (o', Ok b) /\ P b) ->
  exists o' b, (lift r ≫= f) = (o', Ok b) /\ P b.
Proof. intros -> H. eapply io_returns_bind; [reflexivity | exact H]. Qed.

Lemma clusters_ends (P : Z -> Prop) gap_ms rest : forall cur,
  P (start cur) -> P (end_ cur) -> Forall P rest ->
  Forall (fun s => P (start s) /\ P (end_ s)) (clusters gap_ms cur rest).
Proof.
  induction rest as [|ts rest IH]; intros cur Hs He Hall; simpl.
  - repeat constructor; assumption.
  - apply Forall_cons_iff in Hall as [Hts Hall].
    destruct (ts - end_ cur >? gap_ms).
    + constructor; [split; assumption|]. apply IH; assumption.
    + apply IH; assumption.
Qed.

Lemma total_effective_filter (P : session -> Prop) `{forall s, Decision (P s)}
    (l : list session) :
  0 <= total_effective (filter P l) <= total_effective l.
Proof.
  unfold total_effective. induction l as [|s l IH]; simpl; [lia|].
  pose proof (effective_duration_max s).
  rewrite filter_cons. destruct (decide (P s)); simpl; lia.
Qed.

Lemma List_last_elem (l : list Z) (d : Z) : l <> [] -> List.last l d ∈ l.
Proof.
  induction l as [|x l IH]; intros Hne; [congruence|].
  destruct l as [|y l]; [apply elem_of_cons; left; reflexivity|].
  apply elem_of_cons. right. apply IH. discriminate.
Qed.

Lemma List_last_stdpp (l : list Z) (d e : Z) :
  last l = Some e -> List.last l d = e.
Proof.
  induction l as [|x l IH]; intros Hl; [discriminate|].
  destruct l as [|y l]; [injection Hl as ->; reflexivity|].
  rewrite last_cons_cons in Hl. apply IH. exact Hl.
Qed.

(** The total work time of a non-decreasing input is at most its time
    range plus five minutes per session. *)
Lemma total_effective_upper (ts0 : Z) (rest : list Z) (G : Z) :
  Sorted Z.le (ts0 :: rest) ->
  0 <= total_effective (analyze_sessions (ts0 :: rest) G)
  /\ total_effective (analyze_sessions (ts0 :: rest) G)
     <= (List.last (ts0 :: rest) ts0 - ts0)
        + 300000 * len (analyze_sessions (ts0 :: rest) G).
Proof.
  intros Hs. rewrite analyze_sessions_clusters.
  assert (Hwf : Forall (fun s => start s <= end_ s)
                  (clusters (G * 60 * 1000) (new_session ts0) rest))
    by (apply clusters_well_formed; [exact Hs | simpl; lia]).
  destruct (total_effective_bracket _ Hwf) as [Hlo Hhi].
  destruct (clusters_total_raw (G * 60 * 1000) rest (new_session ts0) Hs
              ltac:(simpl; lia)) as (e & He & Hr).
  simpl in He, Hr. rewrite (List_last_stdpp _ ts0 e He).
  assert (0 <= len (clusters (G * 60 * 1000) (new_session ts0) rest))
    by (unfold len; lia).
  lia.
Qed.

Section AnalysisReturns.

Variable datetime : Type.
Variable fromtimestamp : Q -> option datetime.
Variable strftime : datetime -> string -> string.
Variable extract_timestamps : string -> io (list Z).

Hypothesis fromtimestamp_defined :
  forall x : Q, (0 <= x)%Q -> (x < inject_Z (10 ^ 10))%Q ->
                is_Some (fromtimestamp x).

Lemma ms_to_datetime_returns (ms : Z) :
  0 <= ms < 10 ^ 13 -> exists dt, ms_to_datetime fromtimestamp ms = Ok dt.
Proof.
  intros Hms. unfold ms_to_datetime.
  destruct (int_true_div_1000 ms) as (s & -> & Hlo & Hhi).
  { assert (10 ^ 13 < 2 ^ 44 * 1000) by reflexivity. lia. }
  rewrite result_bind_Ok.
  destruct (fromtimestamp_defined s) as [dt ->]; [| |eauto].
  - eapply Qle_trans; [|exact Hlo]. change 0%Q with (inject_Z 0).
    rewrite <- Zle_Qle. apply Z.div_pos; lia.
  - eapply Qlt_le_trans; [exact Hhi|]. rewrite <- Zle_Qle.
    assert (ms / 1000 < 10 ^ 10) by (apply Z.div_lt_upper_bound; lia). lia.
Qed.

Lemma day_body_returns (daily_work : gmap string Day.t) (day : string) :
  0 <= Day.time (getitem daily_work day) < 2 ^ 44 * 1000 ->
  forall st, exists out st', day_body daily_work day st = (out, Ok st').
Proof.
  intros Hb st. unfold day_body.
  rewrite format_duration_small by exact Hb.
  eexists _, _. reflexivity.
Qed.

(** X18: the analysis does not fail on realistic input.  When the
    extraction returns a non-empty non-decreasing list of at most 10^10
    timestamps, each from 0 up to 10^13 ms, and [datetime.fromtimestamp]
    accepts every time from 0 up to 10^10 seconds, the analysis runs to
    its end and returns a summary: no overflow and no date error occurs. *)
Theorem analysis_returns_summary (burp_file : string) (session_gap : Z)
    (extraction_output : list string) (timestamps : list Z) :
  extract_timestamps burp_file = (extraction_output, Ok timestamps) ->
  timestamps <> [] ->
  Sorted Z.le timestamps ->
  Forall (fun t => 0 <= t < 10 ^ 13) timestamps ->
  len timestamps <= 10 ^ 10 ->
  exists out d,
    analyze_burp_project fromtimestamp strftime extract_timestamps
      burp_file session_gap = (out, Ok (Some d))
    /\ Summary.sessions d = len (analyze_sessions timestamps session_gap)
    /\ Summary.requests d = len timestamps.
Proof.
  intros Hx Hne Hsorted Hrange Hlen.
  destruct timestamps as [|first_ts rest]; [congruence|].
  set (T := first_ts :: rest) in *.
  set (last_ts := List.last T first_ts).
  set (sessions := analyze_sessions T session_gap).
  assert (Hbound : 2 ^ 44 * 1000 = 17592186044416000) by reflexivity.
  assert (Hp13 : 10 ^ 13 = 10000000000000) by reflexivity.
  assert (Hp10 : 10 ^ 10 = 10000000000) by reflexivity.
  assert (Hp53 : 2 ^ 53 = 9007199254740992) by reflexivity.
  (* the ends of the input *)
  assert (Hfirst : 0 <= first_ts < 10 ^ 13)
    by (apply Forall_cons_iff in Hrange as [H _]; exact H).
  assert (Hlast_in : last_ts ∈ T) by (apply List_last_elem; discriminate).
  assert (Hlast : 0 <= last_ts < 10 ^ 13)
    by (rewrite Forall_forall in Hrange; apply Hrange; exact Hlast_in).
  assert (Hord : first_ts <= last_ts).
  { pose proof Hsorted as Hss.
    apply Sorted_StronglySorted in Hss; [|intros a b c; apply Z.le_trans].
    apply StronglySorted_inv in Hss as [_ Hall].
    apply elem_of_cons in Hlast_in as [->|Hin]; [lia|].
    rewrite Forall_forall in Hall. apply Hall. exact Hin. }
  destruct (ms_to_datetime_returns first_ts Hfirst) as [first_dt Hfd].
  destruct (ms_to_datetime_returns last_ts Hlast) as [last_dt Hld].
  (* the sessions *)
  assert (Hends : Forall (fun s => (0 <= start s < 10 ^ 13)
                                   /\ (0 <= end_ s < 10 ^ 13)) sessions).
  { unfold sessions, T. rewrite analyze_sessions_clusters.
    apply Forall_cons_iff in Hrange as [_ Hrest].
    apply (clusters_ends (fun t => 0 <= t < 10 ^ 13)); simpl; assumption. }
  assert (Hdisp : Forall (displayable fromtimestamp) sessions).
  { eapply Forall_impl; [exact Hends|]. simpl. intros s [Hs He].
    split; [apply ms_to_datetime_returns; exact Hs|].
    split; [apply ms_to_datetime_returns; exact He|].
    rewrite effective_duration_max. lia. }
  destruct (session_loop_total _ _ strftime sessions Hdisp)
    as (loop_out & [total daily] & Hloop).
  pose proof (session_loop_invariant _ _ _ _ _ _ Hloop)
    as (Htot & _ & _ & _ & Hday).
  simpl in Htot, Hday.
  destruct (total_effective_upper first_ts rest session_gap Hsorted)
    as [Htlo Hthi].
  fold T in Htlo, Hthi. fold sessions in Htlo, Hthi. fold last_ts in Hthi.
  assert (Hn : 1 <= len sessions <= len T).
  { unfold sessions, T. rewrite analyze_sessions_clusters.
    pose proof (clusters_length_le (session_gap * 60 * 1000) rest
                  (new_session first_ts)).
    unfold len in *. simpl. lia. }
  assert (Htotal : 0 <= total < 2 ^ 53 /\ total < 2 ^ 44 * 1000) by lia.
  assert (Havg : 0 <= total / Z.max 1 (len sessions) < 2 ^ 44 * 1000).
  { split; [apply Z.div_pos; lia|].
    apply Z.div_lt_upper_bound; [lia|]. nia. }
  destruct (int_true_div_returns total (1000 * 3600) (proj1 Htotal)
              ltac:(reflexivity)) as [total_hours Hhours].
  destruct (for_each_total (day_body daily) (sorted_keys daily)) with (st := tt)
    as (days_out & [] & Hdays).
  { apply Forall_forall. intros day _. apply day_body_returns.
    destruct (Hday day) as [-> _].
    pose proof (total_effective_filter
                  (fun s => session_day fromtimestamp strftime s = Some day)
                  sessions) as Hf.
    unfold day_sessions. lia. }
  (* the run *)
  assert (Hgoal : exists o' b,
            analyze_burp_project fromtimestamp strftime extract_timestamps
              burp_file session_gap = (o', Ok b)
            /\ b = Some {| Summary.total_hours := total_hours;
                           Summary.total_days := Z.of_nat (size daily);
                           Summary.sessions := len sessions;
                           Summary.requests := len T |}).
  { unfold analyze_burp_project.
    repeat apply io_returns_print.
    eapply io_returns_bind; [exact Hx|]. fold T.
    unfold T at 1.
    repeat apply io_returns_print.
    eapply io_returns_lift; [exact Hfd|]. repeat apply io_returns_print.
    eapply io_returns_lift; [exact Hld|]. repeat apply io_returns_print.
    eapply io_returns_lift;
      [apply format_duration_small; fold T; fold last_ts; lia|].
    repeat apply io_returns_print.
    eapply io_returns_bind; [exact Hloop|]. cbv beta iota.
    repeat apply io_returns_print.
    eapply io_returns_lift; [apply format_duration_small; lia|].
    repeat apply io_returns_print.
    eapply io_returns_lift; [apply format_duration_small; exact Havg|].
    repeat apply io_returns_print.
    eapply io_returns_bind; [exact Hdays|].
    repeat apply io_returns_print.
    eapply io_returns_lift; [exact Hhours|].
    repeat apply io_returns_print.
    eapply io_returns_lift; [apply format_duration_small; lia|].
    repeat apply io_returns_print.
    eexists _, _. split; reflexivity. }
  destruct Hgoal as (out & b & Hrun & ->).
  exists out. eexists. split; [exact Hrun|]. split; reflexivity.
Qed.

End AnalysisReturns.

(** * The script *)

Section ScriptFacts.

Variable datetime : Type.
Variable fromtimestamp : Q -> option datetime.
Variable strftime : datetime -> string -> string.
Variable extract_timestamps : string -> io (list Z).
Variable int : string -> option Z.


End ScriptFacts.

Section ScriptOnExtraction.

Variable datetime : Type.
Variable fromtimestamp : Q -> option datetime.
Variable strftime : datetime -> string -> string.
Variable int : string -> option Z.
Variable getsize : string -> Z.
Variable run_shell : string -> option string.

(** X20: timeouts do not stop the script.  Run on a file of less than
    2^53 bytes with a gap argument that is an integer (or none), when
    every shell command of the extraction times out, the script reports
    that no timestamps were found and reaches its end: no exception, no
    [sys.exit].  Arguments after the gap are ignored. *)
Theorem script_survives_timeouts (fuel : nat) (prog burp_file : string)
    (args : list string) (session_gap : Z) (extraction : string -> io (list Z)) :
  0 <= getsize burp_file < 2 ^ 53 ->
  (Z.to_nat (getsize burp_file / stride) < fuel)%nat ->
  extract_timestamps getsize run_shell fuel burp_file
  = Some (extraction burp_file) ->
  (forall cmd, run_shell cmd = None) ->
  match args with [] => Some 30 | gap :: _ => int gap end = Some session_gap ->
  exists out,
    main fromtimestamp strftime extraction int (prog :: burp_file :: args)
    = (out ++ ["[!] No timestamps found in file."], Finished).
Proof.
  intros Hsize Hfuel Hx Hnone Hgap.
  pose proof (sample_positions_bounds fuel (getsize burp_file)) as Hb.
  unfold extract_timestamps in Hx.
  destruct (sample_positions fuel (getsize burp_file)) as [positions|] eqn:Hpos;
    [|discriminate].
  apply (inj Some) in Hx.
  specialize (Hb positions (proj1 Hsize) eq_refl).
  destruct (int_true_div_returns (getsize burp_file) (1024 ^ 3) Hsize
              ltac:(reflexivity)) as [gb Hgb].
  rewrite Hgb in Hx.
  destruct (for_each_total (section_body run_shell burp_file) positions)
    with (st := (∅ : gset Z)) as (o & set & Hscan).
  { eapply Forall_impl; [exact Hb|]. simpl. intros p Hp st.
    apply section_body_returns. lia. }
  pose proof (for_each_invariant _ (scan_invariant run_shell burp_file)
                (scan_invariant_step run_shell burp_file) positions [] ∅ o set)
    as Hinv.
  rewrite app_nil_l in Hinv.
  assert (Hset : scan_invariant run_shell burp_file positions set).
  { apply Hinv; [|exact Hscan]. intros t. split.
    - intros H. apply elem_of_empty in H. contradiction.
    - intros (p & _ & _ & Hp & _). apply elem_of_nil in Hp. contradiction. }
  assert (Hempty : set = ∅).
  { apply set_eq. intros t. rewrite (Hset t). split.
    - intros (p & so & l & _ & Hso & _). rewrite Hnone in Hso. discriminate.
    - intros H. apply elem_of_empty in H. contradiction. }
  subst set.
  assert (Hext : exists xo, extraction burp_file = (xo, Ok [])).
  { rewrite <- Hx. unfold scan_sections, lift, print.
    rewrite !io_bind_Ok. simpl. rewrite Hscan. simpl. eauto. }
  destruct Hext as [xo Hext].
  unfold main.
  replace (length (prog :: burp_file :: args) <? 2)%nat with false
    by (symmetry; apply Nat.ltb_ge; simpl; lia).
  cbn [nth].
  assert (Hparse : (if (2 <? length (prog :: burp_file :: args))%nat
                    then int (nth 0 args "") else Some 30) = Some session_gap).
  { destruct args as [|gap rest]; simpl in *; exact Hgap. }
  rewrite Hparse.
  unfold analyze_burp_project. rewrite Hext.
  unfold print, mbind, io_bind, mret, io_ret. simpl.
  eexists (_ :: _ :: _ :: _ :: _ :: xo). rewrite <- !app_comm_cons.
  reflexivity.
Qed.

End ScriptOnExtraction.

(** * Runs on the UTC instance *)

Lemma UTC_fromtimestamp_defined (x : Q) :
  (0 <= x)%Q -> (x < inject_Z (10 ^ 10))%Q -> is_Some (UTC.fromtimestamp x).
Proof.
  destruct x as [n d]. unfold Qle, Qlt. simpl. intros Hlo Hhi.
  assert (Hn : 0 <= n) by lia.
  assert (Hp10 : 10 ^ 10 = 10000000000) by reflexivity.
  rewrite Hp10 in Hhi.
  unfold UTC.fromtimestamp. simpl.
  set (us := Z.sgn n * round_half_even (1000000 * Z.abs n) (Z.pos d)).
  assert (Hus : 0 <= us <= 10000000000000000).
  { unfold us. pose proof (round_half_even_range (1000000 * Z.abs n) (Z.pos d)
                             ltac:(lia)) as Hr.
    assert (0 <= 1000000 * Z.abs n / Z.pos d) by (apply Z.div_pos; lia).
    assert (1000000 * Z.abs n / Z.pos d < 10000000000000000)
      by (apply Z.div_lt_upper_bound; lia).
    destruct (Z.sgn_spec n) as [[? ->]|[[? ->]|[? ->]]]; lia. }
  replace (-62135596800000000 <=? us) with true
    by (symmetry; apply Z.leb_le; lia).
  replace (us <? 253402300800000000) with true
    by (symmetry; apply Z.ltb_lt; lia).
  simpl. eauto.
Qed.

Lemma session_table_capped_witness :
  exists out st,
    session_loop UTC.fromtimestamp UTC.strftime
      (analyze_sessions
         (map (fun k => 1770000000000 + k * 4000000) (seqZ 0 32)) 30)
    = (out, Ok st)
    /\ len out = 31
    /\ out !! 30%nat = Some (elision_line 32).
Proof.
  destruct (session_loop UTC.fromtimestamp UTC.strftime
              (analyze_sessions
                 (map (fun k => 1770000000000 + k * 4000000) (seqZ 0 32)) 30))
    as [out [st|e]] eqn:Hrun; [|vm_compute in Hrun; discriminate Hrun].
  exists out, st. split; [reflexivity|].
  destruct (session_table_capped UTC.datetime UTC.fromtimestamp UTC.strftime
              _ out st Hrun) as (Hlen & _ & Hel).
  split; [exact Hlen | apply Hel; reflexivity].
Defined.

Lemma summary_counts_ordered_witness :
  exists out d,
    UTC.analyze [1770000000000; 1770000060000; 1770093600000] 30
    = (out, Ok (Some d))
    /\ 1 <= Summary.total_days d
    /\ Summary.total_days d <= Summary.sessions d
    /\ Summary.sessions d <= Summary.requests d.
Proof.
  destruct (UTC.analyze [1770000000000; 1770000060000; 1770093600000] 30)
    as [out [[d|]|e]] eqn:Hrun;
    [|vm_compute in Hrun; discriminate Hrun..].
  exists out, d. split; [reflexivity|].
  exact (summary_counts_ordered UTC.datetime UTC.fromtimestamp UTC.strftime
           (UTC.found [1770000000000; 1770000060000; 1770093600000])
           "/tmp/project.burp" 30 out d Hrun).
Defined.

Lemma total_row_sums_day_rows_witness :
  exists out d,
    UTC.analyze [1770000000000; 1770000060000; 1770093600000] 60
    = (out, Ok (Some d))
    /\ exists loop_output total_work_time daily_work timestamps extraction_output,
         UTC.found [1770000000000; 1770000060000; 1770093600000]
           "/tmp/project.burp"
         = (extraction_output, Ok timestamps)
         /\ session_loop UTC.fromtimestamp UTC.strftime
              (analyze_sessions timestamps 60)
            = (loop_output, Ok (total_work_time, daily_work))
         /\ sum_days Day.time daily_work = total_work_time
         /\ sum_days Day.sessions daily_work = Summary.sessions d
         /\ sum_days Day.requests daily_work = Summary.requests d
         /\ Z.of_nat (size daily_work) = Summary.total_days d.
Proof.
  destruct (UTC.analyze [1770000000000; 1770000060000; 1770093600000] 60)
    as [out [[d|]|e]] eqn:Hrun;
    [|vm_compute in Hrun; discriminate Hrun..].
  exists out, d. split; [reflexivity|].
  exact (total_row_sums_day_rows UTC.datetime UTC.fromtimestamp UTC.strftime
           (UTC.found [1770000000000; 1770000060000; 1770093600000])
           "/tmp/project.burp" 60 out d Hrun).
Defined.

Lemma per_day_table_rows_witness :
  exists out,
    for_each
      (day_body (add_session "2026-02-03" 300000 1
                   (add_session "2026-02-02" 4500000 7 ∅)))
      (sorted_keys (add_session "2026-02-03" 300000 1
                      (add_session "2026-02-02" 4500000 7 ∅)))
      tt
    = (out, Ok tt)
    /\ length out = 2%nat.
Proof.
  destruct (for_each
              (day_body (add_session "2026-02-03" 300000 1
                           (add_session "2026-02-02" 4500000 7 ∅)))
              (sorted_keys (add_session "2026-02-03" 300000 1
                              (add_session "2026-02-02" 4500000 7 ∅)))
              tt)
    as [out [[]|e]] eqn:Hrun; [|vm_compute in Hrun; discriminate Hrun].
  exists out. split; [reflexivity|].
  exact (proj1 (per_day_table_rows _ out tt Hrun)).
Defined.

Lemma extraction_result_witness :
  exists out timestamps positions,
    extract_timestamps (fun _ => 1024)
      (fun _ => Some ("1770000000456" +:+ nl +:+ "1770000000123" +:+ nl
                      +:+ "1770000000456" +:+ nl))
      1 "/tmp/project.burp"
    = Some (out, Ok timestamps)
    /\ sample_positions 1 1024 = Some positions
    /\ StronglySorted Z.lt timestamps
    /\ Forall (fun t => 0 <= t < 10 ^ 13) timestamps.
Proof.
  destruct (extract_timestamps (fun _ => 1024)
              (fun _ => Some ("1770000000456" +:+ nl +:+ "1770000000123" +:+ nl
                              +:+ "1770000000456" +:+ nl))
              1 "/tmp/project.burp")
    as [[out [timestamps|e]]|] eqn:Hrun;
    [|vm_compute in Hrun; discriminate Hrun..].
  destruct (extraction_result (fun _ => 1024) _ 1 "/tmp/project.burp"
              out timestamps Hrun) as (positions & Hp & Hs & _ & Hr & _).
  exists out, timestamps, positions. auto.
Defined.


Lemma analysis_returns_summary_witness :
  exists out d,
    UTC.analyze [1770000000000; 1770000060000; 1770093600000] 30
    = (out, Ok (Some d))
    /\ Summary.sessions d
       = len (analyze_sessions [1770000000000; 1770000060000; 1770093600000] 30)
    /\ Summary.requests d = len [1770000000000; 1770000060000; 1770093600000].
Proof.
  apply (analysis_returns_summary UTC.datetime UTC.fromtimestamp UTC.strftime
           (UTC.found [1770000000000; 1770000060000; 1770093600000])
           UTC_fromtimestamp_defined "/tmp/project.burp" 30 []
           [1770000000000; 1770000060000; 1770093600000]).
  - reflexivity.
  - discriminate.
  - repeat constructor; apply Z.leb_le; reflexivity.
  - repeat constructor; try (apply Z.leb_le; reflexivity);
      apply Z.ltb_lt; reflexivity.
  - apply Z.leb_le. reflexivity.
Defined.


Lemma script_survives_timeouts_witness :
  exists out,
    main UTC.fromtimestamp UTC.strftime
      (fun f => default ([], Ok [])
                  (extract_timestamps (fun _ => 1024) (fun _ => None) 1 f))
      (fun _ => None)
      ["burp_time_analyzer.py"; "/tmp/project.burp"]
    = (out ++ ["[!] No timestamps found in file."], Finished).
Proof.
  apply (script_survives_timeouts UTC.datetime UTC.fromtimestamp UTC.strftime
           (fun _ => None) (fun _ => 1024) (fun _ => None) 1
           "burp_time_analyzer.py" "/tmp/project.burp" [] 30
           (fun f => default ([], Ok [])
                       (extract_timestamps (fun _ => 1024) (fun _ => None) 1 f))).
  - split; [apply Z.leb_le | apply Z.ltb_lt]; reflexivity.
  - vm_compute. lia.
  - reflexivity.
  - reflexivity.
  - reflexivity.
Defined.

(** * A gap that is not positive *)

Lemma Sorted_lt_scattered (gap_ms : Z) (l : list Z) :
  gap_ms <= 0 -> Sorted Z.lt l -> Sorted (scattered gap_ms) l.
Proof.
  intros Hg. induction 1 as [|x l _ IH Hhd]; constructor; [exact IH|].
  destruct Hhd; constructor. unfold scattered. lia.
Qed.

(** X21: a gap of zero minutes or less splits everywhere.  On strictly
    increasing timestamps every timestamp is then a session of its own,
    with one request and no extent. *)
Theorem nonpositive_gap_singletons (T : list Z) (G : Z) :
  Sorted Z.lt T -> G <= 0 ->
  analyze_sessions T G = map new_session T.
Proof.
  intros Hs HG. destruct T as [|ts0 rest]; [reflexivity|].
  rewrite analyze_sessions_clusters.
  apply (clusters_scattered _ rest (new_session ts0)). simpl.
  apply Sorted_lt_scattered; [lia | exact Hs].
Qed.

Lemma nonpositive_gap_singletons_witness :
  analyze_sessions [1770000000000; 1770000000001; 1770000000005] 0
  = map new_session [1770000000000; 1770000000001; 1770000000005].
Proof.
  apply (nonpositive_gap_singletons
           [1770000000000; 1770000000001; 1770000000005] 0).
  - repeat constructor; apply Z.ltb_lt; reflexivity.
  - apply Z.leb_le. reflexivity.
Defined.
